(** * Shopify MCP project: the streaming tool transport and the agentic loop

    A shallow embedding of the parts of the repository that carry its
    protocol and failure-handling contracts:

    - the Rails side: [Mcp::StreamsController] (the SSE endpoint, its
      credential check, event framing and tool dispatch),
      [Mcp::ToolsController] with the routing table (the development-only
      direct-execution interface), and the two registered tools
      [Tools::RefundOrder] and [Tools::AggregateCustomerContext];
    - the Remix side: the connection manager of [mcp-client.server.ts]
      ([getMcpClient], [callMcpTool], [closeMcpClient]), the agentic loop
      [sendMessageToGemini] of the Gemini client, the chat route ([action]
      and [loader]) that calls it, and the label the chat page shows for a
      tool;
    - the report builders of [Tools::AggregateCustomerContext]
      ([build_data_sources_metadata], [generate_summary],
      [extract_key_metrics], [generate_recommendations], [generate_alerts],
      [calculate_days_since_last_order]).

    Ruby exceptions and JavaScript throws are explicit outcomes; module-level
    variables and the response stream are explicit states; everything the
    code reaches outside the repository (FastMcp, the MCP SDK, the Gemini
    SDK, the platform APIs, the clock) is a field of a world record, so that
    every statement quantifies over all behaviours of these collaborators. *)

From Stdlib Require Import List String Ascii Bool Arith ZArith QArith Lia Permutation.
From Equations Require Import Equations.
Import ListNotations.

Set Implicit Arguments.
Set Warnings "-register-all".
Close Scope Q_scope.
Open Scope string_scope.

(* ===================================================================== *)
(** * Values shared by both sides *)
(* ===================================================================== *)

(** JSON values: the payloads of events, tool arguments and tool results. *)
Inductive json : Type :=
| JNull
| JBool (b : bool)
| JNum (q : Q)
| JStr (s : string)
| JArr (items : list json)
| JObj (fields : list (string * json)).

(** [obj[key]]: the first binding of [key], [None] for a missing key or a
    value that is not an object. *)
Fixpoint assoc (key : string) (fields : list (string * json)) : option json :=
  match fields with
  | [] => None
  | (k, v) :: rest => if String.eqb k key then Some v else assoc key rest
  end.

Definition json_field (key : string) (v : json) : option json :=
  match v with
  | JObj fields => assoc key fields
  | _ => None
  end.

(** Ruby's [Hash#compact]: drop the [nil] entries. *)
Definition compact (fields : list (string * json)) : list (string * json) :=
  filter (fun kv => match snd kv with JNull => false | _ => true end) fields.

(** Ruby's [Hash#except]: the hash without the given keys. *)
Definition except (keys : list string) (fields : list (string * json))
  : list (string * json) :=
  filter (fun kv => negb (existsb (String.eqb (fst kv)) keys)) fields.

(** A computation that either returns or fails with an error of type [E]
    (a raised Ruby exception, a thrown JavaScript value). *)
Inductive outcome (E A : Type) : Type :=
| Returns (a : A)
| Fails (e : E).
Arguments Returns {E A} a.
Arguments Fails {E A} e.

Definition bind {E A B} (m : outcome E A) (k : A -> outcome E B) : outcome E B :=
  match m with
  | Returns a => k a
  | Fails e => Fails e
  end.

Notation "x <- m ;; k" := (bind m (fun x => k))
  (at level 61, m at next level, right associativity).

(* ===================================================================== *)
(** * Ruby: exception classes and [rescue] *)
(* ===================================================================== *)

Module Ruby.

(** The exception classes that matter to the [rescue] clauses of the
    server, with Ruby's (and Rails') superclass relation. *)
Inductive klass : Type :=
| Exception
| NoMemoryError
| ScriptError
| NotImplementedError
| SignalException
| Interrupt
| SystemExit
| SystemStackError
| StandardError
| ArgumentError
| IOError
| NameError
| NoMethodError
| RuntimeError
| TimeoutError            (* Timeout::Error *)
| ClientDisconnected.     (* ActionController::Live::ClientDisconnected *)

Definition superclass (c : klass) : option klass :=
  match c with
  | Exception => None
  | NoMemoryError | ScriptError | SignalException | SystemExit
  | SystemStackError | StandardError => Some Exception
  | NotImplementedError => Some ScriptError
  | Interrupt => Some SignalException
  | ArgumentError | IOError | NameError | RuntimeError => Some StandardError
  | NoMethodError => Some NameError
  | TimeoutError | ClientDisconnected => Some RuntimeError
  end.

Definition klass_eqb (a b : klass) : bool :=
  match a, b with
  | Exception, Exception | NoMemoryError, NoMemoryError
  | ScriptError, ScriptError | NotImplementedError, NotImplementedError
  | SignalException, SignalException | Interrupt, Interrupt
  | SystemExit, SystemExit | SystemStackError, SystemStackError
  | StandardError, StandardError | ArgumentError, ArgumentError
  | IOError, IOError | NameError, NameError | NoMethodError, NoMethodError
  | RuntimeError, RuntimeError | TimeoutError, TimeoutError
  | ClientDisconnected, ClientDisconnected => true
  | _, _ => false
  end.

(** [c <= k] in Ruby: [k] is [c] or one of its ancestors.  The hierarchy
    is at most four deep. *)
Fixpoint inherits (depth : nat) (c k : klass) : bool :=
  klass_eqb c k ||
  match depth with
  | O => false
  | S d => match superclass c with
           | Some p => inherits d p k
           | None => false
           end
  end.

Definition name (c : klass) : string :=
  match c with
  | Exception => "Exception"
  | NoMemoryError => "NoMemoryError"
  | ScriptError => "ScriptError"
  | NotImplementedError => "NotImplementedError"
  | SignalException => "SignalException"
  | Interrupt => "Interrupt"
  | SystemExit => "SystemExit"
  | SystemStackError => "SystemStackError"
  | StandardError => "StandardError"
  | ArgumentError => "ArgumentError"
  | IOError => "IOError"
  | NameError => "NameError"
  | NoMethodError => "NoMethodError"
  | RuntimeError => "RuntimeError"
  | TimeoutError => "Timeout::Error"
  | ClientDisconnected => "ActionController::Live::ClientDisconnected"
  end.

Record exn : Type := { class : klass; message : string; backtrace : list string }.

(** [e.is_a?(k)], the test a clause [rescue k => e] performs. *)
Definition is_a (e : exn) (k : klass) : bool := inherits 4 (class e) k.

(** [raise "text"] raises a [RuntimeError]. *)
Definition raise_msg {A} (text : string) : outcome exn A :=
  Fails {| class := RuntimeError; message := text; backtrace := [] |}.

Definition result (A : Type) : Type := outcome exn A.

(** [String#blank?] and [Object#present?] of ActiveSupport, on optional
    strings ([nil] is blank; a string is blank when it is empty or holds
    white space only). *)
Definition is_space (c : ascii) : bool :=
  match nat_of_ascii c with
  | 9 | 10 | 11 | 12 | 13 | 32 => true
  | _ => false
  end.

Definition blank (s : string) : bool :=
  forallb is_space (list_ascii_of_string s).

Definition present (v : option string) : bool :=
  match v with
  | Some s => negb (blank s)
  | None => false
  end.

End Ruby.

(* ===================================================================== *)
(** * Rails: environment, requests, responses and the live stream *)
(* ===================================================================== *)

Module Rails.

(** What a request handler reads from the process: [Rails.env],
    [ENV['MCP_API_KEY']] and the clock ([Time.current.iso8601]). *)
Record env : Type := {
  rails_env : string;
  mcp_api_key : option string;
  now_iso8601 : string
}.

Definition development (e : env) : bool := String.eqb (rails_env e) "development".
Definition production (e : env) : bool := String.eqb (rails_env e) "production".

Inductive verb : Type := GET | POST.

(** A request: verb, path segments, the [X-MCP-Api-Key] header (absent
    is [None]) and the parameters it carries (the JSON body). *)
Record request : Type := {
  req_verb : verb;
  req_path : list string;
  x_mcp_api_key : option string;
  req_body : list (string * json);
  remote_ip : string
}.

(** One Server-Sent Event as [write_sse_event] frames it: the optional
    [id:] line, the optional [event:] line and the [data:] payload. *)
Record frame : Type := {
  frame_id : option string;
  frame_event : option string;
  frame_data : json
}.

(** [response.stream] of [ActionController::Live]: whether it was closed,
    whether the client is still there, the frames that went out, and how
    many times [close] was executed on it. *)
Record stream : Type := {
  closed : bool;
  client_connected : bool;
  frames : list frame;
  close_calls : nat
}.

Definition fresh_stream (connected : bool) : stream :=
  {| closed := false; client_connected := connected; frames := []; close_calls := 0 |}.

(** [Live::Buffer#write]: [IOError] on a closed stream; otherwise the
    frame goes out, unless the client has gone, in which case the buffer
    is dropped and [ClientDisconnected] is raised. *)
Definition stream_write (f : frame) (s : stream) : stream * Ruby.result unit :=
  if closed s then
    (s, Fails {| Ruby.class := Ruby.IOError; Ruby.message := "closed stream";
                 Ruby.backtrace := [] |})
  else if client_connected s then
    ({| closed := closed s; client_connected := client_connected s;
        frames := frames s ++ [f]; close_calls := close_calls s |}, Returns tt)
  else
    (s, Fails {| Ruby.class := Ruby.ClientDisconnected;
                 Ruby.message := "client disconnected"; Ruby.backtrace := [] |}).

(** [response.stream.close]. *)
Definition stream_close (s : stream) : stream :=
  {| closed := true; client_connected := client_connected s;
     frames := frames s; close_calls := S (close_calls s) |}.

Definition client_leaves (s : stream) : stream :=
  {| closed := closed s; client_connected := false;
     frames := frames s; close_calls := close_calls s |}.

(** The response under construction.  [performed] is Rails' flag that a
    [render] has happened; a [before_action] that renders halts the chain. *)
Record response : Type := {
  status : nat;
  body : option json;
  performed : bool;
  headers : list (string * string)
}.

Definition fresh_response : response :=
  {| status := 200; body := None; performed := false; headers := [] |}.

(** [render json: payload, status: code]. *)
Definition render (payload : json) (code : nat) (r : response) : response :=
  {| status := code; body := Some payload; performed := true;
     headers := headers r |}.

Definition set_header (k v : string) (r : response) : response :=
  {| status := status r; body := body r; performed := performed r;
     headers := (k, v) :: headers r |}.

(** What a streaming action works on: the response stream and the
    [FastMcp::SseHandler] instances created for it so far. *)
Record session : Type := {
  out : stream;
  handlers : nat
}.

Definition fresh_session (connected : bool) : session :=
  {| out := fresh_stream connected; handlers := 0 |}.

Definition on_stream (f : stream -> stream) (s : session) : session :=
  {| out := f (out s); handlers := handlers s |}.

(** Controller code as a state-and-exception computation. *)
Definition M (A : Type) : Type := session -> session * Ruby.result A.

Definition ret {A} (a : A) : M A := fun s => (s, Returns a).

Definition raise {A} (e : Ruby.exn) : M A := fun s => (s, Fails e).

Definition andthen {A B} (m : M A) (k : A -> M B) : M B :=
  fun s => match m s with
           | (s', Returns a) => k a s'
           | (s', Fails e) => (s', Fails e)
           end.

(** [begin m; rescue k1 => e; h1 e; rescue k2 => e; h2 e; ... end]: the
    first clause whose class the exception [is_a?] handles it; with no
    matching clause it keeps propagating. *)
Fixpoint select_clause {A} (clauses : list (Ruby.klass * (Ruby.exn -> M A)))
         (e : Ruby.exn) : M A :=
  match clauses with
  | [] => raise e
  | (k, h) :: rest => if Ruby.is_a e k then h e else select_clause rest e
  end.

Definition rescue {A} (m : M A) (clauses : list (Ruby.klass * (Ruby.exn -> M A))) : M A :=
  fun s => match m s with
           | (s', Returns a) => (s', Returns a)
           | (s', Fails e) => select_clause clauses e s'
           end.

(** [begin m; ensure fin; end]: [fin] runs on every path and the
    outcome of [m] stands. *)
Definition ensure {A} (m : M A) (fin : session -> session) : M A :=
  fun s => let (s', r) := m s in (fin s', r).

Definition unauthorized : nat := 401.
Definition forbidden : nat := 403.
Definition not_found : nat := 404.
Definition internal_server_error : nat := 500.

End Rails.

Notation "x <~ m ;; k" := (Rails.andthen m (fun x => k))
  (at level 61, m at next level, right associativity).
Notation "m ;;; k" := (Rails.andthen m (fun _ => k))
  (at level 61, right associativity).

(* ===================================================================== *)
(** * FastMcp as the controllers see it *)
(* ===================================================================== *)

Module FastMcp.

(** What the [FastMcp::SseHandler] does with the stream it is handed,
    one step at a time.  A tool call or resource query carries the
    outcome of [FastMcp.execute_tool] / [FastMcp.query_resource] for it. *)
Inductive action : Type :=
| ToolCall (tool_name : string) (parameters : json) (executed : Ruby.result json)
| ResourceQuery (resource_uri : string) (parameters : json) (queried : Ruby.result json)
| ProtocolError (error_message : string)
| Write (f : Rails.frame)
| ClientLeaves
| Close.

(** A whole [handle_stream] call: the steps it takes and how it ends
    (it returns, or raises: a disconnect, the idle timeout, a fault). *)
Record script : Type := {
  actions : list action;
  ending : Ruby.result unit
}.

(** The tool registry as the direct-execution controller reads it:
    [FastMcp.tools] (name and configuration of each registered tool) and
    [FastMcp.execute_tool]. *)
Record tool_config : Type := {
  description : string;
  schema_parameters : option json;
  tool_class : string
}.

Record registry : Type := {
  tools : list (string * tool_config);
  execute_tool : string -> list (string * json) -> Ruby.result json
}.

End FastMcp.

(* ===================================================================== *)
(** * Mcp::StreamsController *)
(* ===================================================================== *)

Module StreamsController.
Import Rails.

(** [a == b] on values that are a string or [nil]. *)
Definition option_string_eqb (a b : option string) : bool :=
  match a, b with
  | Some x, Some y => String.eqb x y
  | None, None => true
  | _, _ => false
  end.

(** [before_action :authenticate_mcp_client!] *)
Definition authenticate_mcp_client (e : env) (req : request) (r : response) : response :=
  let api_key := x_mcp_api_key req in
  let expected_key := mcp_api_key e in
  if Ruby.present api_key && Ruby.present expected_key
     && option_string_eqb api_key expected_key
  then r
  else render (JObj [("error", JStr "Unauthorized");
                     ("message", JStr "Invalid or missing X-MCP-Api-Key header")])
              unauthorized r.

(** [before_action :set_sse_headers] *)
Definition set_sse_headers (r : response) : response :=
  set_header "Connection" "keep-alive"
    (set_header "X-Accel-Buffering" "no"
      (set_header "Cache-Control" "no-cache, no-store"
        (set_header "Content-Type" "text/event-stream" r))).

(** [write_sse_event(event:, data:, id: nil)]: nothing on a closed
    stream; an [IOError] of the write is logged and swallowed. *)
Definition write_sse_event (event : option string) (data : json) (id : option string)
  : M unit :=
  fun s =>
    if closed (out s) then (s, Returns tt)
    else
      rescue
        (fun s => let (o, r) := stream_write
                                  {| frame_id := id; frame_event := event; frame_data := data |}
                                  (out s) in
                  (on_stream (fun _ => o) s, r))
        [(Ruby.IOError, fun _ => ret tt)] s.

(** [handle_tool_call(tool_name, parameters)], given what
    [FastMcp.execute_tool(tool_name, parameters)] does. *)
Definition handle_tool_call (e : env) (tool_name : string) (parameters : json)
           (executed : Ruby.result json) : M json :=
  rescue
    (result <~ (fun s => (s, executed)) ;;
     write_sse_event (Some "tool_result")
       (JObj [("tool", JStr tool_name); ("result", result);
              ("timestamp", JStr (now_iso8601 e))]) None ;;;
     ret result)
    [(Ruby.StandardError, fun x =>
        let error_result := JObj [("error", JStr "Tool execution failed");
                                  ("tool", JStr tool_name);
                                  ("message", JStr (Ruby.message x))] in
        write_sse_event (Some "tool_error") error_result None ;;;
        ret error_result)].

(** [handle_resource_query(resource_uri, parameters = {})] *)
Definition handle_resource_query (e : env) (resource_uri : string) (parameters : json)
           (queried : Ruby.result json) : M json :=
  rescue
    (result <~ (fun s => (s, queried)) ;;
     write_sse_event (Some "resource_result")
       (JObj [("resource", JStr resource_uri); ("result", result);
              ("timestamp", JStr (now_iso8601 e))]) None ;;;
     ret result)
    [(Ruby.StandardError, fun x =>
        ret (JObj [("error", JStr "Resource query failed");
                   ("resource", JStr resource_uri);
                   ("message", JStr (Ruby.message x))]))].

(** [handle_protocol_error(error_message)] *)
Definition handle_protocol_error (e : env) (error_message : string) : M unit :=
  write_sse_event (Some "protocol_error")
    (JObj [("error", JStr "Protocol error"); ("message", JStr error_message);
           ("timestamp", JStr (now_iso8601 e))]) None.

(** [create_mcp_handler]: a new [FastMcp::SseHandler] wired to the three
    callbacks above. *)
Definition create_mcp_handler : M unit :=
  fun s => ({| out := out s; handlers := S (handlers s) |}, Returns tt).

(** One step of the handler on the stream; its callbacks are the
    controller's methods, and what they raise comes out of the handler. *)
Definition handler_step (e : env) (a : FastMcp.action) : M unit :=
  match a with
  | FastMcp.ToolCall tool_name parameters executed =>
      handle_tool_call e tool_name parameters executed ;;; ret tt
  | FastMcp.ResourceQuery uri parameters queried =>
      handle_resource_query e uri parameters queried ;;; ret tt
  | FastMcp.ProtocolError msg => handle_protocol_error e msg
  | FastMcp.Write f =>
      fun s => let (o, r) := stream_write f (out s) in (on_stream (fun _ => o) s, r)
  | FastMcp.ClientLeaves => fun s => (on_stream client_leaves s, Returns tt)
  | FastMcp.Close => fun s => (on_stream stream_close s, Returns tt)
  end.

(** [mcp_handler.handle_stream(response.stream, request)] *)
Fixpoint handle_steps (e : env) (steps : list FastMcp.action) : M unit :=
  match steps with
  | [] => ret tt
  | a :: rest => handler_step e a ;;; handle_steps e rest
  end.

Definition handle_stream (e : env) (h : FastMcp.script) : M unit :=
  handle_steps e (FastMcp.actions h) ;;; (fun s => (s, FastMcp.ending h)).

(** The terminal action of [stream]'s [ensure] clause:
    [response.stream.close unless response.stream.closed?]. *)
Definition close_unless_closed (s : session) : session :=
  if closed (out s) then s else on_stream stream_close s.

(** [def stream] without its [ensure] clause. *)
Definition stream_rescued (e : env) (h : FastMcp.script) : M unit :=
  rescue
    (write_sse_event (Some "connected")
       (JObj [("server", JStr "Unified Merchant Operations Platform");
              ("version", JStr "1.0.0");
              ("protocol", JStr "mcp/sse");
              ("timestamp", JStr (now_iso8601 e))]) None ;;;
     create_mcp_handler ;;;
     handle_stream e h)
    [(Ruby.ClientDisconnected, fun _ => ret tt);
     (Ruby.TimeoutError, fun _ =>
        write_sse_event (Some "timeout")
          (JObj [("message", JStr "Connection timeout")]) None);
     (Ruby.StandardError, fun x =>
        write_sse_event (Some "error")
          (JObj [("error", JStr "Internal server error");
                 ("message", JStr (Ruby.message x));
                 ("timestamp", JStr (now_iso8601 e))]) None)].

(** [GET /mcp/sse]: [def stream ... ensure ... end]. *)
Definition stream (e : env) (h : FastMcp.script) : M unit :=
  ensure (stream_rescued e h) close_unless_closed.

(** A request through the controller: the [before_action] chain, then the
    action unless a callback has rendered.  [connected] tells whether the
    client is still there when the stream is first written. *)
Definition process (e : env) (req : request) (h : FastMcp.script) (connected : bool)
  : response * session * Ruby.result unit :=
  let r1 := authenticate_mcp_client e req fresh_response in
  if performed r1 then (r1, fresh_session connected, Returns tt)
  else
    let r2 := set_sse_headers r1 in
    let (s, o) := stream e h (fresh_session connected) in
    (r2, s, o).

End StreamsController.

(* ===================================================================== *)
(** * The routing table and Mcp::ToolsController *)
(* ===================================================================== *)

Module Routes.
Import Rails.

Inductive endpoint : Type :=
| HealthShow                                  (* rails/health#show *)
| StreamsStream                               (* mcp/streams#stream *)
| ToolsExecute (tool_name : string)           (* mcp/tools#execute *)
| ToolsIndex                                  (* mcp/tools#index *)
| CustomersShow (id : string)                 (* api/v1/customers#show *)
| CustomersAggregateContext (id : string).    (* api/v1/customers#aggregate_context *)

(** [Rails.application.routes.draw]: the two tool routes are drawn
    [if Rails.env.development?]. *)
Definition routes (e : env) (v : verb) (path : list string) : option endpoint :=
  match v, path with
  | GET, ["up"] => Some HealthShow
  | GET, ["mcp"; "sse"] => Some StreamsStream
  | POST, ["mcp"; "tools"; tool_name] =>
      if development e then Some (ToolsExecute tool_name) else None
  | GET, ["mcp"; "tools"] =>
      if development e then Some ToolsIndex else None
  | GET, ["api"; "v1"; "customers"; id] => Some (CustomersShow id)
  | GET, ["api"; "v1"; "customers"; id; "aggregate_context"] =>
      Some (CustomersAggregateContext id)
  | _, _ => None
  end.

End Routes.

Module ToolsController.
Import Rails.

Inductive action : Type :=
| Index
| Execute (tool_name : string).

(** [before_action :ensure_development_environment!] *)
Definition ensure_development_environment (e : env) (r : response) : response :=
  if development e then r
  else render (JObj [("error", JStr "Not available");
                     ("message",
                      JStr "Tool testing endpoint only available in development")])
              forbidden r.

(** [authenticate_mcp_client!] of this controller. *)
Definition authenticate_mcp_client (e : env) (req : request) (r : response) : response :=
  let api_key := x_mcp_api_key req in
  let expected_key := mcp_api_key e in
  if Ruby.present api_key && Ruby.present expected_key
     && StreamsController.option_string_eqb api_key expected_key
  then r
  else render (JObj [("error", JStr "Unauthorized");
                     ("message", JStr "Invalid or missing X-MCP-Api-Key header")])
              unauthorized r.

(** [before_action :authenticate_mcp_client!, only: [:execute]] *)
Definition authenticate_only_execute (e : env) (req : request) (a : action)
           (r : response) : response :=
  match a with
  | Execute _ => authenticate_mcp_client e req r
  | Index => r
  end.

(** [def index] *)
Definition index (reg : FastMcp.registry) (r : response) : response :=
  let tools :=
    map (fun t : string * FastMcp.tool_config =>
           let (tool_name, tool_config) := t in
           JObj [("name", JStr tool_name);
                 ("description", JStr (FastMcp.description tool_config));
                 ("parameters",
                  match FastMcp.schema_parameters tool_config with
                  | Some ps => ps
                  | None => JObj []
                  end);
                 ("tool_class", JStr (FastMcp.tool_class tool_config))])
        (FastMcp.tools reg) in
  render (JObj [("server", JStr "Unified Merchant Operations Platform");
                ("version", JStr "1.0.0");
                ("tools", JArr tools);
                ("count", JNum (inject_Z (Z.of_nat (List.length tools))))])
         200 r.

(** [params.except(:tool_name, :controller, :action).permit!.to_h]:
    [params] holds the parameters of the request and, over them, the
    path parameters of the route ([tool_name], [controller], [action]);
    without those three keys what is left is the request's own parameters
    other than any by one of those names. *)
Definition parameters (req : request) : list (string * json) :=
  except ["tool_name"; "controller"; "action"] (req_body req).

(** [def execute]: [rescue StandardError] renders a 500; anything else
    leaves the action. *)
Definition execute (e : env) (reg : FastMcp.registry) (req : request)
           (tool_name : string) (r : response) : response * Ruby.result unit :=
  let parameters := parameters req in
  match FastMcp.execute_tool reg tool_name parameters with
  | Returns result =>
      (render (JObj [("tool", JStr tool_name);
                     ("parameters", JObj parameters);
                     ("result", result);
                     ("executed_at", JStr (now_iso8601 e))]) 200 r,
       Returns tt)
  | Fails x =>
      if Ruby.is_a x Ruby.StandardError then
        (render (JObj [("error", JStr "Tool execution failed");
                       ("tool", JStr tool_name);
                       ("message", JStr (Ruby.message x));
                       ("backtrace",
                        if development e
                        then JArr (map JStr (firstn 5 (Ruby.backtrace x)))
                        else JNull)])
                internal_server_error r,
         Returns tt)
      else (r, Fails x)
  end.

(** A request through the controller: the two [before_action]s in
    order, then the action unless one of them has rendered. *)
Definition process (e : env) (reg : FastMcp.registry) (req : request) (a : action)
  : response * Ruby.result unit :=
  let r1 := ensure_development_environment e fresh_response in
  if performed r1 then (r1, Returns tt)
  else
    let r2 := authenticate_only_execute e req a r1 in
    if performed r2 then (r2, Returns tt)
    else
      match a with
      | Index => (index reg r2, Returns tt)
      | Execute tool_name => execute e reg req tool_name r2
      end.

End ToolsController.

Module Application.
Import Rails.

(** The direct-execution interface end to end: routing, then the
    controller.  A path without a route is answered
    [404] ([ActionController::RoutingError]); [None] stands for the
    endpoints other controllers serve. *)
Definition direct_execution (e : env) (reg : FastMcp.registry) (req : request)
  : option (response * Ruby.result unit) :=
  match Routes.routes e (req_verb req) (req_path req) with
  | None =>
      Some (render (JObj [("error", JStr "Not Found")]) not_found fresh_response,
            Returns tt)
  | Some (Routes.ToolsExecute tool_name) =>
      Some (ToolsController.process e reg req (ToolsController.Execute tool_name))
  | Some Routes.ToolsIndex =>
      Some (ToolsController.process e reg req ToolsController.Index)
  | Some _ => None
  end.

End Application.

(* ===================================================================== *)
(** * The registered tools *)
(* ===================================================================== *)

Module Tools.

(** [begin m; rescue StandardError => e; h e; end] in stateless code. *)
Definition rescue_standard_error {A} (m : Ruby.result A)
           (h : Ruby.exn -> Ruby.result A) : Ruby.result A :=
  match m with
  | Returns a => Returns a
  | Fails x => if Ruby.is_a x Ruby.StandardError then h x else Fails x
  end.

(** Time as the tools use it: [Time.current] in seconds, [#iso8601],
    [Time.parse] (which raises on text it cannot read) and the
    interpolation of a number into a message. *)
Record clock : Type := {
  current : Q;
  iso8601 : Q -> string;
  parse : string -> Ruby.result Q;
  show_number : Q -> string
}.

Definition day : Q := inject_Z 86400.

(** [a > b] on numbers. *)
Definition gt (a b : Q) : bool := negb (Qle_bool a b).

(** ** Tools::RefundOrder *)
Module RefundOrder.

Record order : Type := {
  id : string;
  total : Q;
  created_at : string;
  financial_status : string;
  fulfillment_status : string
}.

Record refund : Type := { refund_id : string; amount : Q }.

(** The two Shopify calls of the tool.  The source carries stand-ins
    for them ([fetch_order_mock], [process_refund_mock] below), to be
    replaced by the API calls. *)
Record shopify : Type := {
  fetch_order : string -> Ruby.result (option order);
  process_refund : string -> option Q -> string -> bool -> Ruby.result refund
}.

Definition mock_total : Q := (12599 # 100)%Q.

(** [def fetch_order] as the source has it. *)
Definition fetch_order_mock (c : clock) (order_id : string)
  : Ruby.result (option order) :=
  Returns (Some {| id := order_id;
                   total := mock_total;
                   created_at := iso8601 c (current c - inject_Z 10 * day)%Q;
                   financial_status := "paid";
                   fulfillment_status := "fulfilled" |}).

(** [def process_refund] as the source has it; [hex] is
    [SecureRandom.hex(6)]. *)
Definition process_refund_mock (hex : string) (order_id : string)
           (amount : option Q) (reason : string) (notify_customer : bool)
  : Ruby.result refund :=
  Returns {| refund_id := "refund_" ++ hex;
             amount := match amount with Some a => a | None => mock_total end |}.

Definition mock (c : clock) (hex : string) : shopify :=
  {| fetch_order := fetch_order_mock c; process_refund := process_refund_mock hex |}.

(** [def error_response(message)] *)
Definition error_response (c : clock) (message : string) : json :=
  JObj [("success", JBool false);
        ("error", JStr message);
        ("processed_at", JStr (iso8601 c (current c)))].

(** [def validate_refund_eligibility!(order, amount)] *)
Definition validate_refund_eligibility (c : clock) (o : order) (amount : option Q)
  : Ruby.result bool :=
  if negb (String.eqb (financial_status o) "paid")
  then Ruby.raise_msg "Order not paid yet"
  else
    created <- parse c (created_at o) ;;
    let order_age_days := ((current c - created) / day)%Q in
    if gt order_age_days (inject_Z 30)
    then Ruby.raise_msg "Order too old to refund (>30 days)"
    else
      match amount with
      | Some a =>
          if gt a (total o)
          then Ruby.raise_msg ("Refund amount ($" ++ show_number c a
                               ++ ") exceeds order total ($"
                               ++ show_number c (total o) ++ ")")
          else Returns true
      | None => Returns true
      end.

(** The body of [call], before its [rescue] clause. *)
Definition call_body (c : clock) (sh : shopify) (order_id : string) (amount : option Q)
           (reason : string) (notify_customer : bool) : Ruby.result json :=
  order <- fetch_order sh order_id ;;
  match order with
  | None => Returns (error_response c "Order not found")
  | Some order =>
      _ <- validate_refund_eligibility c order amount ;;
      refund_result <- process_refund sh order_id amount reason notify_customer ;;
      Returns (JObj [("success", JBool true);
                     ("refund_id", JStr (refund_id refund_result));
                     ("order_id", JStr order_id);
                     ("amount_refunded", JNum (RefundOrder.amount refund_result));
                     ("original_order_total", JNum (total order));
                     ("reason", JStr reason);
                     ("notification_sent", JBool notify_customer);
                     ("processed_at", JStr (iso8601 c (current c)))])
  end.

(** [def call(order_id:, amount: nil, reason: "customer_request",
    notify_customer: true) ... rescue StandardError => e ... end]; an
    omitted keyword is [None]. *)
Definition call (c : clock) (sh : shopify) (order_id : string) (amount : option Q)
           (reason : option string) (notify_customer : option bool)
  : Ruby.result json :=
  let reason := match reason with Some r => r | None => "customer_request" end in
  let notify_customer := match notify_customer with Some b => b | None => true end in
  rescue_standard_error
    (call_body c sh order_id amount reason notify_customer)
    (fun x => Returns (error_response c (Ruby.message x))).

End RefundOrder.

(** ** Tools::AggregateCustomerContext *)
Module AggregateCustomerContext.

(** The platform fetchers and the report builders of the tool.  A
    fetcher is called once for the report (attempt [0]) and once more
    for the partial aggregation of the error path (attempt [1]); a
    missing record is [JNull]. *)
Record platforms : Type := {
  fetch_shopify_data : nat -> string -> Ruby.result json;
  fetch_salesforce_data : nat -> string -> Ruby.result json;
  fetch_klaviyo_data : nat -> string -> Ruby.result json;
  fetch_cin7_data : string -> Ruby.result json;
  response_time_ms : Q;
  build_data_sources_metadata : json -> json -> json -> json -> Ruby.result json;
  generate_summary : json -> json -> json -> json -> Ruby.result json;
  extract_key_metrics : json -> json -> json -> Ruby.result json;
  generate_recommendations : json -> json -> json -> Ruby.result json;
  generate_alerts : json -> json -> Ruby.result json
}.

(** [def safe_fetch; yield; rescue StandardError; nil; end] *)
Definition safe_fetch (fetched : Ruby.result json) : Ruby.result json :=
  rescue_standard_error fetched (fun _ => Returns JNull).

(** [def attempt_partial_aggregation(email)] *)
Definition attempt_partial_aggregation (p : platforms) (email : string)
  : Ruby.result json :=
  shopify <- safe_fetch (fetch_shopify_data p 1 email) ;;
  salesforce <- safe_fetch (fetch_salesforce_data p 1 email) ;;
  klaviyo <- safe_fetch (fetch_klaviyo_data p 1 email) ;;
  Returns (JObj (compact [("shopify", shopify);
                          ("salesforce", salesforce);
                          ("klaviyo", klaviyo)])).

(** The body of [call], before its [rescue] clause. *)
Definition call_body (c : clock) (p : platforms) (email : string)
           (include_historical : bool) : Ruby.result json :=
  shopify_data <- fetch_shopify_data p 0 email ;;
  salesforce_data <- fetch_salesforce_data p 0 email ;;
  klaviyo_data <- fetch_klaviyo_data p 0 email ;;
  cin7_data <- (if include_historical then fetch_cin7_data p email
                else Returns JNull) ;;
  data_sources <- build_data_sources_metadata p shopify_data salesforce_data
                                              klaviyo_data cin7_data ;;
  summary <- generate_summary p shopify_data salesforce_data
                              klaviyo_data cin7_data ;;
  key_metrics <- extract_key_metrics p shopify_data salesforce_data klaviyo_data ;;
  recommendations <- generate_recommendations p shopify_data salesforce_data
                                              klaviyo_data ;;
  alerts <- generate_alerts p shopify_data salesforce_data ;;
  Returns (JObj [("email", JStr email);
                 ("aggregated_at", JStr (iso8601 c (current c)));
                 ("response_time_ms", JNum (response_time_ms p));
                 ("data_sources", data_sources);
                 ("platforms", JObj (compact [("shopify", shopify_data);
                                              ("salesforce", salesforce_data);
                                              ("klaviyo", klaviyo_data);
                                              ("cin7", cin7_data)]));
                 ("summary", summary);
                 ("key_metrics", key_metrics);
                 ("recommendations", recommendations);
                 ("alerts", alerts)]).

(** The hash of the [rescue] clause. *)
Definition error_hash (email : string) (x : Ruby.exn) (partial_data : json) : json :=
  JObj [("error", JBool true);
        ("error_type", JStr (Ruby.name (Ruby.class x)));
        ("error_message", JStr (Ruby.message x));
        ("email", JStr email);
        ("partial_data", partial_data);
        ("suggestion", JStr "Try again or ask about a different customer.")].

(** [def call(email:, include_historical: false) ... rescue
    StandardError => e ... end] *)
Definition call (c : clock) (p : platforms) (email : string)
           (include_historical : option bool) : Ruby.result json :=
  let include_historical :=
    match include_historical with Some b => b | None => false end in
  rescue_standard_error
    (call_body c p email include_historical)
    (fun x =>
       partial_data <- attempt_partial_aggregation p email ;;
       Returns (error_hash email x partial_data)).

End AggregateCustomerContext.

End Tools.

(* ===================================================================== *)
(** * JavaScript: thrown values *)
(* ===================================================================== *)

Module Js.

(** A thrown value: an [Error] object with its [name] ([Error] for the
    class itself, [TypeError], [McpError], ... for its subclasses) and its
    [message]. *)
Record error : Type := { name : string; message : string }.

(** [new Error(text)] *)
Definition new_Error (text : string) : error := {| name := "Error"; message := text |}.

(** The template [`${error}`], that is [Error.prototype.toString]: the
    name and the message with a colon between them, or the one of the two
    that is not empty. *)
Definition to_string (e : error) : string :=
  if String.eqb (name e) EmptyString then message e
  else if String.eqb (message e) EmptyString then name e
  else name e ++ ": " ++ message e.

Definition result (A : Type) : Type := outcome error A.

(** [throw new Error(text)] *)
Definition throw {A} (text : string) : result A := Fails (new_Error text).

End Js.

(* ===================================================================== *)
(** * mcp-client.server.ts: the connection manager *)
(* ===================================================================== *)

Module McpClient.

(** A [Client] instance, named by the connection attempt that created it. *)
Definition Client : Type := nat.

Record InputSchema : Type := {
  schema_type : string;
  properties : option json;
  required : option (list string)
}.

Record McpTool : Type := {
  name : string;
  description : option string;
  inputSchema : InputSchema
}.

Record McpToolResult : Type := {
  content : list json;
  isError : option bool
}.

(** How one run of [initializeMcpClient] goes: the key is missing, or
    [client.connect(transport)] rejects, or the transport connects and
    the [client.listTools()] that follows rejects, or both succeed. *)
Inductive attempt : Type :=
| ApiKeyMissing
| ConnectFails (error : Js.error)
| ListToolsFails (error : Js.error)
| Connects (tools : list McpTool).

(** The MCP SDK and the server behind it: the course of the n-th
    connection attempt, [client.listTools()] and [client.close()]. *)
Record sdk : Type := {
  attempts : nat -> attempt;
  listTools : Client -> Js.result (list McpTool);
  close : Client -> Js.result unit
}.

(** [async function initializeMcpClient()], for attempt number [p]. *)
Definition initializeMcpClient (w : sdk) (p : nat) : Js.result Client :=
  match attempts w p with
  | ApiKeyMissing => Js.throw "MCP_API_KEY environment variable is required"
  | ConnectFails error =>
      Js.throw ("Failed to connect to MCP server: " ++ Js.to_string error)
  | ListToolsFails error =>
      Js.throw ("Failed to connect to MCP server: " ++ Js.to_string error)
  | Connects _ => Returns p
  end.

(** Whether [await client.connect(transport)] of the attempt went
    through, so that the code logged [Connected successfully]: from then
    on that attempt's SSE connection to Rails is up. *)
Definition transport_connected (a : attempt) : bool :=
  match a with
  | ListToolsFails _ | Connects _ => true
  | ApiKeyMissing | ConnectFails _ => false
  end.

(** The module state.  [mcpClient] and [connectionPromise] are the two
    module-level variables ([connectionPromise] holds the number of the
    attempt whose promise it is); the rest is the bookkeeping of the event
    loop: how many attempts were started, which promises have settled,
    whose starter has already run its continuation, and on which clients
    [close()] was called. *)
Record state : Type := {
  mcpClient : option Client;
  connectionPromise : option nat;
  started : nat;
  settled : list nat;
  resumed : list nat;
  closed : list Client
}.

Definition initial : state :=
  {| mcpClient := None; connectionPromise := None; started := 0;
     settled := []; resumed := []; closed := [] |}.

Definition mem (p : nat) (l : list nat) : bool := existsb (Nat.eqb p) l.

(** What a call of [getMcpClient()] hands back before anything is
    awaited: the existing client, the promise of the attempt in flight, or
    the promise of the attempt this call has just started. *)
Inductive handle : Type :=
| Existing (c : Client)
| Joined (p : nat)
| Started (p : nat).

(** [getMcpClient()] up to its [await]. *)
Definition call (s : state) : state * handle :=
  match mcpClient s with
  | Some c => (s, Existing c)
  | None =>
      match connectionPromise s with
      | Some p => (s, Joined p)
      | None =>
          let p := started s in
          ({| mcpClient := None; connectionPromise := Some p; started := S p;
              settled := settled s; resumed := resumed s; closed := closed s |},
           Started p)
      end
  end.

(** The promise of attempt [p] settles. *)
Definition settle (p : nat) (s : state) : state :=
  if Nat.ltb p (started s) && negb (mem p (settled s)) then
    {| mcpClient := mcpClient s; connectionPromise := connectionPromise s;
       started := started s; settled := p :: settled s; resumed := resumed s;
       closed := closed s |}
  else s.

(** The starter of attempt [p] continues after its
    [await connectionPromise]: it stores the client, or, in the [catch],
    resets [connectionPromise]. *)
Definition resume (w : sdk) (p : nat) (s : state) : state :=
  if mem p (settled s) && negb (mem p (resumed s)) then
    match initializeMcpClient w p with
    | Returns c =>
        {| mcpClient := Some c; connectionPromise := connectionPromise s;
           started := started s; settled := settled s; resumed := p :: resumed s;
           closed := closed s |}
    | Fails _ =>
        {| mcpClient := mcpClient s; connectionPromise := None;
           started := started s; settled := settled s; resumed := p :: resumed s;
           closed := closed s |}
    end
  else s.

(** What can happen next on the event loop, as far as this module is
    concerned: some request calls [getMcpClient()], a pending attempt
    settles, or the starter of a settled attempt gets to run. *)
Inductive event : Type :=
| Call
| Settle (p : nat)
| Resume (p : nat).

Definition step (w : sdk) (s : state) (ev : event) : state * option handle :=
  match ev with
  | Call => let (s', h) := call s in (s', Some h)
  | Settle p => (settle p s, None)
  | Resume p => (resume w p s, None)
  end.

(** A run of the event loop from [s]: the state it ends in and what each
    [getMcpClient()] call was handed, in call order. *)
Fixpoint run (w : sdk) (s : state) (evs : list event) : state * list handle :=
  match evs with
  | [] => (s, [])
  | ev :: rest =>
      let (s1, h) := step w s ev in
      let (s2, hs) := run w s1 rest in
      (s2, match h with Some x => x :: hs | None => hs end)
  end.

(** The attempts, among those that have settled, whose transport
    connected. *)
Definition connections_established (w : sdk) (s : state) : list nat :=
  filter (fun p => transport_connected (attempts w p)) (settled s).

(** [await getMcpClient()] when nothing else interleaves: the awaited
    promise settles and its starter's continuation runs before the caller
    goes on. *)
Definition getMcpClient (w : sdk) (s : state) : state * Js.result Client :=
  let (s1, h) := call s in
  match h with
  | Existing c => (s1, Returns c)
  | Joined p | Started p => (resume w p (settle p s1), initializeMcpClient w p)
  end.

(** [export async function listMcpTools()] *)
Definition listMcpTools (w : sdk) (s : state) : state * Js.result (list McpTool) :=
  let (s1, r) := getMcpClient w s in
  (s1, client <- r ;; listTools w client).

(** The [try]/[catch] of [callMcpTool] around
    [await client.callTool(...)], given how that call settles. *)
Definition callTool_caught (called : Js.result McpToolResult) : McpToolResult :=
  match called with
  | Returns result => result
  | Fails error =>
      {| content := [JObj [("type", JStr "text");
                           ("text", JStr ("Tool execution failed: "
                                          ++ Js.to_string error))]];
         isError := Some true |}
  end.

(** [export async function callMcpTool(toolName, args)], given how
    [client.callTool({ name: toolName, arguments: args })] settles. *)
Definition callMcpTool (w : sdk) (s : state) (toolName : string) (args : json)
           (called : Js.result McpToolResult) : state * Js.result McpToolResult :=
  let (s1, r) := getMcpClient w s in
  (s1, client <- r ;; Returns (callTool_caught called)).

(** [export async function closeMcpClient()] *)
Definition closeMcpClient (w : sdk) (s : state) : state * Js.result unit :=
  match mcpClient s with
  | Some c =>
      match close w c with
      | Returns _ =>
          ({| mcpClient := None; connectionPromise := None; started := started s;
              settled := settled s; resumed := resumed s; closed := c :: closed s |},
           Returns tt)
      | Fails e =>
          ({| mcpClient := mcpClient s; connectionPromise := connectionPromise s;
              started := started s; settled := settled s; resumed := resumed s;
              closed := c :: closed s |},
           Fails e)
      end
  | None => (s, Returns tt)
  end.

End McpClient.

(* ===================================================================== *)
(** * gemini-client.server.ts: the agentic loop *)
(* ===================================================================== *)

Module GeminiClient.
Import McpClient.

(** ** Types of the module *)

(** Where two interfaces of the source share a field name, the field
    carries a prefix here: [content_text] is [Message.content], [tool_name]
    is [ToolCallRecord.name], [fc_name] and [fr_name] are the [name] of a
    function call and of a function response. *)

Inductive Role : Type := user | assistant | model.

Record Message : Type := { role : Role; content_text : string }.

(** An omitted optional field is [None]; the ceiling [maxToolCalls] is an
    integer. *)
Record ChatRequest : Type := {
  messages : list Message;
  systemPrompt : option string;
  maxToolCalls : option Z
}.

(** [result] is [mcpResult.content[0]], [None] when the content is empty. *)
Record ToolCallRecord : Type := {
  tool_name : string;
  input : json;
  result : option json;
  durationMs : Z
}.

Record Usage : Type := {
  inputTokens : Z;
  outputTokens : Z;
  totalTokens : Z
}.

Record ChatResponse : Type := {
  message : string;
  toolCalls : list ToolCallRecord;
  usage : Usage;
  iterations : Z
}.

(** ** Types of the Gemini SDK *)

Record FunctionCall : Type := { fc_name : string; args : option json }.

Record FunctionResponse : Type := { fr_name : string; response : option json }.

(** A [Part]: an object on which the keys [text], [functionCall] and
    [functionResponse] may be present. *)
Record Part : Type := {
  text : option string;
  functionCall : option FunctionCall;
  functionResponse : option FunctionResponse
}.

Record Content : Type := { content_role : string; parts : list Part }.

Record UsageMetadata : Type := {
  promptTokenCount : option Z;
  candidatesTokenCount : option Z
}.

Record Candidate : Type := {
  candidate_parts : option (list Part);     (* candidate.content?.parts *)
  finishReason : option string
}.

Record Response : Type := {
  usageMetadata : option UsageMetadata;
  candidates : option (list Candidate)
}.

Record FunctionDeclaration : Type := {
  fd_name : string;
  fd_description : string;
  fd_properties : json;
  fd_required : list string
}.

Record ModelParams : Type := {
  model_name : string;
  systemInstruction : string;
  tools : option (list FunctionDeclaration)
}.

(** What [chat.sendMessage] is given: [string | Part[]]. *)
Inductive Input : Type :=
| Text (s : string)
| Parts (ps : list Part).

(** One dispatched tool call settling: which call of the batch it is (by
    position), how [client.callTool] settled for it, and the time it
    took. *)
Record completion : Type := {
  index : nat;
  settles : Js.result McpToolResult;
  took : Z
}.

(** The collaborators of one orchestration run: the MCP SDK, the default
    system prompt, the Gemini chat session ([startChat] and
    [sendMessage], the latter as a function of everything sent on the
    session so far), and, for the batch of calls dispatched in a given
    iteration, the order in which they settle. *)
Record world : Type := {
  mcp : sdk;
  DEFAULT_SYSTEM_PROMPT : string;
  startChat : ModelParams -> list Content -> Js.result unit;
  sendMessage : ModelParams -> list Content -> list Input -> Js.result Response;
  completions : Z -> list FunctionCall -> list completion
}.

(** ** Tool schema conversion *)

(** [function convertMcpToolsToGeminiFunctions(mcpTools)] *)
Definition convertMcpToolsToGeminiFunctions (mcpTools : list McpTool)
  : list FunctionDeclaration :=
  map (fun tool =>
         {| fd_name := name tool;
            fd_description := match description tool with Some d => d | None => "" end;
            fd_properties := match properties (inputSchema tool) with
                             | Some ps => ps
                             | None => JObj []
                             end;
            fd_required := match required (inputSchema tool) with
                           | Some r => r
                           | None => []
                           end |})
      mcpTools.

(** ** The state of a run *)

(** The local variables of [sendMessageToGemini], the messages sent on
    the chat session so far, and the connection manager's module state. *)
Record LoopState : Type := {
  toolCallRecords : list ToolCallRecord;
  totalInputTokens : Z;
  totalOutputTokens : Z;
  iteration_count : Z;                 (* let iterations *)
  currentMessage : Input;
  sent : list Input;
  connection : McpClient.state
}.

Definition usage_of (st : LoopState) : Usage :=
  {| inputTokens := totalInputTokens st;
     outputTokens := totalOutputTokens st;
     totalTokens := totalInputTokens st + totalOutputTokens st |}.

Definition respond (text : string) (st : LoopState) : ChatResponse :=
  {| message := text;
     toolCalls := toolCallRecords st;
     usage := usage_of st;
     iterations := iteration_count st |}.

Definition no_candidate_message : string :=
  "I apologize, but I was unable to generate a response.".

Definition processed_message : string := "I have processed your request.".

Definition limit_message : string :=
  "I've been working on your request but reached my limit for tool calls. "
  ++ "Here is what I found so far. Please try a more specific question.".

Definition newline : string := String (ascii_of_nat 10) EmptyString.

(** ** One batch of tool calls: [Promise.all(functionCalls.map(async ...))] *)

(** The callback of the [map] up to its [await callMcpTool(...)]: the
    guard on the part, then [callMcpTool] up to the client it obtains. *)
Definition start_call (w : world) (conn : McpClient.state) (part : Part)
  : McpClient.state * Js.result FunctionCall :=
  match functionCall part with
  | None => (conn, Js.throw "Expected functionCall in part")
  | Some fc =>
      let (conn', r) := getMcpClient (mcp w) conn in
      (conn', _ <- r ;; Returns fc)
  end.

(** All callbacks are started, in request order, before anything is
    awaited; a callback that fails here rejects the [Promise.all]. *)
Fixpoint start_calls (w : world) (conn : McpClient.state) (ps : list Part)
  : McpClient.state * Js.result (list FunctionCall) :=
  match ps with
  | [] => (conn, Returns [])
  | part :: rest =>
      let (conn1, r) := start_call w conn part in
      let (conn2, rs) := start_calls w conn1 rest in
      (conn2, fc <- r ;; fcs <- rs ;; Returns (fc :: fcs))
  end.

(** The rest of the callback, once [client.callTool] has settled: the
    record pushed on [toolCallRecords] and the part the callback returns. *)
Definition finish_call (fc : FunctionCall) (c : completion) : ToolCallRecord * Part :=
  let functionName := fc_name fc in
  let functionArgs := match args fc with Some a => a | None => JObj [] end in
  let mcpResult := callTool_caught (settles c) in
  ({| tool_name := functionName;
      input := functionArgs;
      result := hd_error (McpClient.content mcpResult);
      durationMs := took c |},
   {| text := None;
      functionCall := None;
      functionResponse := Some {| fr_name := functionName;
                                  response := hd_error (McpClient.content mcpResult) |} |}).

(** The values array of [Promise.all]: one slot per callback, filled when
    that callback returns. *)
Fixpoint all_filled (slots : list (option Part)) : option (list Part) :=
  match slots with
  | [] => Some []
  | Some p :: rest => match all_filled rest with
                      | Some ps => Some (p :: ps)
                      | None => None
                      end
  | None :: _ => None
  end.

(** [values[i] = p] *)
Fixpoint fill (slots : list (option Part)) (i : nat) (p : Part) : list (option Part) :=
  match slots, i with
  | [], _ => []
  | _ :: rest, O => Some p :: rest
  | x :: rest, S j => x :: fill rest j p
  end.

(** The calls settle one after the other in the order the world gives;
    each runs the rest of its callback.  [Promise.all] fulfils, with the
    slots in request order, as soon as every slot is filled; while one is
    empty it stays pending ([None]).  A completion for a position that
    does not exist or has already settled has no effect. *)
Fixpoint fan_in (calls : list FunctionCall) (cs : list completion)
         (slots : list (option Part)) (records : list ToolCallRecord)
  : list ToolCallRecord * option (list Part) :=
  match all_filled slots with
  | Some values => (records, Some values)
  | None =>
      match cs with
      | [] => (records, None)
      | c :: rest =>
          match nth_error calls (index c), nth_error slots (index c) with
          | Some fc, Some None =>
              let (record, part) := finish_call fc c in
              fan_in calls rest (fill slots (index c) part) (records ++ [record])%list
          | _, _ => fan_in calls rest slots records
          end
      end
  end.

(** How an awaited promise comes back. *)
Inductive awaited (A : Type) : Type :=
| Fulfilled (a : A)
| Rejected (e : Js.error)
| Pending.
Arguments Fulfilled {A} a.
Arguments Rejected {A} e.
Arguments Pending {A}.

(** [await Promise.all(functionCalls.map(async (part) => ...))] in
    iteration [k] with the records accumulated so far. *)
Definition execute_tools (w : world) (k : Z) (conn : McpClient.state)
           (functionCalls : list Part) (records : list ToolCallRecord)
  : McpClient.state * list ToolCallRecord * awaited (list Part) :=
  let (conn', started) := start_calls w conn functionCalls in
  match started with
  | Fails e => (conn', records, Rejected e)
  | Returns calls =>
      let (records', values) :=
        fan_in calls (completions w k calls) (map (fun _ => None) calls) records in
      match values with
      | Some functionResponses => (conn', records', Fulfilled functionResponses)
      | None => (conn', records', Pending)
      end
  end.

(** ** The loop *)

Definition has_functionCall (p : Part) : bool :=
  match functionCall p with Some _ => true | None => false end.

Definition has_text (p : Part) : bool :=
  match text p with Some _ => true | None => false end.

Definition or_zero (n : option Z) : Z :=
  match n with Some z => z | None => 0%Z end.

(** [response.candidates?.[0]] *)
Definition first_candidate (response : Response) : option Candidate :=
  match candidates response with
  | Some cs => hd_error cs
  | None => None
  end.

(** [candidate.content?.parts || []] *)
Definition parts_of (candidate : Candidate) : list Part :=
  match candidate_parts candidate with
  | Some ps => ps
  | None => []
  end.

(** The parts of the candidate that carry a [functionCall]. *)
Definition function_calls_of (candidate : Candidate) : list Part :=
  filter has_functionCall (parts_of candidate).

(** The message of a final answer: the text parts joined by a blank line,
    or the stock sentence when that is empty. *)
Definition final_text (candidate : Candidate) : string :=
  let textParts := filter has_text (parts_of candidate) in
  let textContent :=
    String.concat (newline ++ newline)
      (map (fun part => match text part with Some t => t | None => "" end) textParts) in
  if String.eqb textContent "" then processed_message else textContent.

(** [totalInputTokens += ...; totalOutputTokens += ...] *)
Definition track_usage (response : Response) (st : LoopState) : LoopState :=
  match usageMetadata response with
  | Some u =>
      {| toolCallRecords := toolCallRecords st;
         totalInputTokens := (totalInputTokens st + or_zero (promptTokenCount u))%Z;
         totalOutputTokens := (totalOutputTokens st + or_zero (candidatesTokenCount u))%Z;
         iteration_count := iteration_count st;
         currentMessage := currentMessage st;
         sent := sent st;
         connection := connection st |}
  | None => st
  end.

(** [iterations++] and the message handed to [chat.sendMessage]. *)
Definition begin_pass (st : LoopState) : LoopState :=
  {| toolCallRecords := toolCallRecords st;
     totalInputTokens := totalInputTokens st;
     totalOutputTokens := totalOutputTokens st;
     iteration_count := (iteration_count st + 1)%Z;
     currentMessage := currentMessage st;
     sent := (sent st ++ [currentMessage st])%list;
     connection := connection st |}.

(** The state after the batch of an iteration. *)
Definition after_tools (st : LoopState) (conn' : McpClient.state)
           (records' : list ToolCallRecord) (message' : Input) : LoopState :=
  {| toolCallRecords := records';
     totalInputTokens := totalInputTokens st;
     totalOutputTokens := totalOutputTokens st;
     iteration_count := iteration_count st;
     currentMessage := message';
     sent := sent st;
     connection := conn' |}.

(** How one pass through the loop body ends. *)
Inductive pass : Type :=
| Return (r : ChatResponse)
| Throw (e : Js.error)
| Hang
| Continue.

(** The body of [while (iterations < maxToolCalls)], from [iterations++]
    to [currentMessage = functionResponses]. *)
Definition loop_body (w : world) (params : ModelParams) (history : list Content)
           (st : LoopState) : LoopState * pass :=
  let st1 := begin_pass st in
  match sendMessage w params history (sent st1) with
  | Fails e => (st1, Throw e)
  | Returns response =>
      let st2 := track_usage response st1 in
      match first_candidate response with
      | None => (st2, Return (respond no_candidate_message st2))
      | Some candidate =>
          let functionCalls := function_calls_of candidate in
          if Nat.eqb (List.length functionCalls) 0 then
            (st2, Return (respond (final_text candidate) st2))
          else
            match execute_tools w (iteration_count st2) (connection st2) functionCalls
                                (toolCallRecords st2) with
            | (conn', records', Fulfilled functionResponses) =>
                (after_tools st2 conn' records' (Parts functionResponses), Continue)
            | (conn', records', Rejected e) =>
                (after_tools st2 conn' records' (currentMessage st2), Throw e)
            | (conn', records', Pending) =>
                (after_tools st2 conn' records' (currentMessage st2), Hang)
            end
      end
  end.

(** How a run ends: the response it returns, the value it throws, or an
    [await] that never comes back. *)
Inductive ending : Type :=
| Responded (r : ChatResponse)
| Thrown (e : Js.error)
| Suspended.

Record run : Type := { final : LoopState; outcome_of : ending }.

Definition inspect {A} (a : A) : {b : A | a = b} := exist _ a eq_refl.

(** [while (iterations < maxToolCalls) { ... }] followed by the
    safety-limit return. *)
Equations? agentic_loop (w : world) (params : ModelParams) (history : list Content)
           (maxToolCalls : Z) (st : LoopState) : run
  by wf (Z.to_nat (maxToolCalls - iteration_count st)) lt :=
  agentic_loop w params history maxToolCalls st with Z_lt_dec (iteration_count st) maxToolCalls => {
    | right _ => {| final := st; outcome_of := Responded (respond limit_message st) |};
    | left Hlt with inspect (loop_body w params history st) => {
        | exist _ (st', Return r) _ => {| final := st'; outcome_of := Responded r |};
        | exist _ (st', Throw e) _ => {| final := st'; outcome_of := Thrown e |};
        | exist _ (st', Hang) _ => {| final := st'; outcome_of := Suspended |};
        | exist _ (st', Continue) Heq =>
            agentic_loop w params history maxToolCalls st' } }.
Proof.
  (* every path through the body leaves [iterations] one higher *)
  assert (Hit : iteration_count st' = (iteration_count st + 1)%Z).
  { clear agentic_loop. revert Heq. unfold loop_body.
    destruct (sendMessage w params history _) as [response|e]; [|discriminate].
    destruct (first_candidate response); [|discriminate].
    destruct (Nat.eqb _ 0); [discriminate|].
    destruct (execute_tools _ _ _ _ _) as [[conn' records'] [v|e|]];
      intro Heq; inversion Heq; unfold track_usage;
      destruct (usageMetadata response); reflexivity. }
  lia.
Qed.

(** [maxToolCalls = 10] when the request leaves it out. *)
Definition ceiling (request : ChatRequest) : Z :=
  match maxToolCalls request with
  | Some n => n
  | None => 10%Z
  end.

(** The argument of [genAI.getGenerativeModel]. *)
Definition model_params (w : world) (request : ChatRequest) (mcpTools : list McpTool)
  : ModelParams :=
  let geminiFunctions := convertMcpToolsToGeminiFunctions mcpTools in
  {| model_name := "gemini-2.0-flash-exp";
     systemInstruction := match systemPrompt request with
                          | Some p => p
                          | None => DEFAULT_SYSTEM_PROMPT w
                          end;
     tools := if Nat.ltb 0 (List.length geminiFunctions)
              then Some geminiFunctions else None |}.

(** [messages.slice(0, -1).map(...)] *)
Definition chat_history (request : ChatRequest) : list Content :=
  map (fun msg =>
         {| content_role := match role msg with
                            | assistant | model => "model"
                            | user => "user"
                            end;
            parts := [{| text := Some (content_text msg);
                         functionCall := None;
                         functionResponse := None |}] |})
      (removelast (messages request)).

(** [messages[messages.length - 1]] *)
Definition latestMessage (request : ChatRequest) : option Message :=
  last (map Some (messages request)) None.

(** The state in which the loop is entered. *)
Definition entry (conn : McpClient.state) (latest : string) : LoopState :=
  {| toolCallRecords := [];
     totalInputTokens := 0;
     totalOutputTokens := 0;
     iteration_count := 0;
     currentMessage := Text latest;
     sent := [];
     connection := conn |}.

(** [export async function sendMessageToGemini(request)], entered with
    the connection manager in state [conn]. *)
Definition sendMessageToGemini (w : world) (conn : McpClient.state)
           (request : ChatRequest) : run :=
  let (conn1, listed) := listMcpTools (mcp w) conn in
  match listed with
  | Fails e => {| final := entry conn1 ""; outcome_of := Thrown e |}
  | Returns mcpTools =>
      let params := model_params w request mcpTools in
      let history := chat_history request in
      match latestMessage request with
      | Some {| role := user; content_text := latest |} =>
          match startChat w params history with
          | Fails e => {| final := entry conn1 latest; outcome_of := Thrown e |}
          | Returns _ =>
              agentic_loop w params history (ceiling request) (entry conn1 latest)
          end
      | _ => {| final := entry conn1 "";
                outcome_of := Thrown (Js.new_Error "Last message must be from user") |}
      end
  end.

End GeminiClient.

(* ===================================================================== *)
(** * Tools::AggregateCustomerContext: the report builders *)
(* ===================================================================== *)

Module CustomerContext.
Import Tools.

(** ** The platform records

    The hashes the fetchers build, with the fields the report builders
    read.  A platform without a record for the customer is [None] ([nil]).
    A field is optional where the builders provide for its being [nil]
    ([&.], [dig] under an [if], [to_i]). *)

Record LastOrder : Type := {
  date : option string;
  order_total : Q;
  order_status : string
}.

Record Shopify : Type := {
  full_name : string;
  customer_since : string;
  tenure_days : Z;
  lifetime_value : Q;
  total_orders : Z;
  average_order_value : Q;
  last_order : option LastOrder;
  tags : list string
}.

Record Case : Type := {
  case_number : string;
  case_status : string;
  priority : string;
  subject : string;
  days_open : option Z
}.

Record Salesforce : Type := {
  crm_status : string;
  account_tier : string;
  open_cases : option Z;
  recent_cases : option (list Case);
  account_manager : option string          (* dig(:account_manager, :name) *)
}.

Record Engagement : Type := {
  engagement_score : Q;
  avg_open_rate : Q
}.

Record Klaviyo : Type := {
  email_engagement : Engagement;
  predicted_next_order_date : string;
  predicted_clv : Q;
  churn_risk : string
}.

(** ** Ruby on numbers and strings *)

(** [Float#to_i]: truncation toward zero. *)
Definition to_i (q : Q) : Z := Z.quot (Qnum q) (Z.pos (Qden q)).

(** [Float#floor] *)
Definition floor (q : Q) : Z := (Qnum q / Z.pos (Qden q))%Z.

(** [Float#round]: the nearest integer, halves away from zero. *)
Definition round (q : Q) : Z :=
  if Qle_bool 0 q then floor (q + (1 # 2))%Q
  else (- floor (- q + (1 # 2))%Q)%Z.

(** [n&.positive?] *)
Definition positive (n : option Z) : bool :=
  match n with
  | Some z => Z.ltb 0 z
  | None => false
  end.

(** [n.to_i] on an integer or [nil]. *)
Definition or_zero (n : option Z) : Z :=
  match n with Some z => z | None => 0%Z end.

(** The interpolation of an integer, and of an integer or [nil]. *)
Definition show_int (c : clock) (n : Z) : string := show_number c (inject_Z n).

Definition show_opt_int (c : clock) (n : option Z) : string :=
  match n with
  | Some z => show_int c z
  | None => ""
  end.

Definition nl : string := String (ascii_of_nat 10) EmptyString.

(** [[...].compact.join(sep)] *)
Definition join_present (sep : string) (parts : list (option string)) : string :=
  String.concat sep
    (flat_map (fun p => match p with Some s => [s] | None => [] end) parts).

(** [begin m; rescue ArgumentError; h; end] *)
Definition rescue_argument_error {A} (m : Ruby.result A)
           (h : Ruby.exn -> Ruby.result A) : Ruby.result A :=
  match m with
  | Returns a => Returns a
  | Fails x => if Ruby.is_a x Ruby.ArgumentError then h x else Fails x
  end.

(** ** [build_data_sources_metadata]

    This builder only tests its arguments for truth and for [nil], so it is
    given on arbitrary values. *)

(** Ruby's truth: everything but [nil] and [false]. *)
Definition truthy (v : json) : bool :=
  match v with
  | JNull | JBool false => false
  | _ => true
  end.

Definition is_nil (v : json) : bool :=
  match v with
  | JNull => true
  | _ => false
  end.

Definition source (name status : string) : json :=
  JObj [("name", JStr name); ("status", JStr status)].

(** [def build_data_sources_metadata(shopify, salesforce, klaviyo, cin7)] *)
Definition build_data_sources_metadata (shopify salesforce klaviyo cin7 : json) : json :=
  let sources := [] in
  let sources :=
    (sources ++ [source "shopify" (if truthy shopify then "success" else "unavailable")])%list in
  let sources :=
    (sources ++ [source "salesforce"
                   (if truthy salesforce then "success" else "unavailable")])%list in
  let sources :=
    (sources ++ [source "klaviyo" (if truthy klaviyo then "success" else "unavailable")])%list in
  let sources :=
    if is_nil cin7 then sources
    else (sources ++ [source "cin7" (if truthy cin7 then "success" else "skipped")])%list in
  JArr sources.

(** ** [calculate_days_since_last_order] *)

(** [shopify&.dig(:last_order, :date)] *)
Definition last_order_date (shopify : option Shopify) : option string :=
  match shopify with
  | Some sh => match last_order sh with
               | Some o => date o
               | None => None
               end
  | None => None
  end.

(** [def calculate_days_since_last_order(shopify) ... rescue ArgumentError;
    nil; end] *)
Definition calculate_days_since_last_order (c : clock) (shopify : option Shopify)
  : Ruby.result (option Z) :=
  match last_order_date shopify with
  | None => Returns None
  | Some d =>
      rescue_argument_error
        (date <- parse c d ;;
         Returns (Some (to_i ((current c - date) / day)%Q)))
        (fun _ => Returns None)
  end.

(** ** [generate_alerts] *)

Record alert : Type := {
  alert_type : string;
  severity : string;
  alert_message : string
}.

(** [def generate_alerts(shopify, salesforce)] *)
Definition generate_alerts (c : clock) (shopify : option Shopify)
           (salesforce : option Salesforce) : list alert :=
  let alerts := [] in
  match salesforce with
  | Some sf =>
      if positive (open_cases sf) then
        match recent_cases sf with
        | Some cases =>
            fold_left
              (fun alerts k =>
                 if String.eqb (priority k) "High" || Z.ltb 7 (or_zero (days_open k))
                 then (alerts ++ [{| alert_type := "support";
                                     severity := "critical";
                                     alert_message :=
                                       "Case " ++ case_number k ++ " is " ++ priority k
                                       ++ " priority and " ++ show_opt_int c (days_open k)
                                       ++ " days old." |}])%list
                 else alerts)
              cases alerts
        | None => alerts
        end
      else alerts
  | None => alerts
  end.

(** ** [generate_recommendations] *)

Record recommendation : Type := {
  rec_type : string;
  rec_priority : string;
  title : string;
  rec_message : string;
  suggested_actions : list string
}.

(** [def generate_recommendations(shopify, salesforce, klaviyo)];
    [two_decimals] is ['%.2f' % x]. *)
Definition generate_recommendations (c : clock) (two_decimals : Q -> string)
           (shopify : option Shopify) (salesforce : option Salesforce)
           (klaviyo : option Klaviyo) : Ruby.result (list recommendation) :=
  let recommendations := [] in
  let recommendations :=
    match shopify with
    | Some sh =>
        if gt (lifetime_value sh) (inject_Z 2000) then
          (recommendations
           ++ [{| rec_type := "upsell";
                  rec_priority := "high";
                  title := "High-Value Customer Opportunity";
                  rec_message :=
                    "Customer has $" ++ two_decimals (lifetime_value sh)
                    ++ " LTV. Consider personal outreach, exclusive offers, "
                    ++ "or VIP program enrollment.";
                  suggested_actions :=
                    ["Send personal thank you email";
                     "Offer early access to new products";
                     "Invite to VIP program"] |}])%list
        else recommendations
    | None => recommendations
    end in
  let recommendations :=
    match klaviyo with
    | Some kl =>
        if gt (engagement_score (email_engagement kl)) (inject_Z 7) then
          (recommendations
           ++ [{| rec_type := "engagement";
                  rec_priority := "medium";
                  title := "Capitalize on High Engagement";
                  rec_message :=
                    "Email engagement score is "
                    ++ show_number c (engagement_score (email_engagement kl))
                    ++ "/10. This customer actively reads emails.";
                  suggested_actions :=
                    ["Include in new product launches";
                     "Send exclusive offers";
                     "Request product reviews"] |}])%list
        else recommendations
    | None => recommendations
    end in
  let recommendations :=
    match salesforce with
    | Some sf =>
        if positive (open_cases sf) then
          let case_info := match recent_cases sf with
                           | Some cases => hd_error cases
                           | None => None
                           end in
          (recommendations
           ++ [{| rec_type := "support";
                  rec_priority := "high";
                  title := "Resolve Active Support Issue";
                  rec_message :=
                    "Customer has " ++ show_opt_int c (open_cases sf) ++ " open case(s). "
                    ++ match case_info with
                       | Some k => "Latest: '" ++ subject k ++ "' (" ++ case_status k ++ ")."
                       | None => ""
                       end;
                  suggested_actions :=
                    ["Check case status";
                     "Escalate if overdue";
                     "Delay marketing until resolved"] |}])%list
        else recommendations
    | None => recommendations
    end in
  days_since_order <- calculate_days_since_last_order c shopify ;;
  let recommendations :=
    match days_since_order with
    | Some days =>
        if Z.ltb 60 days then
          (recommendations
           ++ [{| rec_type := "reengagement";
                  rec_priority := "medium";
                  title := "Win-Back Opportunity";
                  rec_message :=
                    "No purchase in " ++ show_int c days
                    ++ " days. Customer may be churning.";
                  suggested_actions :=
                    ["Send win-back email";
                     "Offer discount code";
                     "Survey for feedback"] |}])%list
        else recommendations
    | None => recommendations
    end in
  let recommendations :=
    match klaviyo with
    | Some kl =>
        if String.eqb (churn_risk kl) "high" then
          (recommendations
           ++ [{| rec_type := "retention";
                  rec_priority := "high";
                  title := "High Churn Risk Alert";
                  rec_message :=
                    "Klaviyo predicts this customer is at high risk of churning. "
                    ++ "Immediate intervention recommended.";
                  suggested_actions :=
                    ["Personal outreach from account manager";
                     "Exclusive retention offer";
                     "Feedback call"] |}])%list
        else recommendations
    | None => recommendations
    end in
  Returns recommendations.

(** ** [extract_key_metrics] *)

Definition on {A} (o : option A) (f : A -> json) : json :=
  match o with
  | Some a => f a
  | None => JNull
  end.

Definition JInt (n : Z) : json := JNum (inject_Z n).

(** [def extract_key_metrics(shopify, salesforce, klaviyo)] *)
Definition extract_key_metrics (c : clock) (shopify : option Shopify)
           (salesforce : option Salesforce) (klaviyo : option Klaviyo)
  : Ruby.result (list (string * json)) :=
  days_since_last_order <- calculate_days_since_last_order c shopify ;;
  Returns
    (compact
       [("lifetime_value", on shopify (fun sh => JNum (lifetime_value sh)));
        ("total_orders", on shopify (fun sh => JInt (total_orders sh)));
        ("days_since_last_order", on days_since_last_order JInt);
        ("crm_tier", on salesforce (fun sf => JStr (account_tier sf)));
        ("open_support_cases", on salesforce (fun sf => on (open_cases sf) JInt));
        ("email_engagement_score",
         on klaviyo (fun kl => JNum (engagement_score (email_engagement kl))));
        ("churn_risk", on klaviyo (fun kl => JStr (churn_risk kl)));
        ("predicted_clv", on klaviyo (fun kl => JNum (predicted_clv kl)))]).

(** ** [generate_summary] *)

Definition no_data : string := "No customer data found across any platform.".

(** The four paragraphs of [generate_summary], each as the list of
    paragraphs it adds. *)
Definition identity_paragraph (c : clock) (two_decimals : Q -> string)
           (shopify : option Shopify) : list string :=
  match shopify with
  | Some sh =>
      [join_present " "
         [Some (full_name sh ++ " has been a customer since " ++ customer_since sh);
          Some ("(" ++ show_int c (tenure_days sh) ++ " days).");
          Some ("Their lifetime value is $" ++ two_decimals (lifetime_value sh));
          Some ("across " ++ show_int c (total_orders sh) ++ " orders");
          Some ("(average order: $" ++ two_decimals (average_order_value sh) ++ ").");
          if existsb (String.eqb "VIP") (tags sh)
          then Some "They are tagged as VIP." else None]]
  | None => []
  end.

Definition activity_paragraph (c : clock) (two_decimals : Q -> string)
           (shopify : option Shopify) : Ruby.result (list string) :=
  match shopify with
  | Some sh =>
      match last_order sh with
      | Some o =>
          match date o with
          | Some d =>
              parsed <- parse c d ;;
              let days_since := ((current c - parsed) / day)%Q in
              Returns ["Last order was " ++ show_int c (to_i days_since)
                       ++ " days ago (" ++ order_status o ++ ", $"
                       ++ two_decimals (order_total o) ++ ")."]
          | None => Returns []
          end
      | None => Returns []
      end
  | None => Returns []
  end.

Definition crm_paragraphs (c : clock) (salesforce : option Salesforce) : list string :=
  match salesforce with
  | Some sf =>
      let crm_note :=
        "CRM status: " ++ crm_status sf ++ " (" ++ account_tier sf ++ " tier)." in
      let crm_note :=
        match account_manager sf with
        | Some manager => crm_note ++ " Account manager: " ++ manager ++ "."
        | None => crm_note
        end in
      if positive (open_cases sf) then
        [crm_note;
         "⚠️ " ++ show_opt_int c (open_cases sf)
         ++ " open support case(s) requiring attention."]
      else [crm_note]
  | None => []
  end.

Definition engagement_paragraph (c : clock) (times : Q -> Q -> Q)
           (klaviyo : option Klaviyo) : list string :=
  match klaviyo with
  | Some kl =>
      let engagement := email_engagement kl in
      [join_present " "
         [Some ("Email engagement is "
                ++ (if Qle_bool (inject_Z 7) (engagement_score engagement)
                    then "strong" else "moderate"));
          Some ("(score: " ++ show_number c (engagement_score engagement) ++ "/10,");
          Some (show_int c (round (times (avg_open_rate engagement) (inject_Z 100)))
                ++ "% open rate).");
          Some ("Predicted next purchase: " ++ predicted_next_order_date kl ++ ".");
          if String.eqb (churn_risk kl) "high"
          then Some "⚠️ High churn risk detected." else None]]
  | None => []
  end.

(** [def generate_summary(shopify, salesforce, klaviyo, cin7)].
    [two_decimals] is ['%.2f' % x]; [times] is [*] on Floats, the product
    rounded to the nearest Float. *)
Definition generate_summary (c : clock) (two_decimals : Q -> string)
           (times : Q -> Q -> Q)
           (shopify : option Shopify) (salesforce : option Salesforce)
           (klaviyo : option Klaviyo) (cin7 : json) : Ruby.result string :=
  match shopify, salesforce with
  | None, None => Returns no_data
  | _, _ =>
      let paragraphs := identity_paragraph c two_decimals shopify in
      activity <- activity_paragraph c two_decimals shopify ;;
      let paragraphs := (paragraphs ++ activity)%list in
      let paragraphs := (paragraphs ++ crm_paragraphs c salesforce)%list in
      let paragraphs := (paragraphs ++ engagement_paragraph c times klaviyo)%list in
      Returns (String.concat (nl ++ nl) paragraphs)
  end.

End CustomerContext.

(* ===================================================================== *)
(** * The chat route: [POST /api/chat] and its health check *)
(* ===================================================================== *)

Module ChatRoute.
Import McpClient GeminiClient.

(** What the route takes from the JavaScript runtime:
    [String.prototype.trim] and [new Date().toISOString()]. *)
Record runtime : Type := {
  trim : string -> string;
  now : string
}.

(** The parsed request body.  [message] is whatever JSON value the body
    holds under that key ([None] when the key is absent);
    [conversationHistory] is absent or a list of messages. *)
Record ChatActionRequest : Type := {
  body_message : option json;
  conversationHistory : option (list Message)
}.

(** The request: its method, and how [await request.json()] and the
    destructuring of its result go. *)
Record Request : Type := {
  method : string;
  parsed : Js.result ChatActionRequest
}.

(** The objects the route answers with. *)
Inductive answer : Type :=
| MethodNotAllowed                       (* { error: 'Method not allowed' } *)
| Invalid (error : string)               (* { success: false, error } *)
| Success (message : string) (toolCalls : list ToolCallRecord) (usage : Usage)
                                         (* { success: true, message, toolCalls, usage } *)
| Failure (error : string) (message : string)
                                         (* { success: false, error, message } *)
| HealthOk (toolCount : nat) (tools : list string) (timestamp : string)
                   (* { status: 'ok', mcp: { connected: true, toolCount, tools }, timestamp } *)
| HealthError (error : string) (timestamp : string).
                   (* { status: 'error', mcp: { connected: false, error }, timestamp } *)

Record HttpResponse : Type := { status : nat; payload : answer }.

(** The answer of the [catch] clause of [action]. *)
Definition error_response (error : Js.error) : HttpResponse :=
  {| status := 500;
     payload := Failure (Js.message error)
                  ("Sorry, I encountered an error processing your request. "
                   ++ "Please try again.") |}.

(** [!message || typeof message !== 'string' || message.trim().length === 0];
    [Some message] when the test lets the message through. *)
Definition valid_message (rt : runtime) (message : option json) : option string :=
  match message with
  | Some (JStr message) =>
      if String.eqb message "" then None
      else if Nat.eqb (String.length (trim rt message)) 0 then None
      else Some message
  | _ => None
  end.

(** [export async function action({ request })], entered with the
    connection manager in state [conn].  The state it leaves and how its
    promise comes back. *)
Definition action (rt : runtime) (w : world) (conn : McpClient.state) (request : Request)
  : McpClient.state * awaited HttpResponse :=
  if negb (String.eqb (method request) "POST") then
    (conn, Fulfilled {| status := 405; payload := MethodNotAllowed |})
  else
    match parsed request with
    | Fails error => (conn, Fulfilled (error_response error))
    | Returns body =>
        match valid_message rt (body_message body) with
        | None =>
            (conn, Fulfilled {| status := 400; payload := Invalid "Message is required" |})
        | Some message =>
            let messages :=
              ((match conversationHistory body with Some h => h | None => [] end)
               ++ [{| role := user; content_text := message |}])%list in
            let run := sendMessageToGemini w conn
                         {| messages := messages; systemPrompt := None;
                            maxToolCalls := None |} in
            (connection (final run),
             match outcome_of run with
             | Responded response =>
                 Fulfilled {| status := 200;
                              payload := Success (GeminiClient.message response)
                                                 (toolCalls response) (usage response) |}
             | Thrown error => Fulfilled (error_response error)
             | Suspended => Pending
             end)
        end
    end.

(** [export async function loader()] *)
Definition loader (rt : runtime) (w : sdk) (conn : McpClient.state)
  : McpClient.state * HttpResponse :=
  let (conn1, listed) := listMcpTools w conn in
  match listed with
  | Returns tools =>
      (conn1, {| status := 200;
                 payload := HealthOk (List.length tools) (map name tools) (now rt) |})
  | Fails error =>
      (conn1, {| status := 503; payload := HealthError (Js.message error) (now rt) |})
  end.

End ChatRoute.

(* ===================================================================== *)
(** * The chat page: how a tool name is shown *)
(* ===================================================================== *)

Module MerchantChat.

(** [s.split(sep)] for a separator of one character. *)
Fixpoint split (sep : ascii) (s : string) : list string :=
  match s with
  | EmptyString => [""]
  | String c rest =>
      if Ascii.eqb c sep then "" :: split sep rest
      else match split sep rest with
           | word :: words => String c word :: words
           | [] => [String c ""]
           end
  end.

(** [c.toUpperCase()] for a character of an ASCII string (tool names are
    identifiers). *)
Definition toUpperCase (c : ascii) : ascii :=
  let n := nat_of_ascii c in
  if Nat.leb 97 n && Nat.leb n 122 then ascii_of_nat (n - 32) else c.

(** [word.charAt(0).toUpperCase() + word.slice(1)] *)
Definition capitalize (word : string) : string :=
  match word with
  | EmptyString => ""
  | String c rest => String (toUpperCase c) rest
  end.

(** [function formatToolName(name)] *)
Definition formatToolName (name : string) : string :=
  String.concat " " (map capitalize (split "_" name)).

End MerchantChat.

(* ===================================================================== *)
(** * Properties of the streaming endpoint *)
(* ===================================================================== *)

Module StreamsFacts.
Import Rails StreamsController.

(** ** Relations every piece of controller code maintains on the session *)

Section Respect.
Variable R : session -> session -> Prop.
Hypothesis R_refl : forall s, R s s.
Hypothesis R_trans : forall a b c, R a b -> R b c -> R a c.

Definition respects {A} (m : M A) : Prop := forall s, R s (fst (m s)).

Lemma respects_ret A (a : A) : respects (ret a).
Proof. intro s. apply R_refl. Qed.

Lemma respects_raise A (x : Ruby.exn) : respects (@raise A x).
Proof. intro s. apply R_refl. Qed.

Lemma respects_pure A (r : Ruby.result A) : respects (fun s => (s, r)).
Proof. intro s. apply R_refl. Qed.

Lemma respects_andthen A B (m : M A) (k : A -> M B) :
  respects m -> (forall a, respects (k a)) -> respects (andthen m k).
Proof.
  intros Hm Hk s. unfold andthen.
  specialize (Hm s). destruct (m s) as [s1 [a|x]]; simpl in *.
  - eapply R_trans; [exact Hm | apply Hk].
  - exact Hm.
Qed.

Lemma respects_select A (clauses : list (Ruby.klass * (Ruby.exn -> M A))) x :
  Forall (fun c => forall y, respects (snd c y)) clauses ->
  respects (select_clause clauses x).
Proof.
  induction 1 as [|[k h] rest Hh _ IH]; simpl.
  - apply respects_raise.
  - destruct (Ruby.is_a x k); [apply Hh | exact IH].
Qed.

Lemma respects_rescue A (m : M A) clauses :
  respects m ->
  Forall (fun c => forall y, respects (snd c y)) clauses ->
  respects (rescue m clauses).
Proof.
  intros Hm Hc s. unfold rescue.
  specialize (Hm s). destruct (m s) as [s1 [a|x]]; simpl in *.
  - exact Hm.
  - eapply R_trans; [exact Hm | apply respects_select, Hc].
Qed.

(** The three ways the controller touches the stream. *)
Hypothesis R_write : forall f s, R s (on_stream (fun _ => fst (stream_write f (out s))) s).
Hypothesis R_leave : forall s, R s (on_stream client_leaves s).
Hypothesis R_handler : forall s, R s {| out := out s; handlers := S (handlers s) |}.

Lemma respects_write f :
  respects (fun s => let (o, r) := stream_write f (out s) in
                     (on_stream (fun _ => o) s, r)).
Proof.
  intro s. specialize (R_write f s).
  destruct (stream_write f (out s)) as [o r]; exact R_write.
Qed.

Lemma respects_write_sse_event event data id :
  respects (write_sse_event event data id).
Proof.
  intro s. unfold write_sse_event.
  destruct (closed (out s)); [apply R_refl|].
  apply respects_rescue; [apply respects_write|].
  repeat constructor. intro y. apply respects_ret.
Qed.

Lemma respects_handle_tool_call e tool_name parameters executed :
  respects (handle_tool_call e tool_name parameters executed).
Proof.
  unfold handle_tool_call. apply respects_rescue.
  - apply respects_andthen; [apply respects_pure|]. intro a.
    apply respects_andthen; [apply respects_write_sse_event|].
    intro. apply respects_ret.
  - repeat constructor. intro y. simpl.
    apply respects_andthen; [apply respects_write_sse_event|].
    intro. apply respects_ret.
Qed.

Lemma respects_handle_resource_query e uri parameters queried :
  respects (handle_resource_query e uri parameters queried).
Proof.
  unfold handle_resource_query. apply respects_rescue.
  - apply respects_andthen; [apply respects_pure|]. intro a.
    apply respects_andthen; [apply respects_write_sse_event|].
    intro. apply respects_ret.
  - repeat constructor. intro y. apply respects_ret.
Qed.

(** Handler scripts: either the relation tolerates a [Close], or the
    script has none. *)
Definition closes (a : FastMcp.action) : bool :=
  match a with FastMcp.Close => true | _ => false end.

Definition close_free (steps : list FastMcp.action) : bool :=
  forallb (fun a => negb (closes a)) steps.

Definition tolerated (steps : list FastMcp.action) : Prop :=
  close_free steps = true \/ forall s, R s (on_stream stream_close s).

Lemma tolerated_cons a rest :
  tolerated (a :: rest) -> tolerated [a] /\ tolerated rest.
Proof.
  unfold tolerated, close_free. simpl. intros [H|H]; [|split; right; exact H].
  apply andb_prop in H. destruct H as [Ha Hr].
  split; left; [rewrite Ha; reflexivity | exact Hr].
Qed.

Lemma respects_handler_step e a :
  tolerated [a] -> respects (handler_step e a).
Proof.
  intro Ht. destruct a; simpl.
  - apply respects_andthen; [apply respects_handle_tool_call|].
    intro. apply respects_ret.
  - apply respects_andthen; [apply respects_handle_resource_query|].
    intro. apply respects_ret.
  - apply respects_write_sse_event.
  - apply respects_write.
  - intro s. apply R_leave.
  - destruct Ht as [Ht|Ht]; [discriminate Ht|]. intro s. apply Ht.
Qed.

Lemma respects_handle_steps e steps :
  tolerated steps -> respects (handle_steps e steps).
Proof.
  induction steps as [|a rest IH]; simpl; intro H.
  - apply respects_ret.
  - apply tolerated_cons in H. destruct H as [Ha Hr].
    apply respects_andthen.
    + apply respects_handler_step, Ha.
    + intro. apply IH, Hr.
Qed.

Lemma respects_stream_rescued e h :
  tolerated (FastMcp.actions h) -> respects (stream_rescued e h).
Proof.
  intro Hh. unfold stream_rescued. apply respects_rescue.
  - apply respects_andthen; [apply respects_write_sse_event|]. intro.
    apply respects_andthen; [intro s; apply R_handler|]. intro.
    unfold handle_stream.
    apply respects_andthen; [apply respects_handle_steps, Hh|]. intro.
    apply respects_pure.
  - repeat constructor; intro y; simpl;
      first [apply respects_ret | apply respects_write_sse_event].
Qed.

End Respect.

(** The frames already on the stream stay, in order. *)
Definition extends (s s' : session) : Prop :=
  exists more, frames (out s') = (frames (out s) ++ more)%list.

Lemma extends_refl s : extends s s.
Proof. exists []. now rewrite app_nil_r. Qed.

Lemma extends_trans a b c : extends a b -> extends b c -> extends a c.
Proof.
  intros [l1 H1] [l2 H2]. exists (l1 ++ l2)%list.
  now rewrite H2, H1, app_assoc.
Qed.

Lemma extends_write f s : extends s (on_stream (fun _ => fst (stream_write f (out s))) s).
Proof.
  unfold stream_write, extends.
  destruct (closed (out s)); [exists []; simpl; now rewrite app_nil_r|].
  destruct (client_connected (out s)); simpl.
  - now exists [f].
  - exists []. now rewrite app_nil_r.
Qed.

Lemma stream_rescued_extends e h s : extends s (fst (stream_rescued e h s)).
Proof.
  apply (@respects_stream_rescued extends extends_refl extends_trans extends_write).
  - intro x. exists []. simpl. now rewrite app_nil_r.
  - intro x. exists []. simpl. now rewrite app_nil_r.
  - right. intro x. exists []. simpl. now rewrite app_nil_r.
Qed.

(** Neither the [closed] flag nor the number of [close] calls moves. *)
Definition same_closing (s s' : session) : Prop :=
  closed (out s') = closed (out s) /\ close_calls (out s') = close_calls (out s).

Lemma same_closing_write f s :
  same_closing s (on_stream (fun _ => fst (stream_write f (out s))) s).
Proof.
  unfold stream_write, same_closing.
  destruct (closed (out s)) eqn:Hc; [simpl; now rewrite Hc|].
  destruct (client_connected (out s)); simpl; now rewrite ?Hc.
Qed.

(** ** Authentication *)

Definition unauthorized_body : json :=
  JObj [("error", JStr "Unauthorized");
        ("message", JStr "Invalid or missing X-MCP-Api-Key header")].

Definition connected_frame (e : env) : frame :=
  {| frame_id := None;
     frame_event := Some "connected";
     frame_data := JObj [("server", JStr "Unified Merchant Operations Platform");
                         ("version", JStr "1.0.0");
                         ("protocol", JStr "mcp/sse");
                         ("timestamp", JStr (now_iso8601 e))] |}.

Lemma option_string_eqb_eq a b : option_string_eqb a b = true <-> a = b.
Proof.
  destruct a as [x|], b as [y|]; simpl; split; intro H;
    try discriminate; try reflexivity.
  - apply String.eqb_eq in H. now subst.
  - inversion H. apply String.eqb_refl.
Qed.

(** The credential test of [authenticate_mcp_client!]. *)
Definition credential_ok (e : env) (req : request) : bool :=
  Ruby.present (x_mcp_api_key req) && Ruby.present (mcp_api_key e)
  && option_string_eqb (x_mcp_api_key req) (mcp_api_key e).

Lemma credential_rejected e req :
  x_mcp_api_key req = None \/ x_mcp_api_key req <> mcp_api_key e
  \/ Ruby.present (mcp_api_key e) = false ->
  credential_ok e req = false.
Proof.
  unfold credential_ok. intros [H|[H|H]].
  - rewrite H. reflexivity.
  - destruct (option_string_eqb _ _) eqn:E.
    + apply option_string_eqb_eq in E. contradiction.
    + now rewrite andb_false_r.
  - rewrite H. now rewrite andb_false_r.
Qed.

Lemma credential_accepted e req :
  Ruby.present (mcp_api_key e) = true -> x_mcp_api_key req = mcp_api_key e ->
  credential_ok e req = true.
Proof.
  unfold credential_ok. intros Hp Heq. rewrite Heq, Hp. simpl.
  now apply option_string_eqb_eq.
Qed.

(** The stream as [stream] leaves it when the client was there for the
    first write: the [connected] frame, then whatever followed. *)
Lemma stream_starts_with_connected e h :
  exists more,
    frames (out (fst (stream e h (fresh_session true)))) = connected_frame e :: more.
Proof.
  unfold stream, ensure.
  destruct (stream_rescued e h (fresh_session true)) as [s2 r] eqn:E.
  assert (Hf : exists more, frames (out s2) = connected_frame e :: more).
  { revert E. unfold stream_rescued, rescue at 1.
    set (body := andthen _ _).
    set (clauses := cons _ _).
    assert (Hb : exists more, frames (out (fst (body (fresh_session true))))
                              = connected_frame e :: more).
    { subst body. unfold andthen at 1. cbn -[andthen handle_stream create_mcp_handler].
      match goal with
      | |- context [andthen create_mcp_handler ?k ?s1] =>
          assert (Hx : extends s1 (fst (andthen create_mcp_handler k s1)))
      end.
      { apply (@respects_andthen extends extends_trans).
        - intro x. exists []. simpl. now rewrite app_nil_r.
        - intro. unfold handle_stream.
          apply (@respects_andthen extends extends_trans).
          + apply (@respects_handle_steps extends extends_refl extends_trans extends_write).
            * intro x. exists []. simpl. now rewrite app_nil_r.
            * right. intro x. exists []. simpl. now rewrite app_nil_r.
          + intro. apply (@respects_pure extends extends_refl). }
      destruct Hx as [more Hx]. exists more. rewrite Hx. reflexivity. }
    destruct (body (fresh_session true)) as [s1 [a|x]]; simpl in Hb.
    - intro E. inversion E. subst. exact Hb.
    - intro E.
      assert (Hs : extends s1 (fst (select_clause clauses x s1))).
      { apply (@respects_select extends extends_refl).
        subst clauses. repeat constructor; intro y; simpl;
          first [ apply (@respects_ret extends extends_refl)
                | apply (@respects_write_sse_event extends extends_refl extends_trans
                                                   extends_write) ]. }
      rewrite E in Hs. simpl in Hs. destruct Hs as [l Hs]. destruct Hb as [more Hb].
      exists (more ++ l)%list. rewrite Hs, Hb. reflexivity. }
  destruct Hf as [more Hf]. exists more. simpl.
  unfold close_unless_closed. destruct (closed (out s2)); simpl; exact Hf.
Qed.

(** When the client has gone before the first write, nothing goes out. *)
Lemma stream_without_client e h :
  frames (out (fst (stream e h (fresh_session false)))) = [].
Proof. reflexivity. Qed.

(** C2: a request whose [X-MCP-Api-Key] header is absent, or differs
    from the configured secret, or that arrives when no secret is
    configured ([ENV['MCP_API_KEY']] not [present?]), is answered 401
    before anything else happens: the session is untouched (no handler
    created, nothing written, so no [connected] event).  A request whose
    header equals the configured secret passes, the action runs, and the
    first event on the stream is [connected]. *)
Theorem stream_requires_the_shared_secret
        (e : env) (req : request) (h : FastMcp.script) (connected : bool) :
  (x_mcp_api_key req = None \/ x_mcp_api_key req <> mcp_api_key e
   \/ Ruby.present (mcp_api_key e) = false ->
   process e req h connected
   = (render unauthorized_body unauthorized fresh_response,
      fresh_session connected, Returns tt)
   /\ status (fst (fst (process e req h connected))) = 401
   /\ handlers (snd (fst (process e req h connected))) = 0
   /\ forall f, In f (frames (out (snd (fst (process e req h connected))))) ->
                frame_event f <> Some "connected")
  /\
  (Ruby.present (mcp_api_key e) = true -> x_mcp_api_key req = mcp_api_key e ->
   status (fst (fst (process e req h connected))) = 200
   /\ performed (fst (fst (process e req h connected))) = false
   /\ (forall f, hd_error (frames (out (snd (fst (process e req h connected))))) = Some f ->
                 f = connected_frame e)
   /\ (connected = true ->
       exists more, frames (out (snd (fst (process e req h connected))))
                    = connected_frame e :: more)).
Proof.
  split.
  - intro Hbad. apply credential_rejected in Hbad.
    assert (Hp : process e req h connected
                 = (render unauthorized_body unauthorized fresh_response,
                    fresh_session connected, Returns tt)).
    { unfold process, authenticate_mcp_client. fold (credential_ok e req).
      rewrite Hbad. reflexivity. }
    rewrite Hp. simpl. repeat split; try reflexivity. intros f [].
  - intros Hp Heq. pose proof (credential_accepted e req Hp Heq) as Hok.
    assert (Hproc : process e req h connected
                    = (set_sse_headers fresh_response,
                       fst (stream e h (fresh_session connected)),
                       snd (stream e h (fresh_session connected)))).
    { unfold process, authenticate_mcp_client. fold (credential_ok e req).
      rewrite Hok. simpl. now destruct (stream e h (fresh_session connected)). }
    rewrite Hproc. simpl. repeat split.
    + destruct connected.
      * destruct (stream_starts_with_connected e h) as [more Hm].
        rewrite Hm. simpl. intros f Hf. now inversion Hf.
      * rewrite stream_without_client. discriminate.
    + intro Hc. subst connected. apply stream_starts_with_connected.
Qed.

Definition env0 : env :=
  {| rails_env := "development"; mcp_api_key := Some "s3cret";
     now_iso8601 := "2025-01-01T00:00:00Z" |}.

Definition sse_request (key : option string) : request :=
  {| req_verb := GET; req_path := ["mcp"; "sse"]; x_mcp_api_key := key;
     req_body := []; remote_ip := "127.0.0.1" |}.

Definition quiet : FastMcp.script :=
  {| FastMcp.actions := []; FastMcp.ending := Returns tt |}.

Lemma stream_requires_the_shared_secret_witness :
  status (fst (fst (process env0 (sse_request None) quiet true))) = 401
  /\ exists more,
       frames (out (snd (fst (process env0 (sse_request (Some "s3cret")) quiet true))))
       = connected_frame env0 :: more.
Proof.
  split.
  - apply (stream_requires_the_shared_secret env0 (sse_request None) quiet true).
    left. reflexivity.
  - apply (stream_requires_the_shared_secret env0 (sse_request (Some "s3cret")) quiet true);
      reflexivity.
Defined.

Lemma stream_rescued_same_closing e h s :
  close_free (FastMcp.actions h) = true ->
  same_closing s (fst (stream_rescued e h s)).
Proof.
  intro Hfree.
  apply (@respects_stream_rescued same_closing).
  - intro x. split; reflexivity.
  - intros a b c [H1 H2] [H3 H4]. split; congruence.
  - apply same_closing_write.
  - intro x. split; reflexivity.
  - intro x. split; reflexivity.
  - left. exact Hfree.
Qed.

(** ** Tool failures inside a session *)










(** ** Closing the stream *)

Lemma close_unless_closed_closed s : closed (out (close_unless_closed s)) = true.
Proof.
  unfold close_unless_closed. destruct (closed (out s)) eqn:Hc; [exact Hc|reflexivity].
Qed.

Lemma close_unless_closed_noop s :
  closed (out s) = true -> close_unless_closed s = s.
Proof. unfold close_unless_closed. now intros ->. Qed.

Lemma close_unless_closed_calls s :
  close_calls (out (close_unless_closed s))
  = close_calls (out s) + (if closed (out s) then 0 else 1).
Proof.
  unfold close_unless_closed. destruct (closed (out s)); simpl; lia.
Qed.

(** Whatever the handler does and however it ends, [stream] leaves the
    stream closed, and with a handler that does not close the stream
    itself the one [close] of the [ensure] clause is the only one. *)
Lemma stream_closes_once e h connected :
  close_free (FastMcp.actions h) = true ->
  closed (out (fst (stream e h (fresh_session connected)))) = true
  /\ close_calls (out (fst (stream e h (fresh_session connected)))) = 1.
Proof.
  intro Hfree. unfold stream, ensure.
  pose proof (@stream_rescued_same_closing e h (fresh_session connected) Hfree) as [Hc Hn].
  destruct (stream_rescued e h (fresh_session connected)) as [s2 r]. simpl in *.
  split; [apply close_unless_closed_closed|].
  rewrite close_unless_closed_calls, Hn, Hc. reflexivity.
Qed.

End StreamsFacts.

(* ===================================================================== *)
(** * Properties of the direct-execution interface *)
(* ===================================================================== *)

Module ToolsFacts.
Import Rails.

Definition tools_request (v : verb) (path : list string) (key : option string) : request :=
  {| req_verb := v; req_path := path; x_mcp_api_key := key;
     req_body := []; remote_ip := "127.0.0.1" |}.

Definition registry0 : FastMcp.registry :=
  {| FastMcp.tools :=
       [("refund_order",
         {| FastMcp.description := "Refund an order";
            FastMcp.schema_parameters := None;
            FastMcp.tool_class := "Tools::RefundOrder" |})];
     FastMcp.execute_tool := fun _ _ => Returns (JObj [("success", JBool true)]) |}.

(** C9 as stated fails: in development [GET /mcp/tools] without any
    credential is answered [200] with the tool list, because the
    credential check is registered [only: [:execute]]. *)
Lemma index_needs_no_credential_counterexample :
  exists r,
    Application.direct_execution StreamsFacts.env0 registry0
                                 (tools_request GET ["mcp"; "tools"] None)
    = Some (r, Returns tt)
    /\ status r = 200
    /\ status r <> unauthorized
    /\ json_field "count" (match body r with Some b => b | None => JNull end)
       = Some (JNum (inject_Z 1)).
Proof.
  eexists. split; [reflexivity|]. repeat split. discriminate.
Qed.

Lemma production_is_not_development e : production e = true -> development e = false.
Proof.
  unfold production, development. intro H. apply String.eqb_eq in H.
  rewrite H. reflexivity.
Qed.

(** C9, amended: outside the development environment (so in particular
    in production) neither endpoint exists: the routes are not drawn (404)
    and the controller itself answers 403 to whatever reaches it.  In
    development, [POST /mcp/tools/:tool_name] runs the same credential test
    as the streaming endpoint and answers 401 without executing anything
    when it fails, while [GET /mcp/tools] carries no credential check and
    lists the tools whatever the header. *)
Theorem direct_execution_is_gated
        (e : env) (reg : FastMcp.registry) (req : request) (tool_name : string) :
  (development e = false ->
   (req_path req = ["mcp"; "tools"] \/ req_path req = ["mcp"; "tools"; tool_name]) ->
   exists r, Application.direct_execution e reg req = Some (r, Returns tt)
             /\ status r = not_found)
  /\ (production e = true -> development e = false)
  /\ (development e = false ->
      forall a, exists r, ToolsController.process e reg req a = (r, Returns tt)
                          /\ status r = forbidden)
  /\ (development e = true ->
      req_verb req = POST -> req_path req = ["mcp"; "tools"; tool_name] ->
      StreamsFacts.credential_ok e req = false ->
      Application.direct_execution e reg req
      = Some (render StreamsFacts.unauthorized_body unauthorized fresh_response,
              Returns tt))
  /\ (development e = true ->
      req_verb req = GET -> req_path req = ["mcp"; "tools"] ->
      Application.direct_execution e reg req
      = Some (ToolsController.index reg fresh_response, Returns tt)
      /\ status (ToolsController.index reg fresh_response) = 200).
Proof.
  split; [|split; [|split; [|split]]].
  - intros Hdev Hpath. unfold Application.direct_execution, Routes.routes.
    destruct Hpath as [Hp|Hp]; rewrite Hp, Hdev; destruct (req_verb req);
      eexists; split; reflexivity.
  - apply production_is_not_development.
  - intros Hdev a. unfold ToolsController.process,
      ToolsController.ensure_development_environment.
    rewrite Hdev. simpl. eexists. split; reflexivity.
  - intros Hdev Hverb Hpath Hbad.
    unfold Application.direct_execution, Routes.routes.
    rewrite Hverb, Hpath, Hdev.
    unfold ToolsController.process, ToolsController.ensure_development_environment.
    rewrite Hdev. simpl.
    unfold ToolsController.authenticate_mcp_client.
    fold (StreamsFacts.credential_ok e req). rewrite Hbad. reflexivity.
  - intros Hdev Hverb Hpath. split; [|reflexivity].
    unfold Application.direct_execution, Routes.routes.
    rewrite Hverb, Hpath, Hdev.
    unfold ToolsController.process, ToolsController.ensure_development_environment.
    rewrite Hdev. reflexivity.
Qed.

Definition production0 : env :=
  {| rails_env := "production"; mcp_api_key := Some "s3cret";
     now_iso8601 := "2025-01-01T00:00:00Z" |}.

Lemma direct_execution_is_gated_witness :
  (exists r, Application.direct_execution production0 registry0
               (tools_request GET ["mcp"; "tools"] None) = Some (r, Returns tt)
             /\ status r = not_found)
  /\ Application.direct_execution StreamsFacts.env0 registry0
       (tools_request POST ["mcp"; "tools"; "refund_order"] (Some "guess"))
     = Some (render StreamsFacts.unauthorized_body unauthorized fresh_response,
             Returns tt)
  /\ Application.direct_execution StreamsFacts.env0 registry0
       (tools_request GET ["mcp"; "tools"] None)
     = Some (ToolsController.index registry0 fresh_response, Returns tt).
Proof.
  split; [|split].
  - apply (direct_execution_is_gated production0 registry0
             (tools_request GET ["mcp"; "tools"] None) "refund_order").
    + reflexivity.
    + left. reflexivity.
  - apply (direct_execution_is_gated StreamsFacts.env0 registry0
             (tools_request POST ["mcp"; "tools"; "refund_order"] (Some "guess"))
             "refund_order"); reflexivity.
  - apply (direct_execution_is_gated StreamsFacts.env0 registry0
             (tools_request GET ["mcp"; "tools"] None) "refund_order"); reflexivity.
Defined.

End ToolsFacts.

(* ===================================================================== *)
(** * Properties of the tool handlers *)
(* ===================================================================== *)

Module ToolFacts.
Import Tools.

(** A collaborator that raises nothing but [StandardError]s. *)
Definition standard {A} (r : Ruby.result A) : Prop :=
  forall x, r = Fails x -> Ruby.is_a x Ruby.StandardError = true.







Definition or_default {A} (d : A) (o : option A) : A :=
  match o with Some a => a | None => d end.


(** A clock and a Shopify stand-in to run the tools on. *)
Definition clock0 : clock :=
  {| current := inject_Z 1735689600;
     iso8601 := fun _ => "2025-01-01T00:00:00Z";
     parse := fun _ => Returns (inject_Z 1735689600 - inject_Z 10 * day)%Q;
     show_number := fun q => if Qeq_bool q (inject_Z 200) then "200" else "125.99" |}.




End ToolFacts.

(* ===================================================================== *)
(** * Properties of the connection manager *)
(* ===================================================================== *)

Module McpClientFacts.
Import McpClient.

(** The template on an error with a name and a message: [name: message]. *)
Lemma to_string_named (e : Js.error) :
  Js.name e <> EmptyString -> Js.message e <> EmptyString ->
  Js.to_string e = Js.name e ++ ": " ++ Js.message e.
Proof.
  intros Hn Hm. unfold Js.to_string.
  destruct (String.eqb_spec (Js.name e) EmptyString) as [E|_]; [contradiction|].
  destruct (String.eqb_spec (Js.message e) EmptyString) as [E|_]; [contradiction|].
  reflexivity.
Qed.

Lemma mem_In p l : mem p l = true <-> In p l.
Proof.
  unfold mem. rewrite existsb_exists. split.
  - intros [q [Hq Heq]]. apply Nat.eqb_eq in Heq. now subst.
  - intro H. exists p. split; [exact H | apply Nat.eqb_refl].
Qed.

Lemma mem_false p l : mem p l = false <-> ~ In p l.
Proof.
  rewrite <- mem_In. destruct (mem p l); split; intro H; congruence.
Qed.

(** ** The states the module can be in *)

(** Settled attempts have been started, a starter resumes only after its
    attempt has settled, [connectionPromise] names a started attempt, and
    while it is set without a client its starter has not resumed yet. *)
Definition consistent (s : state) : Prop :=
  (forall p, In p (settled s) -> p < started s)
  /\ (forall p, In p (resumed s) -> In p (settled s))
  /\ (forall p, connectionPromise s = Some p -> p < started s)
  /\ (forall p, connectionPromise s = Some p -> mcpClient s = None ->
                ~ In p (resumed s)).

Lemma consistent_initial : consistent initial.
Proof. repeat split; simpl; intros; try contradiction; discriminate. Qed.

Lemma consistent_call s : consistent s -> consistent (fst (call s)).
Proof.
  intro H. unfold call.
  destruct (mcpClient s) eqn:Hc; [exact H|].
  destruct (connectionPromise s) eqn:Hp; [exact H|].
  destruct H as (H1 & H2 & H3 & H4).
  repeat split; simpl.
  - intros p Hs. apply H1 in Hs. lia.
  - exact H2.
  - intros p Hq. inversion Hq. lia.
  - intros p Hq _ Hr. inversion Hq. subst.
    apply H2, H1 in Hr. lia.
Qed.

Lemma consistent_settle p s : consistent s -> consistent (settle p s).
Proof.
  intro H. unfold settle.
  destruct (Nat.ltb p (started s) && negb (mem p (settled s))) eqn:E; [|exact H].
  destruct H as (H1 & H2 & H3 & H4).
  apply andb_prop in E. destruct E as [Hlt _]. apply Nat.ltb_lt in Hlt.
  repeat split; simpl.
  - intros q [Hq|Hq]; [now subst | now apply H1].
  - intros q Hq. right. now apply H2.
  - exact H3.
  - exact H4.
Qed.

Lemma consistent_resume w p s : consistent s -> consistent (resume w p s).
Proof.
  intro H. unfold resume.
  destruct (mem p (settled s) && negb (mem p (resumed s))) eqn:E; [|exact H].
  destruct H as (H1 & H2 & H3 & H4).
  apply andb_prop in E. destruct E as [Hs _]. apply mem_In in Hs.
  destruct (initializeMcpClient w p); repeat split; simpl;
    try exact H1; try exact H3; try discriminate.
  - intros q [Hq|Hq]; [now subst | now apply H2].
  - intros q [Hq|Hq]; [now subst | now apply H2].
Qed.

Lemma consistent_getMcpClient w s :
  consistent s -> consistent (fst (getMcpClient w s)).
Proof.
  intro H. unfold getMcpClient.
  pose proof (consistent_call H) as Hc.
  destruct (call s) as [s1 [c|p|p]]; simpl in *;
    auto using consistent_resume, consistent_settle.
Qed.

Lemma consistent_closeMcpClient w s :
  consistent s -> consistent (fst (closeMcpClient w s)).
Proof.
  intro H. unfold closeMcpClient.
  destruct (mcpClient s) eqn:Hc; [|exact H].
  destruct H as (H1 & H2 & H3 & H4).
  destruct (close w c); repeat split; simpl; try assumption; try discriminate.
Qed.

(** Once connected, [getMcpClient] returns the stored client and changes
    nothing. *)
Lemma getMcpClient_connected w s c :
  mcpClient s = Some c -> getMcpClient w s = (s, Returns c).
Proof. intro H. unfold getMcpClient, call. now rewrite H. Qed.

(** A [getMcpClient] that returns leaves the client stored. *)
Lemma getMcpClient_returns w s s' c :
  consistent s -> getMcpClient w s = (s', Returns c) -> mcpClient s' = Some c.
Proof.
  intros (H1 & H2 & H3 & H4). unfold getMcpClient, call.
  destruct (mcpClient s) eqn:Hc.
  - intro E. inversion E. subst. exact Hc.
  - assert (Hgen : forall p s1,
               started s1 = started s \/ (started s1 = S (started s) /\ p = started s) ->
               settled s1 = settled s -> resumed s1 = resumed s ->
               p < started s1 -> ~ In p (resumed s) ->
               (resume w p (settle p s1), initializeMcpClient w p) = (s', Returns c) ->
               mcpClient s' = Some c).
    { intros p s1 Hst Hse Hre Hlt Hnr E. inversion E as [[Hs' Hi]].
      unfold resume.
      assert (Hin : In p (settled (settle p s1))).
      { unfold settle. destruct (mem p (settled s1)) eqn:Em.
        - rewrite andb_false_r. now apply mem_In.
        - apply Nat.ltb_lt in Hlt. rewrite Hlt. simpl. now left. }
      assert (Hres : resumed (settle p s1) = resumed s).
      { unfold settle. destruct (_ && _); simpl; exact Hre. }
      apply mem_In in Hin. rewrite Hin. rewrite Hres.
      apply mem_false in Hnr. rewrite Hnr. simpl. rewrite Hi. reflexivity. }
    destruct (connectionPromise s) as [p|] eqn:Hp.
    + apply Hgen; auto.
    + apply Hgen; simpl; auto.
      intro Hr. apply H2, H1 in Hr. lia.
Qed.

(** ** Single flight *)

Definition succeeds (w : sdk) (p : nat) : Prop := initializeMcpClient w p = Returns p.

Definition fails (w : sdk) (p : nat) : Prop := exists e, initializeMcpClient w p = Fails e.

Lemma succeeds_or_fails w p : succeeds w p \/ fails w p.
Proof.
  unfold succeeds, fails, initializeMcpClient, Js.throw.
  destruct (attempts w p); eauto.
Qed.

Lemma not_both w p : succeeds w p -> fails w p -> False.
Proof. unfold succeeds. intros H [e He]. congruence. Qed.

(** What holds along every run that only calls [getMcpClient]: every
    attempt other than the one [connectionPromise] names has failed and its
    starter has reset the marker; a stored client is the result of the
    attempt the marker names; the marker is only reset by a failed attempt. *)
Definition single_flight (w : sdk) (s : state) : Prop :=
  consistent s
  /\ (forall p, p < started s -> connectionPromise s <> Some p ->
                In p (resumed s) /\ fails w p)
  /\ (forall c, mcpClient s = Some c ->
                connectionPromise s = Some c /\ In c (resumed s) /\ succeeds w c)
  /\ (forall p, connectionPromise s = Some p -> In p (resumed s) -> mcpClient s = Some p).

Lemma single_flight_initial w : single_flight w initial.
Proof.
  split; [apply consistent_initial|].
  repeat split; intros; simpl in *; try lia; try discriminate; try contradiction.
Qed.

Lemma initializeMcpClient_returns w p c : initializeMcpClient w p = Returns c -> c = p.
Proof.
  unfold initializeMcpClient, Js.throw.
  destruct (attempts w p); intro X; inversion X; reflexivity.
Qed.

Lemma single_flight_step w s ev :
  single_flight w s -> single_flight w (fst (step w s ev)).
Proof.
  intros Hsf.
  destruct ev as [|p|p]; simpl.
  - pose proof Hsf as (Hc & J1 & J2 & J3).
    pose proof (consistent_call Hc) as Hc'.
    unfold call in *.
    destruct (mcpClient s) eqn:Hm; [exact Hsf|].
    destruct (connectionPromise s) eqn:Hp; [exact Hsf|].
    simpl in *. split; [exact Hc'|].
    split; [|split].
    + intros p Hlt Hne. simpl in Hlt, Hne.
      assert (p < started s) by (assert (p <> started s) by congruence; lia).
      apply J1; [assumption | discriminate].
    + discriminate.
    + intros p Hq Hr. inversion Hq. subst.
      destruct Hc as (H1 & H2 & _). apply H2, H1 in Hr. lia.
  - destruct Hsf as (Hc & J1 & J2 & J3).
    split; [now apply consistent_settle|].
    unfold settle. destruct (_ && _); simpl; exact (conj J1 (conj J2 J3)).
  - pose proof Hsf as (Hc & J1 & J2 & J3).
    split; [now apply consistent_resume|].
    unfold resume.
    destruct (mem p (settled s) && negb (mem p (resumed s))) eqn:E;
      [|exact (conj J1 (conj J2 J3))].
    apply andb_prop in E. destruct E as [Hs Hr].
    apply mem_In in Hs. apply negb_true_iff in Hr. apply mem_false in Hr.
    destruct Hc as (H1 & H2 & H3 & H4).
    assert (Hcur : connectionPromise s = Some p).
    { destruct (connectionPromise s) as [q|] eqn:Eq.
      - destruct (Nat.eq_dec q p) as [->|Hne]; [reflexivity|].
        exfalso. apply Hr. apply (J1 p); [now apply H1 | congruence].
      - exfalso. apply Hr. apply (J1 p); [now apply H1 | congruence]. }
    assert (Hnone : mcpClient s = None).
    { destruct (mcpClient s) as [c|] eqn:Hm; [|reflexivity].
      destruct (J2 c eq_refl) as (Hq & Hin & _).
      rewrite Hcur in Hq. inversion Hq. subst. contradiction. }
    destruct (initializeMcpClient w p) as [c|e] eqn:Hi.
    + pose proof (initializeMcpClient_returns _ _ Hi) as ->.
      split; [|split]; simpl.
      * intros q Hlt Hq. destruct (J1 q Hlt Hq) as [Hin Hf]. split; [now right|exact Hf].
      * intros c' Hc'. inversion Hc'. subst c'. repeat split; [exact Hcur | now left | exact Hi].
      * intros q Hq _. rewrite Hcur in Hq. inversion Hq. reflexivity.
    + split; [|split]; simpl.
      * intros q Hlt _.
        destruct (Nat.eq_dec q p) as [->|Hne].
        -- split; [now left | now exists e].
        -- destruct (J1 q Hlt) as [Hin Hf]; [rewrite Hcur; congruence|].
           split; [now right | exact Hf].
      * rewrite Hnone. discriminate.
      * discriminate.
Qed.

Lemma started_step w s ev : started s <= started (fst (step w s ev)).
Proof.
  destruct ev as [|p|p]; simpl.
  - unfold call. destruct (mcpClient s); [simpl; lia|].
    destruct (connectionPromise s); simpl; lia.
  - unfold settle. destruct (_ && _); simpl; lia.
  - unfold resume. destruct (_ && _); [|lia].
    destruct (initializeMcpClient w p); simpl; lia.
Qed.

(** Along a run: the state stays in [single_flight]; a call is handed an
    existing client only if that client's attempt succeeded, and starts a
    new attempt only when every earlier attempt has failed. *)
Lemma run_single_flight w evs : forall s,
  single_flight w s ->
  single_flight w (fst (run w s evs))
  /\ started s <= started (fst (run w s evs))
  /\ (forall c, In (Existing c) (snd (run w s evs)) ->
                c < started (fst (run w s evs)) /\ succeeds w c)
  /\ (forall p, In (Started p) (snd (run w s evs)) ->
                p < started (fst (run w s evs)) /\ forall q, q < p -> fails w q)
  /\ (forall p, In (Joined p) (snd (run w s evs)) ->
                p < started (fst (run w s evs))).
Proof.
  induction evs as [|ev rest IH]; intros s Hsf; simpl.
  - split; [exact Hsf|]. split; [lia|]. split; [|split]; intros ? [].
  - pose proof (@single_flight_step w s ev Hsf) as Hsf1.
    pose proof (started_step w s ev) as Hmono.
    destruct (step w s ev) as [s1 h] eqn:Estep. simpl in Hsf1, Hmono.
    specialize (IH s1 Hsf1).
    destruct (run w s1 rest) as [s2 hs]. simpl in IH.
    destruct IH as (IH1 & IH2 & IH3 & IH4 & IH5). simpl.
    split; [exact IH1|]. split; [lia|].
    assert (Hhandle : forall x, h = Some x ->
               match x with
               | Existing c => c < started s1 /\ succeeds w c
               | Started p => p < started s1 /\ forall q, q < p -> fails w q
               | Joined p => p < started s1
               end).
    { intros x Hx. subst h. destruct ev as [|p|p]; simpl in Estep; try discriminate.
      destruct Hsf as (Hc & J1 & J2 & J3).
      revert Estep. unfold call.
      destruct (mcpClient s) as [c|] eqn:Hm.
      - intro E. inversion E. subst.
        destruct (J2 c eq_refl) as (Hq & _ & Hs).
        split; [|exact Hs]. destruct Hc as (_ & _ & H3 & _). now apply H3.
      - destruct (connectionPromise s) as [p|] eqn:Hp.
        + intro E. inversion E. subst.
          destruct Hc as (_ & _ & H3 & _). now apply H3.
        + intro E. inversion E. subst. simpl. split; [lia|].
          intros q Hq. apply (J1 q Hq). discriminate. }
    destruct h as [x|]; [|exact (conj IH3 (conj IH4 IH5))].
    specialize (Hhandle x eq_refl).
    split; [|split].
    + intros c [Hc|Hc]; [|now apply IH3]. subst x.
      destruct Hhandle as [Hlt Hs]. split; [lia|exact Hs].
    + intros p [Hp|Hp]; [|now apply IH4]. subst x.
      destruct Hhandle as [Hlt Hs]. split; [lia|exact Hs].
    + intros p [Hp|Hp]; [|now apply IH5]. subst x. lia.
Qed.

(** X28: the single-flight discipline of [getMcpClient], for every
    interleaving of calls, settlements and continuations: at most one attempt is in
    flight at any time, at most one attempt ever succeeds, every caller that
    is handed a client is handed that one, and a new attempt is started only
    after all earlier ones have failed. *)
Lemma getMcpClient_single_flight w evs :
  let s := fst (run w initial evs) in
  let handed := snd (run w initial evs) in
  (forall p q, p < started s -> q < started s ->
               ~ In p (settled s) -> ~ In q (settled s) -> p = q)
  /\ (forall p q, p < started s -> q < started s ->
                  succeeds w p -> succeeds w q -> p = q)
  /\ (forall c c', In (Existing c) handed -> In (Existing c') handed -> c = c')
  /\ (forall p, In (Started p) handed -> forall q, q < p -> fails w q).
Proof.
  destruct (@run_single_flight w evs initial (single_flight_initial w))
    as (Hsf & _ & Hex & Hst & _).
  simpl. destruct Hsf as (Hc & J1 & J2 & J3).
  destruct Hc as (H1 & H2 & H3 & H4).
  assert (Hcur : forall p, p < started (fst (run w initial evs)) ->
                           (~ In p (settled (fst (run w initial evs))) \/ succeeds w p) ->
                           connectionPromise (fst (run w initial evs)) = Some p).
  { intros p Hlt Hp.
    destruct (connectionPromise (fst (run w initial evs))) as [q|] eqn:Eq.
    - destruct (Nat.eq_dec q p) as [->|Hne]; [reflexivity|].
      destruct (J1 p Hlt) as [Hin Hf]; [congruence|].
      destruct Hp as [Hp|Hp]; [elim Hp; now apply H2 | elim (not_both Hp Hf)].
    - destruct (J1 p Hlt) as [Hin Hf]; [congruence|].
      destruct Hp as [Hp|Hp]; [elim Hp; now apply H2 | elim (not_both Hp Hf)]. }
  repeat split.
  - intros p q Hp Hq Hnp Hnq.
    pose proof (Hcur p Hp (or_introl Hnp)) as E1.
    pose proof (Hcur q Hq (or_introl Hnq)) as E2. congruence.
  - intros p q Hp Hq Hsp Hsq.
    pose proof (Hcur p Hp (or_intror Hsp)) as E1.
    pose proof (Hcur q Hq (or_intror Hsq)) as E2. congruence.
  - intros c c' Hc Hc'.
    destruct (Hex c Hc) as [Hlt Hs]. destruct (Hex c' Hc') as [Hlt' Hs'].
    pose proof (Hcur c Hlt (or_intror Hs)) as E1.
    pose proof (Hcur c' Hlt' (or_intror Hs')) as E2. congruence.
  - intros p Hp. now apply Hst.
Qed.

(** ** A connection left behind *)

Definition tools_list_unavailable : Js.error := Js.new_Error "Request timed out".

(** The server accepts the first connection but fails its [tools/list];
    the second attempt goes through. *)
Definition flaky : sdk :=
  {| attempts := fun p => match p with
                          | 0 => ListToolsFails tools_list_unavailable
                          | _ => Connects []
                          end;
     listTools := fun _ => Returns [];
     close := fun _ => Returns tt |}.

(** Two requests, one after the other. *)
Definition two_requests : list event :=
  [Call; Settle 0; Resume 0; Call; Settle 1; Resume 1].

(** C7 at the failing input: after the two calls two transports have
    connected.  The first call was rejected although its transport was up
    (the failure came from the [listTools] inside the [try]); that
    connection was never closed, and the retry opened a second one, whose
    client is the one stored. *)
Theorem second_connection_after_failed_listing :
  let s := fst (run flaky initial two_requests) in
  snd (run flaky initial two_requests) = [Started 0; Started 1]
  /\ initializeMcpClient flaky 0
     = Js.throw "Failed to connect to MCP server: Error: Request timed out"
  /\ transport_connected (attempts flaky 0) = true
  /\ connections_established flaky s = [1; 0]
  /\ List.length (connections_established flaky s) = 2
  /\ mcpClient s = Some 1
  /\ closed s = [].
Proof. repeat split. Qed.

End McpClientFacts.

(* ===================================================================== *)
(** * Closing, on both sides *)
(* ===================================================================== *)

Module CloseFacts.
Import Rails StreamsController StreamsFacts.

Definition timeout_error : Ruby.exn :=
  {| Ruby.class := Ruby.TimeoutError; Ruby.message := "execution expired";
     Ruby.backtrace := [] |}.

(** A session in which the handler serves one call, loses the client and
    runs into the idle timeout. *)
Definition timed_out : FastMcp.script :=
  {| FastMcp.actions :=
       [FastMcp.ToolCall "aggregate_customer_context" (JObj []) (Returns (JStr "ok"));
        FastMcp.ClientLeaves];
     FastMcp.ending := Fails timeout_error |}.

(** C8: on the server the terminal action of [stream],
    [response.stream.close unless response.stream.closed?], leaves the stream
    closed, cannot raise, does nothing on a stream that is already closed
    (so running it again changes nothing), and runs on every path out of the
    action; with a handler that does not close the stream itself it is the
    one and only [close] of the session, however the handler ended.  On the
    client a [McpClient.closeMcpClient] that follows one that closed the connection
    finds no client and does nothing: no [close()] call, no change of state. *)
Theorem close_is_idempotent :
  (forall s, closed (out (close_unless_closed s)) = true
             /\ close_unless_closed (close_unless_closed s) = close_unless_closed s
             /\ close_calls (out (close_unless_closed s)) <= S (close_calls (out s)))
  /\ (forall s, closed (out s) = true -> close_unless_closed s = s)
  /\ (forall e h s,
         stream e h s = (close_unless_closed (fst (stream_rescued e h s)),
                         snd (stream_rescued e h s))
         /\ closed (out (fst (stream e h s))) = true)
  /\ (forall e h connected,
         close_free (FastMcp.actions h) = true ->
         close_calls (out (fst (stream e h (fresh_session connected)))) = 1)
  /\ (forall w s s1,
         McpClient.closeMcpClient w s = (s1, Returns tt) ->
         McpClient.mcpClient s1 = None
         /\ McpClient.closeMcpClient w s1 = (s1, Returns tt)).
Proof.
  split; [|split; [|split; [|split]]].
  - intro s. split; [apply close_unless_closed_closed|]. split.
    + apply close_unless_closed_noop, close_unless_closed_closed.
    + rewrite close_unless_closed_calls. destruct (closed (out s)); lia.
  - apply close_unless_closed_noop.
  - intros e h s. unfold stream, ensure.
    destruct (stream_rescued e h s) as [s1 r]. simpl.
    split; [reflexivity | apply close_unless_closed_closed].
  - intros e h connected Hfree. now apply stream_closes_once.
  - intros w s s1. unfold McpClient.closeMcpClient.
    destruct (McpClient.mcpClient s) as [c|] eqn:Hc.
    + destruct (McpClient.close w c); intro H; inversion H; subst; simpl. now split.
    + intro H. inversion H. subst. rewrite Hc. now split.
Qed.

Definition connected_client : McpClient.state :=
  fst (McpClient.getMcpClient McpClientFacts.flaky
         (fst (McpClient.getMcpClient McpClientFacts.flaky McpClient.initial))).

Lemma close_is_idempotent_witness :
  close_calls (out (fst (stream env0 timed_out (fresh_session true)))) = 1
  /\ McpClient.closeMcpClient McpClientFacts.flaky
       (fst (McpClient.closeMcpClient McpClientFacts.flaky connected_client))
     = (fst (McpClient.closeMcpClient McpClientFacts.flaky connected_client), Returns tt).
Proof.
  destruct close_is_idempotent as (_ & _ & _ & Hserver & Hclient).
  split.
  - apply Hserver. reflexivity.
  - apply (Hclient McpClientFacts.flaky connected_client). reflexivity.
Defined.

End CloseFacts.

(* ===================================================================== *)
(** * Properties of the agentic loop *)
(* ===================================================================== *)

Unset Implicit Arguments.

Module GeminiFacts.
Import McpClient GeminiClient.

(** ** One batch of tool calls *)

(** The completion with which call [i] of the batch settles: the first one
    the world delivers for that position. *)
Definition first_completion (i : nat) (cs : list completion) : option completion :=
  find (fun c => Nat.eqb (index c) i) cs.

(** Every one of the [n] dispatched calls settles at some point. *)
Definition every_call_settles (n : nat) (cs : list completion) : Prop :=
  forall i, i < n -> In i (map index cs).

(** The function responses in request order: for the call at position
    [i + j] the part built from that call and its completion. *)
Fixpoint in_request_order (i : nat) (calls : list FunctionCall) (cs : list completion)
  : list Part :=
  match calls with
  | [] => []
  | fc :: rest =>
      match first_completion i cs with
      | Some c => snd (finish_call fc c) :: in_request_order (S i) rest cs
      | None => in_request_order (S i) rest cs
      end
  end.

Definition is_empty (slot : option Part) : bool :=
  match slot with None => true | Some _ => false end.

Definition empty_slots (slots : list (option Part)) : nat :=
  List.length (filter is_empty slots).

(** What position [i] of the fulfilled array holds, given the slots
    already filled and the completions still to come. *)
Definition expected (calls : list FunctionCall) (cs : list completion)
           (slots : list (option Part)) (i : nat) : option Part :=
  match nth_error slots i with
  | Some (Some p) => Some p
  | Some None =>
      match nth_error calls i, first_completion i cs with
      | Some fc, Some c => Some (snd (finish_call fc c))
      | _, _ => None
      end
  | None => None
  end.

Lemma first_completion_In i cs : In i (map index cs) -> first_completion i cs <> None.
Proof.
  unfold first_completion. induction cs as [|c rest IH]; simpl; [intros []|].
  intros [H|H].
  - subst. now rewrite Nat.eqb_refl.
  - destruct (Nat.eqb (index c) i); [discriminate | now apply IH].
Qed.

Lemma first_completion_cons_other i c rest :
  index c <> i -> first_completion i (c :: rest) = first_completion i rest.
Proof.
  intro H. unfold first_completion. simpl.
  apply Nat.eqb_neq in H. now rewrite H.
Qed.

Lemma first_completion_cons_same c rest : first_completion (index c) (c :: rest) = Some c.
Proof. unfold first_completion. simpl. now rewrite Nat.eqb_refl. Qed.

Lemma all_filled_Some slots values :
  all_filled slots = Some values ->
  (forall i, nth_error values i
             = match nth_error slots i with Some (Some p) => Some p | _ => None end)
  /\ empty_slots slots = 0.
Proof.
  revert values. induction slots as [|[p|] rest IH]; simpl; intros values H.
  - inversion H. split; [|reflexivity]. intro i. now destruct i.
  - destruct (all_filled rest) as [ps|] eqn:E; [|discriminate].
    inversion H. subst. destruct (IH ps eq_refl) as [IH1 IH2].
    split; [|exact IH2]. intros [|i]; simpl; [reflexivity | apply IH1].
  - discriminate.
Qed.

Lemma all_filled_None slots :
  all_filled slots = None -> exists i, nth_error slots i = Some None.
Proof.
  induction slots as [|[p|] rest IH]; simpl; intro H.
  - discriminate.
  - destruct (all_filled rest) eqn:E; [discriminate|].
    destruct (IH eq_refl) as [i Hi]. now exists (S i).
  - now exists 0.
Qed.

Lemma fill_length slots i p : List.length (fill slots i p) = List.length slots.
Proof.
  revert i. induction slots as [|x rest IH]; intros [|i]; simpl; auto.
Qed.

Lemma fill_same slots i p :
  i < List.length slots -> nth_error (fill slots i p) i = Some (Some p).
Proof.
  revert i. induction slots as [|x rest IH]; intros [|i]; simpl; intro H;
    try lia; [reflexivity | apply IH; lia].
Qed.

Lemma fill_other slots i j p :
  i <> j -> nth_error (fill slots i p) j = nth_error slots j.
Proof.
  revert i j. induction slots as [|x rest IH]; intros [|i] [|j] H; simpl;
    try reflexivity; try congruence. apply IH. congruence.
Qed.

Lemma fill_empty_slots slots i p :
  nth_error slots i = Some None ->
  S (empty_slots (fill slots i p)) = empty_slots slots.
Proof.
  unfold empty_slots. revert i. induction slots as [|x rest IH]; intros [|i]; simpl;
    intro H; try discriminate.
  - inversion H. reflexivity.
  - destruct x; simpl; rewrite <- (IH i H); reflexivity.
Qed.

Lemma fan_in_filled calls cs slots records values :
  all_filled slots = Some values ->
  fan_in calls cs slots records = (records, Some values).
Proof. intro H. destruct cs; simpl; now rewrite H. Qed.

Lemma fan_in_cons calls c rest slots records :
  all_filled slots = None ->
  fan_in calls (c :: rest) slots records
  = match nth_error calls (index c), nth_error slots (index c) with
    | Some fc, Some None =>
        let (record, part) := finish_call fc c in
        fan_in calls rest (fill slots (index c) part) (records ++ [record])%list
    | _, _ => fan_in calls rest slots records
    end.
Proof. intro H. simpl. now rewrite H. Qed.

Lemma fan_in_spec calls : forall cs slots records,
  List.length slots = List.length calls ->
  (forall i, nth_error slots i = Some None -> In i (map index cs)) ->
  exists new values,
    fan_in calls cs slots records = ((records ++ new)%list, Some values)
    /\ (forall i, nth_error values i = expected calls cs slots i)
    /\ List.length new = empty_slots slots
    /\ (forall i fc c, nth_error slots i = Some None -> nth_error calls i = Some fc ->
                       first_completion i cs = Some c ->
                       In (fst (finish_call fc c)) new).
Proof.
  induction cs as [|c rest IH]; intros slots records Hlen Hcover.
  - destruct (all_filled slots) as [values|] eqn:E.
    + destruct (all_filled_Some _ _ E) as [Hv He].
      exists [], values. rewrite app_nil_r. split; [|split; [|split]].
      * simpl. now rewrite E.
      * intro i. unfold expected. rewrite Hv.
        destruct (nth_error slots i) as [[p|]|] eqn:Ei; try reflexivity.
        elim (Hcover i Ei).
      * now rewrite He.
      * intros i fc c Hi. elim (Hcover i Hi).
    + destruct (all_filled_None _ E) as [i Hi]. elim (Hcover i Hi).
  - destruct (all_filled slots) as [values|] eqn:E.
    + destruct (all_filled_Some _ _ E) as [Hv He].
      exists [], values. rewrite app_nil_r. split; [|split; [|split]].
      * now apply fan_in_filled.
      * intro i. unfold expected. rewrite Hv.
        destruct (nth_error slots i) as [[p|]|] eqn:Ei; try reflexivity.
        specialize (Hv i). rewrite Ei in Hv.
        exfalso. clear - E Ei. revert i Ei values E.
        induction slots as [|[q|] more IHs]; intros [|i] Ei values E; simpl in *;
          try discriminate.
        destruct (all_filled more) eqn:E'; [|discriminate]. eapply IHs; eauto.
      * now rewrite He.
      * intros i fc c' Hi. exfalso. clear - E Hi. revert i Hi values E.
        induction slots as [|[q|] more IHs]; intros [|i] Ei values E; simpl in *;
          try discriminate.
        destruct (all_filled more) eqn:E'; [|discriminate]. eapply IHs; eauto.
    + rewrite (fan_in_cons calls c rest slots records E).
      destruct (nth_error calls (index c)) as [fc|] eqn:Ec;
        [destruct (nth_error slots (index c)) as [[q|]|] eqn:Es|].
      * (* already settled *)
        destruct (IH slots records Hlen) as (new & values & Hf & Hv & Hn & Hr).
        { intros i Hi. destruct (Hcover i Hi) as [H|H]; [|exact H].
          congruence. }
        exists new, values. split; [exact Hf|]. split; [|split; [exact Hn|]].
        -- intro i. rewrite Hv. unfold expected.
           destruct (nth_error slots i) as [[p|]|] eqn:Ei; try reflexivity.
           rewrite first_completion_cons_other; [reflexivity | congruence].
        -- intros i fc' c' Hi Hfc Hfirst. apply (Hr i fc' c' Hi Hfc).
           rewrite first_completion_cons_other in Hfirst; [exact Hfirst | congruence].
      * (* this call settles now *)
        destruct (finish_call fc c) as [record part] eqn:Efin.
        destruct (IH (fill slots (index c) part) (records ++ [record])%list)
          as (new & values & Hf & Hv & Hn & Hr).
        { now rewrite fill_length. }
        { intros i Hi. destruct (Nat.eq_dec (index c) i) as [Heq|Hne].
          - subst i. rewrite fill_same in Hi; [discriminate|].
            apply nth_error_Some. congruence.
          - rewrite fill_other in Hi by exact Hne.
            destruct (Hcover i Hi) as [H|H]; [contradiction | exact H]. }
        exists (record :: new), values. split; [|split; [|split]].
        -- rewrite Hf. f_equal. now rewrite <- app_assoc.
        -- intro i. rewrite Hv. unfold expected.
           destruct (Nat.eq_dec (index c) i) as [Heq|Hne].
           ++ subst i. rewrite fill_same by (apply nth_error_Some; congruence).
              rewrite Es, Ec, first_completion_cons_same, Efin. reflexivity.
           ++ rewrite fill_other by exact Hne.
              destruct (nth_error slots i) as [[p|]|]; try reflexivity.
              now rewrite first_completion_cons_other.
        -- simpl. rewrite Hn. now apply fill_empty_slots.
        -- intros i fc' c' Hi Hfc Hfirst.
           destruct (Nat.eq_dec (index c) i) as [Heq|Hne].
           ++ subst i. rewrite first_completion_cons_same in Hfirst.
              inversion Hfirst. subst c'. rewrite Ec in Hfc. inversion Hfc. subst fc'.
              rewrite Efin. now left.
           ++ right. apply (Hr i fc' c'); [|exact Hfc|].
              ** now rewrite fill_other.
              ** now rewrite first_completion_cons_other in Hfirst.
      * (* no such slot *)
        exfalso. apply nth_error_None in Es.
        assert (index c < List.length calls) by (apply nth_error_Some; congruence).
        lia.
      * (* no such call *)
        destruct (IH slots records Hlen) as (new & values & Hf & Hv & Hn & Hr).
        { intros i Hi. destruct (Hcover i Hi) as [H|H]; [|exact H].
          subst i. apply nth_error_None in Ec.
          assert (index c < List.length slots) by (apply nth_error_Some; congruence).
          lia. }
        assert (Hother : forall i, nth_error slots i = Some None -> index c <> i).
        { intros i Hi Heq. subst i. apply nth_error_None in Ec.
          assert (index c < List.length slots) by (apply nth_error_Some; congruence).
          lia. }
        exists new, values. split; [exact Hf|]. split; [|split; [exact Hn|]].
        -- intro i. rewrite Hv. unfold expected.
           destruct (nth_error slots i) as [[p|]|] eqn:Ei; try reflexivity.
           rewrite first_completion_cons_other; [reflexivity | now apply Hother].
        -- intros i fc' c' Hi Hfc Hfirst. apply (Hr i fc' c' Hi Hfc).
           rewrite first_completion_cons_other in Hfirst; [exact Hfirst | now apply Hother].
Qed.


Lemma in_request_order_nth calls : forall k cs j,
  (forall i, i < List.length calls -> first_completion (k + i) cs <> None) ->
  nth_error (in_request_order k calls cs) j
  = match nth_error calls j, first_completion (k + j) cs with
    | Some fc, Some c => Some (snd (finish_call fc c))
    | _, _ => None
    end.
Proof.
  induction calls as [|fc rest IH]; intros k cs j Hall; simpl.
  - now destruct j.
  - pose proof (Hall 0 (Nat.lt_0_succ _)) as H0. rewrite Nat.add_0_r in H0.
    destruct (first_completion k cs) as [c|] eqn:E; [|congruence].
    destruct j as [|j]; simpl.
    + now rewrite Nat.add_0_r, E.
    + rewrite IH.
      * now rewrite Nat.add_succ_r.
      * intros i Hi. rewrite Nat.add_succ_l, <- Nat.add_succ_r. apply Hall. simpl. lia.
Qed.

Lemma nth_error_unsettled calls i :
  nth_error (map (fun _ : FunctionCall => @None Part) calls) i
  = match nth_error calls i with Some _ => Some None | None => None end.
Proof.
  revert i. induction calls as [|fc rest IH]; intros [|i]; simpl; auto.
Qed.

Lemma empty_slots_unsettled calls :
  empty_slots (map (fun _ : FunctionCall => @None Part) calls) = List.length calls.
Proof.
  unfold empty_slots. induction calls as [|fc rest IH]; simpl; auto.
Qed.

(** When every call of the batch settles, [Promise.all] fulfils with the
    responses in request order, and each call has pushed its record. *)
Lemma fan_in_all calls cs records :
  every_call_settles (List.length calls) cs ->
  exists new,
    fan_in calls cs (map (fun _ => None) calls) records
    = ((records ++ new)%list, Some (in_request_order 0 calls cs))
    /\ List.length new = List.length calls
    /\ (forall i fc c, nth_error calls i = Some fc -> first_completion i cs = Some c ->
                       In (fst (finish_call fc c)) new).
Proof.
  intro Hall.
  destruct (fan_in_spec calls cs (map (fun _ => None) calls) records)
    as (new & values & Hf & Hv & Hn & Hr).
  - now rewrite length_map.
  - intros i Hi. apply Hall. rewrite nth_error_unsettled in Hi.
    apply nth_error_Some. destruct (nth_error calls i); congruence.
  - exists new. split; [|split].
    + rewrite Hf. do 2 f_equal. apply nth_error_ext. intro i.
      rewrite Hv, in_request_order_nth.
      * unfold expected. rewrite nth_error_unsettled.
        destruct (nth_error calls i); reflexivity.
      * intros j Hj. apply first_completion_In, Hall, Hj.
    + now rewrite Hn, empty_slots_unsettled.
    + intros i fc c Hfc Hfirst. apply (Hr i fc c); [|exact Hfc|exact Hfirst].
      now rewrite nth_error_unsettled, Hfc.
Qed.

Lemma all_filled_unsettled slots i :
  nth_error slots i = Some None -> all_filled slots = None.
Proof.
  revert i. induction slots as [|[p|] rest IH]; intros [|i] H; simpl in *;
    try discriminate; try reflexivity.
  now rewrite (IH i H).
Qed.

(** While a call of the batch has not settled, the [Promise.all] stays
    pending. *)
Lemma fan_in_pending calls : forall cs slots records i,
  nth_error slots i = Some None -> ~ In i (map index cs) ->
  snd (fan_in calls cs slots records) = None.
Proof.
  induction cs as [|c rest IH]; intros slots records i Hi Hnot.
  - simpl. now rewrite (all_filled_unsettled slots i Hi).
  - rewrite fan_in_cons by exact (all_filled_unsettled slots i Hi).
    assert (Hne : index c <> i) by (intro; apply Hnot; now left).
    assert (Hrest : ~ In i (map index rest)) by (intro; apply Hnot; now right).
    destruct (nth_error calls (index c)) as [fc|];
      [destruct (nth_error slots (index c)) as [[q|]|]|];
      try (apply (IH slots records i Hi Hrest)).
    destruct (finish_call fc c) as [record part].
    apply (IH _ _ i); [|exact Hrest]. now rewrite fill_other.
Qed.

(** With one completion per call, the call a completion belongs to is
    found whatever the order of the completions. *)
Lemma first_completion_unique cs i c :
  NoDup (map index cs) ->
  (first_completion i cs = Some c <-> In c cs /\ index c = i).
Proof.
  unfold first_completion. induction cs as [|d rest IH]; simpl; intro Hnd.
  - split; [discriminate | intros [[] _]].
  - inversion Hnd as [|? ? Hnotin Hnd']. subst.
    destruct (Nat.eqb (index d) i) eqn:E.
    + apply Nat.eqb_eq in E. split.
      * intro H. inversion H. subst. auto.
      * intros [[H|H] Hi]; [now subst|].
        exfalso. apply Hnotin. rewrite E, <- Hi. now apply in_map.
    + apply Nat.eqb_neq in E. rewrite (IH Hnd'). split.
      * intros [H Hi]. auto.
      * intros [[H|H] Hi]; [subst; contradiction | auto].
Qed.

Lemma first_completion_none cs i :
  first_completion i cs = None <-> ~ In i (map index cs).
Proof.
  unfold first_completion. induction cs as [|d rest IH]; simpl.
  - split; [intros _ [] | reflexivity].
  - destruct (Nat.eqb (index d) i) eqn:E.
    + apply Nat.eqb_eq in E. split; [discriminate | intro H; elim H; now left].
    + apply Nat.eqb_neq in E. rewrite IH. split.
      * intros H [H'|H']; [contradiction | now apply H].
      * intros H H'. apply H. now right.
Qed.

Lemma first_completion_permutation cs cs' i :
  NoDup (map index cs) -> Permutation cs cs' ->
  first_completion i cs = first_completion i cs'.
Proof.
  intros Hnd Hperm.
  assert (Hnd' : NoDup (map index cs')).
  { eapply Permutation_NoDup; [|exact Hnd]. now apply Permutation_map. }
  destruct (first_completion i cs) as [c|] eqn:E.
  - symmetry. apply first_completion_unique; [exact Hnd'|].
    apply first_completion_unique in E; [|exact Hnd]. destruct E as [Hin Hi].
    split; [|exact Hi]. eapply Permutation_in; eauto.
  - symmetry. apply first_completion_none. apply first_completion_none in E.
    intro H. apply E. eapply Permutation_in; [|exact H].
    apply Permutation_map. now apply Permutation_sym.
Qed.

Lemma in_request_order_permutation calls cs cs' : forall k,
  NoDup (map index cs) -> Permutation cs cs' ->
  in_request_order k calls cs = in_request_order k calls cs'.
Proof.
  induction calls as [|fc rest IH]; intros k Hnd Hperm; simpl; [reflexivity|].
  rewrite (first_completion_permutation cs cs' k Hnd Hperm).
  destruct (first_completion k cs'); now rewrite (IH (S k) Hnd Hperm).
Qed.

(** ** Starting the calls of a batch *)

(** The calls the parts of a batch carry, in order. *)
Definition calls_of (ps : list Part) : list FunctionCall :=
  flat_map (fun p => match functionCall p with Some fc => [fc] | None => [] end) ps.

Lemma calls_of_filter_length parts :
  List.length (calls_of (filter has_functionCall parts))
  = List.length (filter has_functionCall parts).
Proof.
  induction parts as [|p rest IH]; simpl; [reflexivity|].
  destruct (has_functionCall p) eqn:H; [|exact IH].
  unfold has_functionCall in H. simpl.
  destruct (functionCall p); [|discriminate]. simpl. now rewrite IH.
Qed.

(** With the client stored, every callback of the batch gets past its
    [await getMcpClient()] and the module state stays as it is. *)
Lemma start_calls_connected w conn c parts :
  mcpClient conn = Some c ->
  start_calls w conn (filter has_functionCall parts)
  = (conn, Returns (calls_of (filter has_functionCall parts))).
Proof.
  intro Hc. induction parts as [|p rest IH]; simpl; [reflexivity|].
  destruct (has_functionCall p) eqn:H; [|exact IH].
  unfold has_functionCall in H. simpl. unfold start_call.
  destruct (functionCall p) as [fc|]; [|discriminate].
  rewrite (@McpClientFacts.getMcpClient_connected (mcp w) conn c Hc).
  rewrite IH. reflexivity.
Qed.

(** The batch of an iteration, end to end. *)
Lemma execute_tools_connected w k conn c parts records :
  mcpClient conn = Some c ->
  let calls := calls_of (filter has_functionCall parts) in
  every_call_settles (List.length calls) (completions w k calls) ->
  exists new,
    execute_tools w k conn (filter has_functionCall parts) records
    = (conn, (records ++ new)%list,
       Fulfilled (in_request_order 0 calls (completions w k calls)))
    /\ List.length new = List.length calls
    /\ (forall i fc comp, nth_error calls i = Some fc ->
                          first_completion i (completions w k calls) = Some comp ->
                          In (fst (finish_call fc comp)) new).
Proof.
  intros Hc calls Hall. unfold execute_tools.
  rewrite (start_calls_connected w conn c parts Hc). fold calls.
  destruct (fan_in_all calls (completions w k calls) records Hall)
    as (new & Hf & Hn & Hr).
  exists new. rewrite Hf. auto.
Qed.


(** ** One pass through the loop body *)

Lemma track_usage_fields response st :
  toolCallRecords (track_usage response st) = toolCallRecords st
  /\ iteration_count (track_usage response st) = iteration_count st
  /\ currentMessage (track_usage response st) = currentMessage st
  /\ sent (track_usage response st) = sent st
  /\ connection (track_usage response st) = connection st.
Proof. unfold track_usage. destruct (usageMetadata response); repeat split. Qed.

(** The ways a pass can go, with what each leaves behind. *)
Inductive pass_view (w : world) (params : ModelParams) (history : list Content)
          (st : LoopState) : LoopState * pass -> Prop :=
| model_throws e :
    sendMessage w params history (sent (begin_pass st)) = Fails e ->
    pass_view w params history st (begin_pass st, Throw e)
| no_candidate response :
    sendMessage w params history (sent (begin_pass st)) = Returns response ->
    first_candidate response = None ->
    pass_view w params history st
              (track_usage response (begin_pass st),
               Return (respond no_candidate_message (track_usage response (begin_pass st))))
| final_answer response candidate :
    sendMessage w params history (sent (begin_pass st)) = Returns response ->
    first_candidate response = Some candidate ->
    function_calls_of candidate = [] ->
    pass_view w params history st
              (track_usage response (begin_pass st),
               Return (respond (final_text candidate) (track_usage response (begin_pass st))))
| tools_requested response candidate conn' records' settled :
    sendMessage w params history (sent (begin_pass st)) = Returns response ->
    first_candidate response = Some candidate ->
    function_calls_of candidate <> [] ->
    execute_tools w (iteration_count st + 1) (connection st)
                  (function_calls_of candidate) (toolCallRecords st)
    = (conn', records', settled) ->
    pass_view w params history st
              (match settled with
               | Fulfilled functionResponses =>
                   (after_tools (track_usage response (begin_pass st)) conn' records'
                                (Parts functionResponses), Continue)
               | Rejected e =>
                   (after_tools (track_usage response (begin_pass st)) conn' records'
                                (currentMessage st), Throw e)
               | Pending =>
                   (after_tools (track_usage response (begin_pass st)) conn' records'
                                (currentMessage st), Hang)
               end).

Lemma loop_body_view w params history st :
  pass_view w params history st (loop_body w params history st).
Proof.
  unfold loop_body.
  destruct (sendMessage w params history (sent (begin_pass st))) as [response|e] eqn:Es;
    [|now apply model_throws].
  destruct (first_candidate response) as [candidate|] eqn:Ec;
    [|now apply no_candidate].
  destruct (Nat.eqb (List.length (function_calls_of candidate)) 0) eqn:En.
  - apply Nat.eqb_eq, length_zero_iff_nil in En. now apply final_answer.
  - apply Nat.eqb_neq in En.
    destruct (track_usage_fields response (begin_pass st)) as (Hr & Hi & Hm & _ & Hc).
    rewrite Hr, Hi, Hc, Hm. simpl.
    destruct (execute_tools w (iteration_count st + 1) (connection st)
                            (function_calls_of candidate) (toolCallRecords st))
      as [[conn' records'] settled] eqn:Ex.
    assert (Hne : function_calls_of candidate <> [])
      by (intro Hnil; apply En; now rewrite Hnil).
    pose proof (tools_requested w params history st response candidate
                                conn' records' settled Es Ec Hne Ex) as Hv.
    destruct settled; exact Hv.
Qed.

Lemma loop_body_counts w params history st :
  iteration_count (fst (loop_body w params history st)) = (iteration_count st + 1)%Z
  /\ sent (fst (loop_body w params history st)) = (sent st ++ [currentMessage st])%list.
Proof.
  destruct (loop_body_view w params history st) as [e|response|response candidate
                                                   |response candidate conn' records' settled];
    simpl; try (destruct (track_usage_fields response (begin_pass st))
                 as (_ & Hi & _ & Hs & _)).
  - auto.
  - now rewrite Hi, Hs.
  - now rewrite Hi, Hs.
  - destruct settled; simpl; now rewrite Hi, Hs.
Qed.

(** ** The loop *)

Lemma agentic_loop_unfold w params history max st :
  agentic_loop w params history max st
  = if Z_lt_dec (iteration_count st) max then
      match loop_body w params history st with
      | (st', Return r) => {| final := st'; outcome_of := Responded r |}
      | (st', Throw e) => {| final := st'; outcome_of := Thrown e |}
      | (st', Hang) => {| final := st'; outcome_of := Suspended |}
      | (st', Continue) => agentic_loop w params history max st'
      end
    else {| final := st; outcome_of := Responded (respond limit_message st) |}.
Proof.
  rewrite agentic_loop_equation_1.
  destruct (Z_lt_dec (iteration_count st) max); simpl; [|reflexivity].
  unfold inspect.
  destruct (loop_body w params history st) as [st' [r|e| |]]; reflexivity.
Qed.

(** Induction along the passes of the loop. *)
Lemma agentic_loop_induction w params history max (P : LoopState -> run -> Prop) :
  (forall st, ~ (iteration_count st < max)%Z ->
              P st {| final := st; outcome_of := Responded (respond limit_message st) |}) ->
  (forall st st' r, (iteration_count st < max)%Z ->
                    loop_body w params history st = (st', Return r) ->
                    P st {| final := st'; outcome_of := Responded r |}) ->
  (forall st st' e, (iteration_count st < max)%Z ->
                    loop_body w params history st = (st', Throw e) ->
                    P st {| final := st'; outcome_of := Thrown e |}) ->
  (forall st st', (iteration_count st < max)%Z ->
                  loop_body w params history st = (st', Hang) ->
                  P st {| final := st'; outcome_of := Suspended |}) ->
  (forall st st', (iteration_count st < max)%Z ->
                  loop_body w params history st = (st', Continue) ->
                  P st' (agentic_loop w params history max st') ->
                  P st (agentic_loop w params history max st')) ->
  forall st, P st (agentic_loop w params history max st).
Proof.
  intros Hlimit Hreturn Hthrow Hhang Hcontinue st.
  remember (Z.to_nat (max - iteration_count st)) as n eqn:Hn.
  revert st Hn. induction n as [n IH] using lt_wf_ind. intros st Hn.
  rewrite agentic_loop_unfold.
  destruct (Z_lt_dec (iteration_count st) max) as [Hlt|Hge]; [|now apply Hlimit].
  destruct (loop_body w params history st) as [st' [r|e| |]] eqn:Eb.
  - now apply Hreturn.
  - now apply Hthrow.
  - now apply Hhang.
  - apply Hcontinue; [exact Hlt | exact Eb |].
    pose proof (loop_body_counts w params history st) as [Hi _].
    rewrite Eb in Hi. simpl in Hi.
    apply (IH (Z.to_nat (max - iteration_count st'))); [lia | reflexivity].
Qed.


(** ** Assumptions on the collaborators *)

(** Every tool call the loop dispatches settles. *)
Definition all_calls_settle (w : world) : Prop :=
  forall k calls, every_call_settles (List.length calls) (completions w k calls).


(** The model requests at least one tool call on every turn. *)
Definition always_requests_tools (w : world) (params : ModelParams)
           (history : list Content) : Prop :=
  forall inputs, exists response candidate,
    sendMessage w params history inputs = Returns response
    /\ first_candidate response = Some candidate
    /\ function_calls_of candidate <> [].

Definition connected (st : LoopState) : Prop :=
  exists c, mcpClient (connection st) = Some c.

(** A turn in which the model requests tools, with the client connected
    and every call settling: all results are collected, the records are
    pushed, and the next message is the list of responses in request order. *)
Lemma loop_body_turn w params history st response candidate :
  connected st ->
  sendMessage w params history (sent st ++ [currentMessage st]) = Returns response ->
  first_candidate response = Some candidate ->
  function_calls_of candidate <> [] ->
  let calls := calls_of (function_calls_of candidate) in
  let cs := completions w (iteration_count st + 1) calls in
  every_call_settles (List.length calls) cs ->
  exists new,
    loop_body w params history st
    = (after_tools (track_usage response (begin_pass st)) (connection st)
                   (toolCallRecords st ++ new) (Parts (in_request_order 0 calls cs)),
       Continue)
    /\ List.length new = List.length calls
    /\ new <> []
    /\ (forall i fc comp, nth_error calls i = Some fc ->
                          first_completion i cs = Some comp ->
                          In (fst (finish_call fc comp)) new).
Proof.
  intros [c Hc] Hs Hcand Hne calls cs Hall.
  destruct (execute_tools_connected w (iteration_count st + 1) (connection st) c
                                    (parts_of candidate) (toolCallRecords st) Hc Hall)
    as (new & Hx & Hn & Hr).
  exists new. split; [|split; [exact Hn|split; [|exact Hr]]].
  - unfold loop_body. simpl sent. rewrite Hs, Hcand.
    destruct (Nat.eqb (List.length (function_calls_of candidate)) 0) eqn:En.
    { apply Nat.eqb_eq, length_zero_iff_nil in En. contradiction. }
    destruct (track_usage_fields response (begin_pass st)) as (Hr' & Hi & _ & _ & Hc').
    rewrite Hr', Hi, Hc'. simpl. unfold function_calls_of at 1. rewrite Hx. reflexivity.
  - intro Hnil. rewrite Hnil in Hn. simpl in Hn.
    unfold calls in Hn. unfold function_calls_of in Hn, Hne.
    rewrite calls_of_filter_length in Hn.
    apply Hne. now apply length_zero_iff_nil.
Qed.

Lemma loop_body_return w params history st st' r :
  loop_body w params history st = (st', Return r) ->
  r = respond (message r) st'
  /\ exists response,
       sendMessage w params history (sent st') = Returns response
       /\ ((first_candidate response = None /\ message r = no_candidate_message)
           \/ (exists candidate, first_candidate response = Some candidate
                                 /\ function_calls_of candidate = []
                                 /\ message r = final_text candidate)).
Proof.
  intro Eb. pose proof (loop_body_view w params history st) as V. rewrite Eb in V.
  inversion V as [e He|response Hs Hc|response candidate Hs Hc Hn
                  |response candidate conn' records' settled Hs Hc Hn Hx Hm]; subst.
  - split; [reflexivity|]. exists response.
    destruct (track_usage_fields response (begin_pass st)) as (_ & _ & _ & Hsent & _).
    rewrite Hsent. split; [exact Hs|]. left. now split.
  - split; [reflexivity|]. exists response.
    destruct (track_usage_fields response (begin_pass st)) as (_ & _ & _ & Hsent & _).
    rewrite Hsent. split; [exact Hs|]. right. exists candidate. now repeat split.
  - destruct settled; discriminate.
Qed.


(** ** The iteration ceiling *)

Lemma loop_bounded w params history max : forall st,
  (iteration_count st <= max)%Z ->
  Z.of_nat (List.length (sent st)) = iteration_count st ->
  Z.of_nat (List.length (sent (final (agentic_loop w params history max st))))
  = iteration_count (final (agentic_loop w params history max st))
  /\ (iteration_count (final (agentic_loop w params history max st)) <= max)%Z
  /\ forall resp,
       outcome_of (agentic_loop w params history max st) = Responded resp ->
       iterations resp = iteration_count (final (agentic_loop w params history max st)).
Proof.
  apply (agentic_loop_induction w params history max
           (fun st r =>
              (iteration_count st <= max)%Z ->
              Z.of_nat (List.length (sent st)) = iteration_count st ->
              Z.of_nat (List.length (sent (final r))) = iteration_count (final r)
              /\ (iteration_count (final r) <= max)%Z
              /\ forall resp, outcome_of r = Responded resp ->
                              iterations resp = iteration_count (final r))).
  - intros st _ Hle Hlen. simpl. repeat split; try assumption.
    intros resp H. inversion H. reflexivity.
  - intros st st' r Hlt Eb Hle Hlen.
    pose proof (loop_body_counts w params history st) as [Hi Hs].
    rewrite Eb in Hi, Hs. simpl in *.
    rewrite Hs, length_app, Hi. simpl. repeat split; try lia.
    intros resp H. inversion H. subst resp.
    destruct (loop_body_return w params history st st' r Eb) as [Hr _].
    rewrite Hr. simpl. lia.
  - intros st st' e Hlt Eb Hle Hlen.
    pose proof (loop_body_counts w params history st) as [Hi Hs].
    rewrite Eb in Hi, Hs. simpl in *.
    rewrite Hs, length_app, Hi. simpl. repeat split; try lia. discriminate.
  - intros st st' Hlt Eb Hle Hlen.
    pose proof (loop_body_counts w params history st) as [Hi Hs].
    rewrite Eb in Hi, Hs. simpl in *.
    rewrite Hs, length_app, Hi. simpl. repeat split; try lia. discriminate.
  - intros st st' Hlt Eb IH Hle Hlen.
    pose proof (loop_body_counts w params history st) as [Hi Hs].
    rewrite Eb in Hi, Hs. simpl in *.
    apply IH; [lia|]. rewrite Hs, length_app, Hi. simpl. lia.
Qed.

Lemma loop_reaches_limit w params history max :
  always_requests_tools w params history ->
  all_calls_settle w ->
  forall st,
    connected st ->
    (iteration_count st <= max)%Z ->
    outcome_of (agentic_loop w params history max st)
    = Responded (respond limit_message (final (agentic_loop w params history max st)))
    /\ iteration_count (final (agentic_loop w params history max st)) = max
    /\ (Z.of_nat (List.length (toolCallRecords st)) + (max - iteration_count st)
        <= Z.of_nat (List.length
                       (toolCallRecords (final (agentic_loop w params history max st)))))%Z.
Proof.
  intros Hmodel Hsettle.
  assert (Hturn : forall st, connected st ->
             exists st', loop_body w params history st = (st', Continue)
                         /\ connected st'
                         /\ iteration_count st' = (iteration_count st + 1)%Z
                         /\ List.length (toolCallRecords st) < List.length (toolCallRecords st')).
  { intros st Hc.
    destruct (Hmodel (sent st ++ [currentMessage st])%list)
      as (response & candidate & Hs & Hcand & Hne).
    destruct (loop_body_turn w params history st response candidate Hc Hs Hcand Hne
                             (Hsettle _ _)) as (new & Hb & Hn & Hnew & _).
    eexists. split; [exact Hb|].
    destruct (track_usage_fields response (begin_pass st)) as (_ & Hi & _).
    simpl. split; [exact Hc|]. split; [exact Hi|].
    rewrite length_app. destruct new; [contradiction|]. simpl. lia. }
  apply (agentic_loop_induction w params history max
           (fun st r =>
              connected st ->
              (iteration_count st <= max)%Z ->
              outcome_of r = Responded (respond limit_message (final r))
              /\ iteration_count (final r) = max
              /\ (Z.of_nat (List.length (toolCallRecords st)) + (max - iteration_count st)
                  <= Z.of_nat (List.length (toolCallRecords (final r))))%Z)).
  - intros st Hge _ Hle. simpl. repeat split; lia.
  - intros st st' r _ Eb Hc _. destruct (Hturn st Hc) as (x & Hx & _). congruence.
  - intros st st' e _ Eb Hc _. destruct (Hturn st Hc) as (x & Hx & _). congruence.
  - intros st st' _ Eb Hc _. destruct (Hturn st Hc) as (x & Hx & _). congruence.
  - intros st st' Hlt Eb IH Hc Hle.
    destruct (Hturn st Hc) as (x & Hx & Hcx & Hix & Hrx).
    rewrite Eb in Hx. inversion Hx. subst x.
    destruct IH as (H1 & H2 & H3); [exact Hcx | lia |].
    repeat split; try assumption. lia.
Qed.

Lemma listMcpTools_connects w conn conn1 mcpTools :
  McpClientFacts.consistent conn ->
  listMcpTools (mcp w) conn = (conn1, Returns mcpTools) ->
  exists c, mcpClient conn1 = Some c.
Proof.
  intros Hcons. unfold listMcpTools.
  destruct (getMcpClient (mcp w) conn) as [s1 [client|e]] eqn:Eg; simpl;
    intro H; inversion H; subst.
  exists client. eapply McpClientFacts.getMcpClient_returns; eauto.
Qed.

(** C1: with a ceiling of at least 1, a run makes at most that many model
    round trips (messages sent on the chat session), and a response it
    returns carries an iteration count equal to the number of round trips,
    hence at most the ceiling.  With a model that requests a tool call on
    every turn, the run ends exactly at the ceiling (at iteration 3 for a
    ceiling of 3) with the limit-exceeded response: the fallback message and
    all the records accumulated, at least one per turn. *)
Theorem iteration_ceiling (w : world) (conn : McpClient.state) (request : ChatRequest) :
  (1 <= ceiling request)%Z ->
  (Z.of_nat (List.length (sent (final (sendMessageToGemini w conn request))))
   <= ceiling request)%Z
  /\ (forall resp,
         outcome_of (sendMessageToGemini w conn request) = Responded resp ->
         iterations resp
         = Z.of_nat (List.length (sent (final (sendMessageToGemini w conn request))))
         /\ (iterations resp <= ceiling request)%Z)
  /\ (forall conn1 mcpTools latest,
         McpClientFacts.consistent conn ->
         listMcpTools (mcp w) conn = (conn1, Returns mcpTools) ->
         latestMessage request = Some {| role := user; content_text := latest |} ->
         startChat w (model_params w request mcpTools) (chat_history request) = Returns tt ->
         always_requests_tools w (model_params w request mcpTools) (chat_history request) ->
         all_calls_settle w ->
         exists resp,
           outcome_of (sendMessageToGemini w conn request) = Responded resp
           /\ message resp = limit_message
           /\ iterations resp = ceiling request
           /\ Z.of_nat (List.length (sent (final (sendMessageToGemini w conn request))))
              = ceiling request
           /\ toolCalls resp = toolCallRecords (final (sendMessageToGemini w conn request))
           /\ (ceiling request <= Z.of_nat (List.length (toolCalls resp)))%Z).
Proof.
  intro Hmax.
  assert (Hloop : forall conn1 mcpTools latest,
             sendMessageToGemini w conn request
             = agentic_loop w (model_params w request mcpTools) (chat_history request)
                            (ceiling request) (entry conn1 latest) ->
             (Z.of_nat (List.length (sent (final (sendMessageToGemini w conn request))))
              <= ceiling request)%Z
             /\ (forall resp,
                    outcome_of (sendMessageToGemini w conn request) = Responded resp ->
                    iterations resp
                    = Z.of_nat (List.length
                                  (sent (final (sendMessageToGemini w conn request))))
                    /\ (iterations resp <= ceiling request)%Z)).
  { intros conn1 mcpTools latest E. rewrite E.
    destruct (loop_bounded w (model_params w request mcpTools) (chat_history request)
                           (ceiling request) (entry conn1 latest))
      as (H1 & H2 & H3); [simpl; lia | reflexivity |].
    split; [lia|]. intros resp Hr. rewrite (H3 resp Hr). split; lia. }
  assert (Hearly : forall st e,
             sent st = [] ->
             sendMessageToGemini w conn request = {| final := st; outcome_of := Thrown e |} ->
             (Z.of_nat (List.length (sent (final (sendMessageToGemini w conn request))))
              <= ceiling request)%Z
             /\ (forall resp,
                    outcome_of (sendMessageToGemini w conn request) = Responded resp ->
                    iterations resp
                    = Z.of_nat (List.length
                                  (sent (final (sendMessageToGemini w conn request))))
                    /\ (iterations resp <= ceiling request)%Z)).
  { intros st e Hs E. rewrite E. simpl. rewrite Hs. simpl. split; [lia|]. discriminate. }
  assert (Hboth :
            (Z.of_nat (List.length (sent (final (sendMessageToGemini w conn request))))
             <= ceiling request)%Z
            /\ (forall resp,
                   outcome_of (sendMessageToGemini w conn request) = Responded resp ->
                   iterations resp
                   = Z.of_nat (List.length
                                 (sent (final (sendMessageToGemini w conn request))))
                   /\ (iterations resp <= ceiling request)%Z)).
  { unfold sendMessageToGemini in *.
    destruct (listMcpTools (mcp w) conn) as [conn1 [mcpTools|e]].
    - destruct (latestMessage request) as [[[| |] latest]|].
      + destruct (startChat w (model_params w request mcpTools) (chat_history request)).
        * now apply (Hloop conn1 mcpTools latest).
        * now apply (Hearly (entry conn1 latest) e).
      + now apply (Hearly (entry conn1 "") (Js.new_Error "Last message must be from user")).
      + now apply (Hearly (entry conn1 "") (Js.new_Error "Last message must be from user")).
      + now apply (Hearly (entry conn1 "") (Js.new_Error "Last message must be from user")).
    - now apply (Hearly (entry conn1 "") e). }
  destruct Hboth as [Hb1 Hb2]. split; [exact Hb1|]. split; [exact Hb2|].
  intros conn1 mcpTools latest Hcons Hlist Hlatest Hchat Hmodel Hsettle.
  assert (E : sendMessageToGemini w conn request
              = agentic_loop w (model_params w request mcpTools) (chat_history request)
                             (ceiling request) (entry conn1 latest)).
  { unfold sendMessageToGemini. now rewrite Hlist, Hlatest, Hchat. }
  destruct (loop_reaches_limit w (model_params w request mcpTools) (chat_history request)
                               (ceiling request) Hmodel Hsettle (entry conn1 latest))
    as (H1 & H2 & H3).
  { exact (listMcpTools_connects w conn conn1 mcpTools Hcons Hlist). }
  { simpl. lia. }
  destruct (loop_bounded w (model_params w request mcpTools) (chat_history request)
                         (ceiling request) (entry conn1 latest))
    as (H4 & H5 & H6); [simpl; lia | reflexivity |].
  rewrite E. eexists. split; [exact H1|]. simpl in *.
  repeat split; try lia.
Qed.


(** ** A world to run the loop in *)

Definition tool_part (tool : string) : Part :=
  {| text := None;
     functionCall := Some {| fc_name := tool; args := Some (JObj [("email", JStr "jane@example.com")]) |};
     functionResponse := None |}.

Definition text_part (t : string) : Part :=
  {| text := Some t; functionCall := None; functionResponse := None |}.

Definition responding (ps : list Part) : Response :=
  {| usageMetadata := Some {| promptTokenCount := Some 12%Z;
                              candidatesTokenCount := Some 7%Z |};
     candidates := Some [{| candidate_parts := Some ps; finishReason := None |}] |}.

Definition payload : McpToolResult :=
  {| content := [JObj [("type", JStr "text"); ("text", JStr "Jane Doe, 12 orders")]];
     isError := None |}.

Definition server_up : sdk :=
  {| attempts := fun _ => Connects [];
     listTools := fun _ => Returns [];
     close := fun _ => Returns tt |}.

(** The calls of a batch settle last to first. *)
Definition settle_in_reverse (how : nat -> Js.result McpToolResult)
           (calls : list FunctionCall) : list completion :=
  map (fun i => {| index := i; settles := how i; took := 5%Z |})
      (rev (seq 0 (List.length calls))).

Lemma settle_in_reverse_settles how calls :
  every_call_settles (List.length calls) (settle_in_reverse how calls).
Proof.
  intros i Hi. unfold settle_in_reverse. rewrite map_map. simpl.
  rewrite map_id. apply in_rev. rewrite rev_involutive. apply in_seq. lia.
Qed.

(** A model that asks for the customer context on every turn. *)
Definition insatiable : world :=
  {| mcp := server_up;
     DEFAULT_SYSTEM_PROMPT := "You are an AI assistant.";
     startChat := fun _ _ => Returns tt;
     sendMessage := fun _ _ _ => Returns (responding [tool_part "aggregate_customer_context"]);
     completions := fun _ calls => settle_in_reverse (fun _ => Returns payload) calls |}.

Definition ask (text : string) (limit : option Z) : ChatRequest :=
  {| messages := [{| role := user; content_text := text |}];
     systemPrompt := None;
     maxToolCalls := limit |}.

Lemma iteration_ceiling_witness :
  exists resp,
    outcome_of (sendMessageToGemini insatiable initial
                                    (ask "show me customer jane@example.com" (Some 3%Z)))
    = Responded resp
    /\ message resp = limit_message
    /\ iterations resp = 3%Z.
Proof.
  destruct (iteration_ceiling insatiable initial
              (ask "show me customer jane@example.com" (Some 3%Z)))
    as (_ & _ & H).
  - unfold ceiling. simpl. lia.
  - destruct (H (fst (listMcpTools server_up initial)) [] "show me customer jane@example.com")
      as (resp & H1 & H2 & H3 & _).
    + exact McpClientFacts.consistent_initial.
    + reflexivity.
    + reflexivity.
    + reflexivity.
    + intro inputs. exists (responding [tool_part "aggregate_customer_context"]).
      eexists. split; [reflexivity|]. split; [reflexivity|]. discriminate.
    + intros k calls. apply settle_in_reverse_settles.
    + exists resp. auto.
Defined.


(** ** Results in request order *)

Lemma in_request_order_settled calls cs :
  every_call_settles (List.length calls) cs ->
  List.length (in_request_order 0 calls cs) = List.length calls
  /\ forall i fc, nth_error calls i = Some fc ->
                  exists comp, first_completion i cs = Some comp
                               /\ nth_error (in_request_order 0 calls cs) i
                                  = Some (snd (finish_call fc comp)).
Proof.
  intro Hall.
  assert (Hnth : forall i, nth_error (in_request_order 0 calls cs) i
                           = match nth_error calls i, first_completion i cs with
                             | Some fc, Some c => Some (snd (finish_call fc c))
                             | _, _ => None
                             end).
  { intro i. rewrite in_request_order_nth; [reflexivity|].
    intros j Hj. apply first_completion_In, Hall, Hj. }
  split.
  - destruct (Nat.lt_trichotomy (List.length (in_request_order 0 calls cs))
                                (List.length calls)) as [H|[H|H]]; [|exact H|].
    + exfalso.
      assert (Hn : nth_error (in_request_order 0 calls cs)
                             (List.length (in_request_order 0 calls cs)) = None)
        by (apply nth_error_None; lia).
      rewrite Hnth in Hn.
      destruct (nth_error calls (List.length (in_request_order 0 calls cs))) eqn:E.
      * pose proof (first_completion_In _ cs (Hall _ H)) as Hf.
        destruct (first_completion (List.length (in_request_order 0 calls cs)) cs);
          [discriminate | congruence].
      * apply nth_error_None in E. lia.
    + exfalso.
      assert (Hn : nth_error (in_request_order 0 calls cs) (List.length calls) <> None)
        by (apply nth_error_Some; lia).
      rewrite Hnth in Hn.
      assert (E : nth_error calls (List.length calls) = None)
        by (apply nth_error_None; lia).
      rewrite E in Hn. congruence.
  - intros i fc Hfc.
    assert (Hi : i < List.length calls) by (apply nth_error_Some; congruence).
    pose proof (first_completion_In i cs (Hall i Hi)) as Hf.
    destruct (first_completion i cs) as [comp|] eqn:E; [|congruence].
    exists comp. split; [reflexivity|]. now rewrite Hnth, Hfc, E.
Qed.

(** C4: the calls the model requests in a turn are all started, in request
    order and before any of them is awaited; [Promise.all] fulfils only when
    every one has settled (while one has not, the loop stays suspended and
    the model is not resumed); the array it fulfils with, which is the next
    message to the model, holds at position [i] the response built from the
    [i]-th request and the completion of that call, and does not depend on
    the order in which the calls settled. *)
Theorem responses_keep_request_order
        (w : world) (params : ModelParams) (history : list Content) (st : LoopState)
        (response : Response) (candidate : Candidate) :
  connected st ->
  sendMessage w params history (sent st ++ [currentMessage st]) = Returns response ->
  first_candidate response = Some candidate ->
  function_calls_of candidate <> [] ->
  let calls := calls_of (function_calls_of candidate) in
  let cs := completions w (iteration_count st + 1) calls in
  (* all of them are started *)
  (start_calls w (connection st) (function_calls_of candidate) = (connection st, Returns calls)
   /\ List.length calls = List.length (function_calls_of candidate))
  (* every result, in request order *)
  /\ (every_call_settles (List.length calls) cs ->
      exists st',
        loop_body w params history st = (st', Continue)
        /\ currentMessage st' = Parts (in_request_order 0 calls cs)
        /\ sent (fst (loop_body w params history st'))
           = (sent st ++ [currentMessage st; Parts (in_request_order 0 calls cs)])%list
        /\ List.length (in_request_order 0 calls cs) = List.length calls
        /\ forall i fc, nth_error calls i = Some fc ->
                        exists comp,
                          first_completion i cs = Some comp
                          /\ nth_error (in_request_order 0 calls cs) i
                             = Some {| text := None;
                                       functionCall := None;
                                       functionResponse :=
                                         Some {| fr_name := fc_name fc;
                                                 response :=
                                                   hd_error (content (callTool_caught
                                                                        (settles comp))) |} |})
  (* whatever the order of completion *)
  /\ (forall cs', NoDup (map index cs) -> Permutation cs cs' ->
                  in_request_order 0 calls cs' = in_request_order 0 calls cs)
  (* all or none *)
  /\ (forall i, i < List.length calls -> ~ In i (map index cs) ->
                snd (loop_body w params history st) = Hang).
Proof.
  intros Hconn Hs Hcand Hne calls cs.
  destruct Hconn as [c Hc].
  assert (Hstart : start_calls w (connection st) (function_calls_of candidate)
                   = (connection st, Returns calls))
    by apply (start_calls_connected w (connection st) c (parts_of candidate) Hc).
  split; [|split; [|split]].
  - split; [exact Hstart|]. apply calls_of_filter_length.
  - intro Hall.
    destruct (loop_body_turn w params history st response candidate
                             (ex_intro _ c Hc) Hs Hcand Hne Hall)
      as (new & Hb & _).
    destruct (in_request_order_settled calls cs Hall) as [Hlen Hnth].
    eexists. split; [exact Hb|]. split; [reflexivity|]. split; [|split; [exact Hlen|]].
    + match goal with
      | |- sent (fst (loop_body _ _ _ ?x)) = _ =>
          destruct (loop_body_counts w params history x) as [_ Hsent]; rewrite Hsent
      end.
      simpl. destruct (track_usage_fields response (begin_pass st)) as (_ & _ & _ & Hs' & _).
      rewrite Hs'. simpl. now rewrite <- app_assoc.
    + intros i fc Hfc. destruct (Hnth i fc Hfc) as (comp & Hf & Hn).
      exists comp. split; [exact Hf|]. rewrite Hn. reflexivity.
  - intros cs' Hnd Hperm. symmetry. now apply in_request_order_permutation.
  - intros i Hi Hnot. unfold loop_body. simpl sent. rewrite Hs, Hcand.
    destruct (Nat.eqb (List.length (function_calls_of candidate)) 0) eqn:En.
    { apply Nat.eqb_eq, length_zero_iff_nil in En. contradiction. }
    destruct (track_usage_fields response (begin_pass st)) as (Hr' & Hi' & _ & _ & Hc').
    rewrite Hr', Hi', Hc'. simpl. unfold execute_tools. rewrite Hstart.
    fold calls. fold cs.
    pose proof (fan_in_pending calls cs (map (fun _ => None) calls) (toolCallRecords st) i)
      as Hp.
    destruct (fan_in calls cs (map (fun _ => None) calls) (toolCallRecords st))
      as [records' values]. simpl in Hp.
    rewrite Hp; [reflexivity| |exact Hnot].
    rewrite nth_error_unsettled.
    destruct (nth_error calls i) eqn:E; [reflexivity|].
    apply nth_error_None in E. lia.
Qed.

Definition two_tools : world :=
  {| mcp := server_up;
     DEFAULT_SYSTEM_PROMPT := "You are an AI assistant.";
     startChat := fun _ _ => Returns tt;
     sendMessage := fun _ _ _ =>
       Returns (responding [tool_part "aggregate_customer_context";
                            text_part "and then";
                            tool_part "refund_order"]);
     completions := fun _ calls => settle_in_reverse (fun _ => Returns payload) calls |}.

Definition connected_entry : LoopState :=
  entry (fst (listMcpTools server_up initial)) "refund jane's last order".

Lemma responses_keep_request_order_witness :
  exists st',
    loop_body two_tools (model_params two_tools (ask "" None) []) [] connected_entry
    = (st', Continue)
    /\ map index (completions two_tools 1 (calls_of [tool_part "aggregate_customer_context";
                                                      tool_part "refund_order"]))
       = [1; 0]
    /\ currentMessage st'
       = Parts [{| text := None; functionCall := None;
                   functionResponse :=
                     Some {| fr_name := "aggregate_customer_context";
                             response := hd_error (content payload) |} |};
                {| text := None; functionCall := None;
                   functionResponse :=
                     Some {| fr_name := "refund_order";
                             response := hd_error (content payload) |} |}].
Proof.
  destruct (responses_keep_request_order
              two_tools (model_params two_tools (ask "" None) []) [] connected_entry
              (responding [tool_part "aggregate_customer_context";
                           text_part "and then";
                           tool_part "refund_order"])
              {| candidate_parts := Some [tool_part "aggregate_customer_context";
                                          text_part "and then";
                                          tool_part "refund_order"];
                 finishReason := None |})
    as (_ & H & _).
  - exists 0. reflexivity.
  - reflexivity.
  - reflexivity.
  - discriminate.
  - destruct H as (st' & Hb & Hm & _).
    + apply settle_in_reverse_settles.
    + exists st'. split; [exact Hb|]. split; [reflexivity|]. rewrite Hm. reflexivity.
Defined.


(** ** Failure paths of a run *)




Definition server_down : world :=
  {| mcp := {| attempts := fun _ => ConnectFails (Js.new_Error "connect ECONNREFUSED");
               listTools := fun _ => Returns [];
               close := fun _ => Returns tt |};
     DEFAULT_SYSTEM_PROMPT := "You are an AI assistant.";
     startChat := fun _ _ => Returns tt;
     sendMessage := fun _ _ _ => Returns (responding [text_part "Hello"]);
     completions := fun _ calls => settle_in_reverse (fun _ => Returns payload) calls |}.

Definition chatty : world :=
  {| mcp := server_up;
     DEFAULT_SYSTEM_PROMPT := "You are an AI assistant.";
     startChat := fun _ _ => Returns tt;
     sendMessage := fun _ _ _ => Returns (responding [text_part "Hello"]);
     completions := fun _ calls => settle_in_reverse (fun _ => Returns payload) calls |}.




(** ** A tool call that fails *)

(** The text part [callMcpTool] returns in place of a thrown error. *)
Definition failure_text (error : Js.error) : json :=
  JObj [("type", JStr "text");
        ("text", JStr ("Tool execution failed: " ++ Js.to_string error))].

(** The record shape of the claim: [result: {error: true, message}]. *)
Definition error_shaped (v : option json) : Prop :=
  exists o m, v = Some o
              /\ json_field "error" o = Some (JBool true)
              /\ json_field "message" o = Some (JStr m).

Definition tool_down : world :=
  {| mcp := server_up;
     DEFAULT_SYSTEM_PROMPT := "You are an AI assistant.";
     startChat := fun _ _ => Returns tt;
     sendMessage := fun _ _ _ => Returns (responding [tool_part "aggregate_customer_context"]);
     completions := fun _ calls =>
       settle_in_reverse (fun _ => Js.throw "socket hang up") calls |}.

(** C3 as stated fails on the record: a failed call is recorded with the
    text part of the error result as its [result]; the [isError] flag stays
    behind on the [McpToolResult] and the record has no [error] or [message]
    field. *)
Lemma failed_call_record_counterexample :
  exists resp record,
    outcome_of (sendMessageToGemini tool_down initial (ask "show me jane" (Some 1%Z)))
    = Responded resp
    /\ toolCalls resp = [record]
    /\ tool_name record = "aggregate_customer_context"
    /\ result record
       = Some (JObj [("type", JStr "text");
                     ("text", JStr "Tool execution failed: Error: socket hang up")])
    /\ ~ error_shaped (result record).
Proof.
  eexists. eexists. split; [vm_compute; reflexivity|].
  split; [reflexivity|]. split; [reflexivity|]. split; [reflexivity|].
  intros (o & m & Ho & He & _). inversion Ho. subst o. discriminate He.
Qed.

(** C3, amended: inside a run the client is connected, so [callMcpTool]
    does not throw: when [client.callTool] fails it returns
    [{content: [{type: 'text', text: 'Tool execution failed: ...'}],
    isError: true}], where the dots are the thrown error as the template
    renders it: for an error with a name and a message, [name: message]
    ([Error: socket hang up], [TypeError: fetch failed], [McpError: MCP
    error -32001: Request timed out]).  The failed call is recorded as
    [{name, input, result: {type: 'text', text}, durationMs}], the same text
    part is the function response at the call's position in the next
    message, and the loop goes on to send that message to the model. *)
Theorem failed_tool_call_is_fed_back
        (w : world) (params : ModelParams) (history : list Content) (st : LoopState)
        (response : Response) (candidate : Candidate)
        (i : nat) (fc : FunctionCall) (comp : completion) (error : Js.error) :
  connected st ->
  sendMessage w params history (sent st ++ [currentMessage st]) = Returns response ->
  first_candidate response = Some candidate ->
  let calls := calls_of (function_calls_of candidate) in
  let cs := completions w (iteration_count st + 1) calls in
  every_call_settles (List.length calls) cs ->
  nth_error calls i = Some fc ->
  first_completion i cs = Some comp ->
  settles comp = Fails error ->
  (forall toolName arguments,
      callMcpTool (mcp w) (connection st) toolName arguments (Fails error)
      = (connection st,
         Returns {| content := [failure_text error]; isError := Some true |}))
  /\ (Js.name error <> EmptyString -> Js.message error <> EmptyString ->
      failure_text error
      = JObj [("type", JStr "text");
              ("text", JStr ("Tool execution failed: "
                             ++ Js.name error ++ ": " ++ Js.message error))])
  /\ exists st' responses,
       loop_body w params history st = (st', Continue)
       /\ connected st'
       /\ In {| tool_name := fc_name fc;
                input := match args fc with Some a => a | None => JObj [] end;
                result := Some (failure_text error);
                durationMs := took comp |} (toolCallRecords st')
       /\ currentMessage st' = Parts responses
       /\ nth_error responses i
          = Some {| text := None; functionCall := None;
                    functionResponse := Some {| fr_name := fc_name fc;
                                                response := Some (failure_text error) |} |}
       /\ sent (fst (loop_body w params history st'))
          = (sent st ++ [currentMessage st; Parts responses])%list.
Proof.
  intros Hconn Hs Hcand calls cs Hall Hfc Hfirst Hfail.
  split.
  - intros toolName arguments. destruct Hconn as [c Hc]. unfold callMcpTool.
    rewrite (@McpClientFacts.getMcpClient_connected (mcp w) (connection st) c Hc).
    reflexivity.
  - split.
    { intros Hn Hm. unfold failure_text.
      now rewrite (@McpClientFacts.to_string_named error Hn Hm). }
    assert (Hne : function_calls_of candidate <> []).
    { intro Hnil. unfold calls in Hfc. rewrite Hnil in Hfc. now destruct i. }
    destruct (loop_body_turn w params history st response candidate
                             Hconn Hs Hcand Hne Hall) as (new & Hb & _ & _ & Hrec).
    destruct (in_request_order_settled calls cs Hall) as [_ Hnth].
    eexists. exists (in_request_order 0 calls cs).
    split; [exact Hb|]. split; [exact Hconn|]. split; [|split; [reflexivity|split]].
    + simpl. apply in_or_app. right.
      pose proof (Hrec i fc comp Hfc Hfirst) as Hin.
      unfold finish_call in Hin. rewrite Hfail in Hin. exact Hin.
    + destruct (Hnth i fc Hfc) as (comp' & Hf' & Hn).
      fold cs in Hf'. rewrite Hfirst in Hf'. inversion Hf'. subst comp'.
      rewrite Hn. unfold finish_call. rewrite Hfail. reflexivity.
    + match goal with
      | |- sent (fst (loop_body _ _ _ ?x)) = _ =>
          destruct (loop_body_counts w params history x) as [_ Hsent]; rewrite Hsent
      end.
      simpl. destruct (track_usage_fields response (begin_pass st)) as (_ & _ & _ & Hs' & _).
      rewrite Hs'. simpl. now rewrite <- app_assoc.
Qed.

(** The server does not answer the call in time: [client.callTool]
    rejects with the SDK's [McpError]. *)
Definition request_timed_out : Js.error :=
  {| Js.name := "McpError"; Js.message := "MCP error -32001: Request timed out" |}.

Definition tool_times_out : world :=
  {| mcp := server_up;
     DEFAULT_SYSTEM_PROMPT := "You are an AI assistant.";
     startChat := fun _ _ => Returns tt;
     sendMessage := fun _ _ _ => Returns (responding [tool_part "aggregate_customer_context"]);
     completions := fun _ calls =>
       settle_in_reverse (fun _ => Fails request_timed_out) calls |}.

Lemma failed_tool_call_is_fed_back_witness :
  exists st' responses,
    loop_body tool_times_out (model_params tool_times_out (ask "" None) []) []
              connected_entry
    = (st', Continue)
    /\ currentMessage st' = Parts responses
    /\ nth_error responses 0
       = Some {| text := None; functionCall := None;
                 functionResponse :=
                   Some {| fr_name := "aggregate_customer_context";
                           response :=
                             Some (JObj [("type", JStr "text");
                                         ("text",
                                          JStr ("Tool execution failed: McpError: "
                                                ++ "MCP error -32001: "
                                                ++ "Request timed out"))]) |} |}.
Proof.
  destruct (failed_tool_call_is_fed_back
              tool_times_out (model_params tool_times_out (ask "" None) []) []
              connected_entry
              (responding [tool_part "aggregate_customer_context"])
              {| candidate_parts := Some [tool_part "aggregate_customer_context"];
                 finishReason := None |}
              0
              {| fc_name := "aggregate_customer_context";
                 args := Some (JObj [("email", JStr "jane@example.com")]) |}
              {| index := 0; settles := Fails request_timed_out; took := 5%Z |}
              request_timed_out)
    as (_ & Htext & st' & responses & Hb & _ & _ & Hm & Hn & _).
  - exists 0. reflexivity.
  - reflexivity.
  - reflexivity.
  - apply settle_in_reverse_settles.
  - reflexivity.
  - reflexivity.
  - reflexivity.
  - exists st', responses. split; [exact Hb|]. split; [exact Hm|].
    rewrite Hn, Htext; [reflexivity|discriminate|discriminate].
Defined.

End GeminiFacts.

(* ===================================================================== *)
(** * More on the streaming endpoint: what is written and what escapes *)
(* ===================================================================== *)

Module EventFacts.
Import Rails StreamsController StreamsFacts.

(** The frame [write_sse_event(event:, data:, id:)] puts on the stream. *)
Definition sse_frame (event : option string) (data : json) (id : option string) : frame :=
  {| frame_id := id; frame_event := event; frame_data := data |}.

Definition append_frame (f : frame) (s : session) : session :=
  {| out := {| closed := closed (out s); client_connected := client_connected (out s);
               frames := frames (out s) ++ [f]; close_calls := close_calls (out s) |};
     handlers := handlers s |}.

Lemma write_sse_event_closed event data id s :
  closed (out s) = true -> write_sse_event event data id s = (s, Returns tt).
Proof. intro H. unfold write_sse_event. now rewrite H. Qed.

Lemma write_sse_event_live event data id s :
  closed (out s) = false -> client_connected (out s) = true ->
  write_sse_event event data id s = (append_frame (sse_frame event data id) s, Returns tt).
Proof.
  intros Hc Hl.
  unfold write_sse_event, rescue, stream_write, append_frame, sse_frame, on_stream.
  rewrite Hc, Hl. reflexivity.
Qed.

Lemma write_sse_event_gone event data id s :
  closed (out s) = false -> client_connected (out s) = false ->
  exists x, write_sse_event event data id s = (s, Fails x)
            /\ Ruby.class x = Ruby.ClientDisconnected
            /\ Ruby.message x = "client disconnected".
Proof.
  intros Hc Hl. unfold write_sse_event, rescue, stream_write, on_stream.
  rewrite Hc, Hl. simpl.
  eexists. split; [destruct s as [o n]; reflexivity|].
  split; reflexivity.
Qed.

(** What [write_sse_event] raises is a [ClientDisconnected]. *)
Lemma write_sse_event_raises event data id s s' x :
  write_sse_event event data id s = (s', Fails x) ->
  s' = s /\ Ruby.class x = Ruby.ClientDisconnected.
Proof.
  intro H.
  destruct (closed (out s)) eqn:Hc.
  - rewrite (write_sse_event_closed _ _ _ _ Hc) in H. discriminate.
  - destruct (client_connected (out s)) eqn:Hl.
    + rewrite (write_sse_event_live _ _ _ _ Hc Hl) in H. discriminate.
    + destruct (write_sse_event_gone event data id s Hc Hl) as (y & E & Hy & _).
      rewrite E in H. inversion H. subst. now split.
Qed.

(** X1: [write_sse_event] writes nothing on a closed stream and returns;
    on an open stream with the client there it appends exactly the one
    frame and returns; on an open stream whose client has gone it changes
    nothing and raises [ClientDisconnected].  It never closes the stream,
    and no [IOError] leaves it: whatever it raises is a
    [ClientDisconnected]. *)
Theorem write_sse_event_outcomes (event : option string) (data : json)
        (id : option string) (s : session) :
  (closed (out s) = true -> write_sse_event event data id s = (s, Returns tt))
  /\ (closed (out s) = false -> client_connected (out s) = true ->
      write_sse_event event data id s
      = (append_frame (sse_frame event data id) s, Returns tt))
  /\ (closed (out s) = false -> client_connected (out s) = false ->
      exists x, write_sse_event event data id s = (s, Fails x)
                /\ Ruby.class x = Ruby.ClientDisconnected)
  /\ closed (out (fst (write_sse_event event data id s))) = closed (out s)
  /\ close_calls (out (fst (write_sse_event event data id s))) = close_calls (out s)
  /\ (forall x, snd (write_sse_event event data id s) = Fails x ->
                Ruby.class x = Ruby.ClientDisconnected
                /\ Ruby.is_a x Ruby.IOError = false).
Proof.
  split; [apply write_sse_event_closed|].
  split; [apply write_sse_event_live|].
  split.
  { intros Hc Hl. destruct (write_sse_event_gone event data id s Hc Hl) as (x & E & Hx & _).
    now exists x. }
  assert (Hcases : write_sse_event event data id s = (s, Returns tt)
                   \/ write_sse_event event data id s
                      = (append_frame (sse_frame event data id) s, Returns tt)
                   \/ exists x, write_sse_event event data id s = (s, Fails x)
                                /\ Ruby.class x = Ruby.ClientDisconnected).
  { destruct (closed (out s)) eqn:Hc.
    - left. now apply write_sse_event_closed.
    - destruct (client_connected (out s)) eqn:Hl.
      + right. left. now apply write_sse_event_live.
      + right. right.
        destruct (write_sse_event_gone event data id s Hc Hl) as (x & E & Hx & _).
        now exists x. }
  destruct Hcases as [E|[E|(x & E & Hx)]]; rewrite E; simpl;
    (split; [reflexivity|split; [reflexivity|]]).
  - intros y Hy. discriminate.
  - intros y Hy. discriminate.
  - intros y Hy. inversion Hy. subst. split; [exact Hx|].
    unfold Ruby.is_a. rewrite Hx. reflexivity.
Qed.

Lemma write_sse_event_outcomes_witness :
  write_sse_event (Some "timeout") (JObj [("message", JStr "Connection timeout")]) None
                  (on_stream stream_close (fresh_session true))
  = (on_stream stream_close (fresh_session true), Returns tt)
  /\ exists x, write_sse_event (Some "timeout")
                 (JObj [("message", JStr "Connection timeout")]) None
                 (fresh_session false)
               = (fresh_session false, Fails x)
               /\ Ruby.class x = Ruby.ClientDisconnected.
Proof.
  split.
  - apply (write_sse_event_outcomes (Some "timeout")
             (JObj [("message", JStr "Connection timeout")]) None
             (on_stream stream_close (fresh_session true))). reflexivity.
  - apply (write_sse_event_outcomes (Some "timeout")
             (JObj [("message", JStr "Connection timeout")]) None
             (fresh_session false)); reflexivity.
Defined.

(** ** Resource queries *)

Definition resource_error_result (resource_uri : string) (x : Ruby.exn) : json :=
  JObj [("error", JStr "Resource query failed");
        ("resource", JStr resource_uri);
        ("message", JStr (Ruby.message x))].

Definition resource_result_frame (e : env) (resource_uri : string) (result : json) : frame :=
  sse_frame (Some "resource_result")
            (JObj [("resource", JStr resource_uri); ("result", result);
                   ("timestamp", JStr (now_iso8601 e))]) None.

Lemma client_disconnected_is_standard x :
  Ruby.class x = Ruby.ClientDisconnected -> Ruby.is_a x Ruby.StandardError = true.
Proof. intro H. unfold Ruby.is_a. rewrite H. reflexivity. Qed.

(** X2: [handle_resource_query] hands every [StandardError] back as a
    hash and raises none.  When the query itself fails, nothing at all is
    written to the stream (there is no error event, unlike for a tool
    call) and the hash carries the exception's message.  When the query
    succeeds on an open stream with the client there, the one
    [resource_result] frame is written and the result returned.  When it
    succeeds but the client has gone, the [ClientDisconnected] of the write
    is caught by the same [rescue]: the caller gets the error hash in place
    of the result and the disconnect does not reach [stream]. *)
Theorem handle_resource_query_contains_standard_errors
        (e : env) (resource_uri : string) (parameters : json)
        (queried : Ruby.result json) (s : session) :
  ToolFacts.standard queried ->
  (exists s' v, handle_resource_query e resource_uri parameters queried s = (s', Returns v))
  /\ (forall x, queried = Fails x ->
        handle_resource_query e resource_uri parameters queried s
        = (s, Returns (resource_error_result resource_uri x)))
  /\ (forall result, queried = Returns result ->
        closed (out s) = false -> client_connected (out s) = true ->
        handle_resource_query e resource_uri parameters queried s
        = (append_frame (resource_result_frame e resource_uri result) s, Returns result))
  /\ (forall result, queried = Returns result ->
        closed (out s) = false -> client_connected (out s) = false ->
        exists x, Ruby.class x = Ruby.ClientDisconnected
                  /\ handle_resource_query e resource_uri parameters queried s
                     = (s, Returns (resource_error_result resource_uri x))).
Proof.
  intro Hstd.
  assert (Hfail : forall x, queried = Fails x ->
            handle_resource_query e resource_uri parameters queried s
            = (s, Returns (resource_error_result resource_uri x))).
  { intros x ->. unfold handle_resource_query, rescue, andthen. simpl.
    rewrite (Hstd x eq_refl). reflexivity. }
  assert (Hlive : forall result, queried = Returns result ->
            closed (out s) = false -> client_connected (out s) = true ->
            handle_resource_query e resource_uri parameters queried s
            = (append_frame (resource_result_frame e resource_uri result) s,
               Returns result)).
  { intros result -> Hc Hl. unfold handle_resource_query, rescue, andthen.
    rewrite (write_sse_event_live _ _ _ _ Hc Hl). reflexivity. }
  assert (Hgone : forall result, queried = Returns result ->
            closed (out s) = false -> client_connected (out s) = false ->
            exists x, Ruby.class x = Ruby.ClientDisconnected
                      /\ handle_resource_query e resource_uri parameters queried s
                         = (s, Returns (resource_error_result resource_uri x))).
  { intros result -> Hc Hl.
    destruct (write_sse_event_gone (Some "resource_result")
                (JObj [("resource", JStr resource_uri); ("result", result);
                       ("timestamp", JStr (now_iso8601 e))]) None s Hc Hl)
      as (x & E & Hx & _).
    exists x. split; [exact Hx|].
    unfold handle_resource_query, rescue, andthen. rewrite E. simpl.
    rewrite (client_disconnected_is_standard x Hx). reflexivity. }
  split; [|split; [exact Hfail|split; [exact Hlive|exact Hgone]]].
  destruct queried as [result|x].
  - destruct (closed (out s)) eqn:Hc.
    + exists s, result. unfold handle_resource_query, rescue, andthen.
      rewrite (write_sse_event_closed _ _ _ _ Hc). reflexivity.
    + destruct (client_connected (out s)) eqn:Hl.
      * eexists; eexists. apply (Hlive result eq_refl); reflexivity.
      * destruct (Hgone result eq_refl eq_refl eq_refl) as (x & _ & E).
        eexists; eexists. exact E.
  - eexists; eexists. apply (Hfail x eq_refl).
Qed.

Definition not_found_error : Ruby.exn :=
  {| Ruby.class := Ruby.ArgumentError; Ruby.message := "unknown resource";
     Ruby.backtrace := [] |}.

Lemma handle_resource_query_contains_standard_errors_witness :
  handle_resource_query env0 "customers://all" (JObj []) (Fails not_found_error)
                        (fresh_session true)
  = (fresh_session true, Returns (resource_error_result "customers://all" not_found_error))
  /\ exists x, Ruby.class x = Ruby.ClientDisconnected
               /\ handle_resource_query env0 "customers://all" (JObj [])
                    (Returns (JArr [])) (fresh_session false)
                  = (fresh_session false,
                     Returns (resource_error_result "customers://all" x)).
Proof.
  split.
  - apply (handle_resource_query_contains_standard_errors env0 "customers://all" (JObj [])
             (Fails not_found_error) (fresh_session true)).
    + intros x Hx. inversion Hx. reflexivity.
    + reflexivity.
  - apply (handle_resource_query_contains_standard_errors env0 "customers://all" (JObj [])
             (Returns (JArr [])) (fresh_session false)) with (result := JArr []).
    + intros x Hx. discriminate Hx.
    + reflexivity.
    + reflexivity.
    + reflexivity.
Defined.

(** ** What [stream] reports and what leaves it *)

(** The body of [def stream], before its [rescue] clauses. *)
Definition stream_body (e : env) (h : FastMcp.script) : M unit :=
  write_sse_event (Some "connected")
    (JObj [("server", JStr "Unified Merchant Operations Platform");
           ("version", JStr "1.0.0");
           ("protocol", JStr "mcp/sse");
           ("timestamp", JStr (now_iso8601 e))]) None ;;;
  create_mcp_handler ;;;
  handle_stream e h.

Definition timeout_frame : frame :=
  sse_frame (Some "timeout") (JObj [("message", JStr "Connection timeout")]) None.

Definition error_frame (e : env) (x : Ruby.exn) : frame :=
  sse_frame (Some "error")
            (JObj [("error", JStr "Internal server error");
                   ("message", JStr (Ruby.message x));
                   ("timestamp", JStr (now_iso8601 e))]) None.

Lemma stream_unfold e h s :
  stream e h s
  = (close_unless_closed
       (fst (rescue (stream_body e h)
               [(Ruby.ClientDisconnected, fun _ => ret tt);
                (Ruby.TimeoutError, fun _ =>
                   write_sse_event (Some "timeout")
                     (JObj [("message", JStr "Connection timeout")]) None);
                (Ruby.StandardError, fun x =>
                   write_sse_event (Some "error")
                     (JObj [("error", JStr "Internal server error");
                            ("message", JStr (Ruby.message x));
                            ("timestamp", JStr (now_iso8601 e))]) None)] s)),
     snd (rescue (stream_body e h)
            [(Ruby.ClientDisconnected, fun _ => ret tt);
             (Ruby.TimeoutError, fun _ =>
                write_sse_event (Some "timeout")
                  (JObj [("message", JStr "Connection timeout")]) None);
             (Ruby.StandardError, fun x =>
                write_sse_event (Some "error")
                  (JObj [("error", JStr "Internal server error");
                         ("message", JStr (Ruby.message x));
                         ("timestamp", JStr (now_iso8601 e))]) None)] s)).
Proof.
  unfold stream, ensure, stream_rescued, stream_body.
  match goal with |- (let (_, _) := ?m in _) = _ => destruct m end.
  reflexivity.
Qed.

(** X3: what can leave [stream].  Every [StandardError] raised under it
    is rescued; the one way a [StandardError] still comes out is a
    [ClientDisconnected] raised by the write of the [timeout] or [error]
    event inside a rescue clause.  Anything else that leaves the action is
    not a [StandardError]. *)
Theorem stream_lets_out (e : env) (h : FastMcp.script) (s : session) (x : Ruby.exn) :
  snd (stream e h s) = Fails x ->
  Ruby.is_a x Ruby.StandardError = false \/ Ruby.class x = Ruby.ClientDisconnected.
Proof.
  rewrite stream_unfold. simpl. unfold rescue.
  destruct (stream_body e h s) as [s1 [[]|y]]; simpl; [discriminate|].
  destruct (Ruby.is_a y Ruby.ClientDisconnected); [discriminate|].
  destruct (Ruby.is_a y Ruby.TimeoutError).
  { intro H. right.
    destruct (write_sse_event (Some "timeout") _ None s1) as [s2 r] eqn:E.
    simpl in H. subst r. now destruct (write_sse_event_raises _ _ _ _ _ _ E). }
  destruct (Ruby.is_a y Ruby.StandardError) eqn:Hstd.
  { intro H. right.
    destruct (write_sse_event (Some "error") _ None s1) as [s2 r] eqn:E.
    simpl in H. subst r. now destruct (write_sse_event_raises _ _ _ _ _ _ E). }
  intro H. inversion H. subst. now left.
Qed.

Lemma stream_lets_out_witness :
  exists x, snd (stream env0 CloseFacts.timed_out (fresh_session true)) = Fails x
            /\ (Ruby.is_a x Ruby.StandardError = false
                \/ Ruby.class x = Ruby.ClientDisconnected).
Proof.
  eexists. split; [reflexivity|].
  apply (stream_lets_out env0 CloseFacts.timed_out (fresh_session true)).
  reflexivity.
Defined.

(** X4: how [stream] reports a fault of the session.  When the body
    raises [Timeout::Error], or any other [StandardError] that is not a
    [ClientDisconnected], while the stream is open and the client there,
    the action writes one last frame, a [timeout] event or an [error] event
    carrying the exception's own message, closes the stream and returns
    normally.  A [ClientDisconnected] ends the action with no further
    frame. *)
Theorem stream_reports_faults (e : env) (h : FastMcp.script) (s s1 : session)
        (x : Ruby.exn) :
  stream_body e h s = (s1, Fails x) ->
  (Ruby.is_a x Ruby.ClientDisconnected = true ->
   stream e h s = (close_unless_closed s1, Returns tt))
  /\ (closed (out s1) = false -> client_connected (out s1) = true ->
      Ruby.is_a x Ruby.ClientDisconnected = false ->
      Ruby.is_a x Ruby.TimeoutError = true ->
      stream e h s = (on_stream stream_close (append_frame timeout_frame s1), Returns tt))
  /\ (closed (out s1) = false -> client_connected (out s1) = true ->
      Ruby.is_a x Ruby.ClientDisconnected = false ->
      Ruby.is_a x Ruby.TimeoutError = false ->
      Ruby.is_a x Ruby.StandardError = true ->
      stream e h s = (on_stream stream_close (append_frame (error_frame e x) s1),
                      Returns tt)).
Proof.
  intro Hb. rewrite stream_unfold. unfold rescue. rewrite Hb. simpl.
  split; [|split].
  - intros ->. reflexivity.
  - intros Hc Hl -> ->.
    unfold timeout_frame.
    rewrite (write_sse_event_live _ _ _ _ Hc Hl). simpl.
    unfold close_unless_closed. simpl. rewrite Hc. reflexivity.
  - intros Hc Hl -> -> ->.
    unfold error_frame.
    rewrite (write_sse_event_live _ _ _ _ Hc Hl). simpl.
    unfold close_unless_closed. simpl. rewrite Hc. reflexivity.
Qed.

(** The handler runs into its idle timeout on a quiet session. *)
Definition idle_timeout : FastMcp.script :=
  {| FastMcp.actions := []; FastMcp.ending := Fails CloseFacts.timeout_error |}.

Lemma stream_reports_faults_witness :
  frames (out (fst (stream env0 idle_timeout (fresh_session true))))
  = [connected_frame env0; timeout_frame]
  /\ snd (stream env0 idle_timeout (fresh_session true)) = Returns tt.
Proof.
  destruct (stream_reports_faults env0 idle_timeout (fresh_session true)
              (fst (stream_body env0 idle_timeout (fresh_session true)))
              CloseFacts.timeout_error eq_refl) as (_ & Htimeout & _).
  rewrite Htimeout; try reflexivity.
  split; reflexivity.
Defined.

(** ** Tool calls whose outcome cannot be delivered *)

Definition tool_result_frame (e : env) (tool_name : string) (result : json) : frame :=
  sse_frame (Some "tool_result")
            (JObj [("tool", JStr tool_name); ("result", result);
                   ("timestamp", JStr (now_iso8601 e))]) None.

(** X6: what [handle_tool_call] does with the outcome of the tool.  On
    an open stream with the client there, a result is written as one
    [tool_result] frame and returned; on a closed stream it is returned
    with nothing written.  When the client has gone, neither a result nor a
    failure can be delivered: the [ClientDisconnected] of the first write is
    caught by [rescue StandardError], whose own write of the [tool_error]
    event raises [ClientDisconnected] again, outside the reach of the
    [rescue]; so the call ends with [ClientDisconnected] whether the tool
    succeeded or failed, and a result the tool produced is dropped. *)
Theorem handle_tool_call_delivers_or_disconnects
        (e : env) (tool_name : string) (parameters : json)
        (executed : Ruby.result json) (s : session) :
  ToolFacts.standard executed ->
  (forall result, executed = Returns result ->
     closed (out s) = false -> client_connected (out s) = true ->
     handle_tool_call e tool_name parameters executed s
     = (append_frame (tool_result_frame e tool_name result) s, Returns result))
  /\ (forall result, executed = Returns result -> closed (out s) = true ->
        handle_tool_call e tool_name parameters executed s = (s, Returns result))
  /\ (closed (out s) = false -> client_connected (out s) = false ->
      exists x, handle_tool_call e tool_name parameters executed s = (s, Fails x)
                /\ Ruby.class x = Ruby.ClientDisconnected).
Proof.
  intro Hstd. split; [|split].
  - intros result -> Hc Hl. unfold handle_tool_call, rescue, andthen.
    unfold tool_result_frame.
    rewrite (write_sse_event_live _ _ _ _ Hc Hl). reflexivity.
  - intros result -> Hc. unfold handle_tool_call, rescue, andthen.
    rewrite (write_sse_event_closed _ _ _ _ Hc). reflexivity.
  - intros Hc Hl.
    destruct (write_sse_event_gone (Some "tool_error")
                (JObj [("error", JStr "Tool execution failed");
                       ("tool", JStr tool_name);
                       ("message", JStr "client disconnected")]) None s Hc Hl)
      as (z & Ez & Hz & _).
    destruct executed as [result|y].
    + destruct (write_sse_event_gone (Some "tool_result")
                  (JObj [("tool", JStr tool_name); ("result", result);
                         ("timestamp", JStr (now_iso8601 e))]) None s Hc Hl)
        as (x & Ex & Hx & Hm).
      exists z. split; [|exact Hz].
      unfold handle_tool_call, rescue, andthen. rewrite Ex. simpl.
      rewrite (client_disconnected_is_standard x Hx), Hm, Ez. reflexivity.
    + destruct (write_sse_event_gone (Some "tool_error")
                  (JObj [("error", JStr "Tool execution failed");
                         ("tool", JStr tool_name);
                         ("message", JStr (Ruby.message y))]) None s Hc Hl)
        as (x & Ex & Hx & _).
      exists x. split; [|exact Hx].
      unfold handle_tool_call, rescue, andthen. simpl.
      rewrite (Hstd y eq_refl), Ex. reflexivity.
Qed.

Lemma handle_tool_call_delivers_or_disconnects_witness :
  exists x,
    handle_tool_call env0 "refund_order" (JObj []) (Returns (JObj [("success", JBool true)]))
                     (fresh_session false)
    = (fresh_session false, Fails x)
    /\ Ruby.class x = Ruby.ClientDisconnected.
Proof.
  apply (handle_tool_call_delivers_or_disconnects env0 "refund_order" (JObj [])
           (Returns (JObj [("success", JBool true)])) (fresh_session false)).
  - intros x Hx. discriminate Hx.
  - reflexivity.
  - reflexivity.
Defined.

End EventFacts.

(* ===================================================================== *)
(** * More on the direct-execution controller *)
(* ===================================================================== *)

Module ExecuteFacts.
Import Rails.

(** The hash [execute] renders from its [rescue] clause in development. *)
Definition failure_body (tool_name : string) (x : Ruby.exn) : json :=
  JObj [("error", JStr "Tool execution failed");
        ("tool", JStr tool_name);
        ("message", JStr (Ruby.message x));
        ("backtrace", JArr (map JStr (firstn 5 (Ruby.backtrace x))))].

Definition json_length (v : option json) : option nat :=
  match v with
  | Some (JArr items) => Some (List.length items)
  | _ => None
  end.

Lemma process_execute_development e reg req tool_name :
  development e = true -> StreamsFacts.credential_ok e req = true ->
  ToolsController.process e reg req (ToolsController.Execute tool_name)
  = ToolsController.execute e reg req tool_name fresh_response.
Proof.
  intros Hdev Hok.
  unfold ToolsController.process, ToolsController.ensure_development_environment.
  rewrite Hdev. simpl. unfold ToolsController.authenticate_mcp_client.
  fold (StreamsFacts.credential_ok e req). rewrite Hok. reflexivity.
Qed.

(** The three keys [execute] removes are not among the parameters. *)
Lemma assoc_except key keys fields :
  In key keys -> assoc key (except keys fields) = None.
Proof.
  intro Hin. unfold except.
  induction fields as [|[k v] rest IH]; simpl; [reflexivity|].
  destruct (existsb (String.eqb k) keys) eqn:Hk; simpl; [exact IH|].
  destruct (String.eqb_spec k key) as [->|_]; [|exact IH].
  assert (Ht : existsb (String.eqb key) keys = true).
  { apply existsb_exists. exists key. split; [exact Hin|apply String.eqb_refl]. }
  congruence.
Qed.

(** Any other key is passed on as the request has it. *)
Lemma assoc_except_other key keys fields :
  ~ In key keys -> assoc key (except keys fields) = assoc key fields.
Proof.
  intro Hout. unfold except.
  induction fields as [|[k v] rest IH]; simpl; [reflexivity|].
  destruct (existsb (String.eqb k) keys) eqn:Hk; simpl.
  - destruct (String.eqb_spec k key) as [->|_]; [|exact IH].
    apply existsb_exists in Hk. destruct Hk as (k' & Hin & Heq).
    apply String.eqb_eq in Heq. subst k'. contradiction.
  - destruct (String.eqb k key); [reflexivity|exact IH].
Qed.

(** X5: the tool of a request that reaches [execute] (development,
    valid credential) runs on the request's parameters without
    [tool_name], [controller] and [action]: none of the three keys reaches
    the tool, every other one does.  When the tool returns, the answer is
    200 and echoes those parameters.  When the tool raises a
    [StandardError], the answer is 500 with the exception's message and the
    first lines of its backtrace, at most five; a tool that raises anything
    else leaves the action with nothing rendered.  Conversely a 500 of this
    controller always comes from that clause and always discloses a
    backtrace array: the [nil] of [Rails.env.development? ? ... : nil]
    cannot be rendered, since outside development the action is not
    reached. *)
Theorem execute_discloses_the_failure
        (e : env) (reg : FastMcp.registry) (req : request) :
  (forall key,
      (In key ["tool_name"; "controller"; "action"] ->
       assoc key (ToolsController.parameters req) = None)
      /\ (~ In key ["tool_name"; "controller"; "action"] ->
          assoc key (ToolsController.parameters req) = assoc key (req_body req)))
  /\ (forall tool_name result,
         development e = true -> StreamsFacts.credential_ok e req = true ->
         FastMcp.execute_tool reg tool_name (ToolsController.parameters req)
         = Returns result ->
         ToolsController.process e reg req (ToolsController.Execute tool_name)
         = (render (JObj [("tool", JStr tool_name);
                          ("parameters", JObj (ToolsController.parameters req));
                          ("result", result);
                          ("executed_at", JStr (now_iso8601 e))]) 200 fresh_response,
            Returns tt))
  /\ (forall tool_name x,
         development e = true -> StreamsFacts.credential_ok e req = true ->
         FastMcp.execute_tool reg tool_name (ToolsController.parameters req) = Fails x ->
         (Ruby.is_a x Ruby.StandardError = true ->
          ToolsController.process e reg req (ToolsController.Execute tool_name)
          = (render (failure_body tool_name x) internal_server_error fresh_response,
             Returns tt))
         /\ (Ruby.is_a x Ruby.StandardError = false ->
             ToolsController.process e reg req (ToolsController.Execute tool_name)
             = (fresh_response, Fails x)))
  /\ (forall a resp r,
         ToolsController.process e reg req a = (resp, r) ->
         status resp = internal_server_error ->
         exists tool_name x n,
           a = ToolsController.Execute tool_name
           /\ development e = true
           /\ FastMcp.execute_tool reg tool_name (ToolsController.parameters req)
              = Fails x
           /\ body resp = Some (failure_body tool_name x)
           /\ json_length (json_field "backtrace" (failure_body tool_name x)) = Some n
           /\ n <= 5).
Proof.
  split; [|split; [|split]].
  - intro key. split.
    + apply assoc_except.
    + apply assoc_except_other.
  - intros tool_name result Hdev Hok Hx.
    rewrite (process_execute_development e reg req tool_name Hdev Hok).
    unfold ToolsController.execute. rewrite Hx. reflexivity.
  - intros tool_name x Hdev Hok Hx.
    rewrite (process_execute_development e reg req tool_name Hdev Hok).
    unfold ToolsController.execute. rewrite Hx.
    split; intros ->; [|reflexivity].
    rewrite Hdev. reflexivity.
  - intros a resp r.
    unfold ToolsController.process, ToolsController.ensure_development_environment.
    destruct (development e) eqn:Hdev; simpl;
      [|intro H; inversion H; subst; simpl; discriminate].
    destruct a as [|tool_name]; simpl.
    { intro H. inversion H. subst. simpl. discriminate. }
    unfold ToolsController.authenticate_mcp_client.
    destruct (_ && _); simpl;
      [|intro H; inversion H; subst; simpl; discriminate].
    unfold ToolsController.execute.
    destruct (FastMcp.execute_tool reg tool_name (ToolsController.parameters req))
      as [v|x] eqn:Hx.
    { intro H. inversion H. subst. simpl. discriminate. }
    destruct (Ruby.is_a x Ruby.StandardError);
      [|intro H; inversion H; subst; simpl; discriminate].
    rewrite Hdev. intro H. inversion H. subst. intros _.
    exists tool_name, x, (List.length (firstn 5 (Ruby.backtrace x))).
    split; [reflexivity|]. split; [reflexivity|]. split; [exact Hx|].
    split; [reflexivity|]. split.
    + simpl. now rewrite length_map.
    + rewrite length_firstn. apply Nat.le_min_l.
Qed.

(** A tool whose [call] fails deep in a library. *)
Definition deep_failure : Ruby.exn :=
  {| Ruby.class := Ruby.RuntimeError; Ruby.message := "Shopify API unreachable";
     Ruby.backtrace := ["a.rb:1"; "b.rb:2"; "c.rb:3"; "d.rb:4"; "e.rb:5"; "f.rb:6";
                        "g.rb:7"] |}.

(** A registry whose tools fail unless they are handed an [action]. *)
Definition failing_registry : FastMcp.registry :=
  {| FastMcp.tools := [];
     FastMcp.execute_tool := fun _ parameters =>
       match assoc "action" parameters with
       | Some _ => Returns JNull
       | None => Fails deep_failure
       end |}.

(** A request whose body names an [action] of its own. *)
Definition refund_request : request :=
  {| req_verb := POST; req_path := ["mcp"; "tools"; "refund_order"];
     x_mcp_api_key := Some "s3cret";
     req_body := [("order_id", JStr "1001"); ("action", JStr "refund")];
     remote_ip := "127.0.0.1" |}.

Lemma execute_discloses_the_failure_witness :
  ToolsController.parameters refund_request = [("order_id", JStr "1001")]
  /\ ToolsController.process StreamsFacts.env0 failing_registry refund_request
       (ToolsController.Execute "refund_order")
     = (render (failure_body "refund_order" deep_failure) internal_server_error
               fresh_response,
        Returns tt)
  /\ json_length (json_field "backtrace" (failure_body "refund_order" deep_failure))
     = Some 5.
Proof.
  split; [reflexivity|]. split; [|reflexivity].
  destruct (execute_discloses_the_failure StreamsFacts.env0 failing_registry
              refund_request) as (_ & _ & H & _).
  apply (H "refund_order" deep_failure); reflexivity.
Defined.

End ExecuteFacts.

(* ===================================================================== *)
(** * More on the refund tool *)
(* ===================================================================== *)

Module RefundFacts.
Import Tools.

Lemma gt_false a b : gt a b = false <-> (a <= b)%Q.
Proof.
  unfold gt. rewrite negb_false_iff. apply Qle_bool_iff.
Qed.

Lemma validate_refund_eligibility_returns c o amount b :
  RefundOrder.validate_refund_eligibility c o amount = Returns b ->
  b = true
  /\ RefundOrder.financial_status o = "paid"
  /\ exists created,
       parse c (RefundOrder.created_at o) = Returns created
       /\ ((current c - created) / day <= inject_Z 30)%Q
       /\ (forall a, amount = Some a -> (a <= RefundOrder.total o)%Q).
Proof.
  unfold RefundOrder.validate_refund_eligibility, Ruby.raise_msg.
  destruct (String.eqb (RefundOrder.financial_status o) "paid") eqn:Hp; simpl;
    [|discriminate].
  apply String.eqb_eq in Hp.
  destruct (parse c (RefundOrder.created_at o)) as [created|x]; simpl; [|discriminate].
  destruct (gt ((current c - created) / day)%Q (inject_Z 30)) eqn:Hage; [discriminate|].
  apply gt_false in Hage.
  destruct amount as [a|].
  - destruct (gt a (RefundOrder.total o)) eqn:Ha; [discriminate|].
    apply gt_false in Ha.
    intro H. inversion H. split; [reflexivity|]. split; [exact Hp|].
    exists created. split; [reflexivity|]. split; [exact Hage|].
    intros a' E. inversion E. subst. exact Ha.
  - intro H. inversion H. split; [reflexivity|]. split; [exact Hp|].
    exists created. split; [reflexivity|]. split; [exact Hage|].
    intros a' E. discriminate.
Qed.

(** X7: a refund goes through only for an order that was found, is
    paid, is at most thirty days old and, when an amount is requested, for
    an amount that does not exceed the order total.  The response that says
    [success: true] reports the amount [process_refund] returned and the
    total of the order that was fetched.  (Nothing bounds the amount from
    below.) *)
Theorem refund_is_validated
        (c : clock) (sh : RefundOrder.shopify) (order_id : string) (amount : option Q)
        (reason : option string) (notify_customer : option bool) (response : json) :
  RefundOrder.call c sh order_id amount reason notify_customer = Returns response ->
  json_field "success" response = Some (JBool true) ->
  exists o created refund,
    RefundOrder.fetch_order sh order_id = Returns (Some o)
    /\ RefundOrder.financial_status o = "paid"
    /\ parse c (RefundOrder.created_at o) = Returns created
    /\ ((current c - created) / day <= inject_Z 30)%Q
    /\ (forall a, amount = Some a -> (a <= RefundOrder.total o)%Q)
    /\ RefundOrder.process_refund sh order_id amount
         (ToolFacts.or_default "customer_request" reason)
         (ToolFacts.or_default true notify_customer) = Returns refund
    /\ json_field "amount_refunded" response = Some (JNum (RefundOrder.amount refund))
    /\ json_field "original_order_total" response = Some (JNum (RefundOrder.total o))
    /\ json_field "order_id" response = Some (JStr order_id).
Proof.
  unfold RefundOrder.call, rescue_standard_error.
  destruct (RefundOrder.call_body c sh order_id amount _ _) as [v|x] eqn:Hbody.
  - intro H. inversion H. subst v. clear H.
    revert Hbody. unfold RefundOrder.call_body, bind.
    destruct (RefundOrder.fetch_order sh order_id) as [[o|]|x] eqn:Hf.
    + destruct (RefundOrder.validate_refund_eligibility c o amount) as [b|x] eqn:Hv;
        [|discriminate].
      destruct (RefundOrder.process_refund sh order_id amount _ _) as [refund|x] eqn:Hr;
        [|discriminate].
      intro H. inversion H. subst response. intros _.
      destruct (validate_refund_eligibility_returns c o amount b Hv)
        as (_ & Hp & created & Hparse & Hage & Hamount).
      exists o, created, refund.
      destruct reason, notify_customer; simpl in *;
        repeat (split; [first [reflexivity | assumption]|]);
        first [reflexivity | assumption].
    + intro H. inversion H. subst response. simpl. discriminate.
    + discriminate.
  - destruct (Ruby.is_a x Ruby.StandardError); [|discriminate].
    intro H. inversion H. subst response. simpl. discriminate.
Qed.

Lemma refund_is_validated_witness :
  exists o created refund,
    RefundOrder.fetch_order (RefundOrder.mock ToolFacts.clock0 "a1b2c3") "1001"
    = Returns (Some o)
    /\ RefundOrder.financial_status o = "paid"
    /\ parse ToolFacts.clock0 (RefundOrder.created_at o) = Returns created
    /\ ((current ToolFacts.clock0 - created) / day <= inject_Z 30)%Q
    /\ (forall a, Some (inject_Z 100) = Some a -> (a <= RefundOrder.total o)%Q)
    /\ RefundOrder.process_refund (RefundOrder.mock ToolFacts.clock0 "a1b2c3") "1001"
         (Some (inject_Z 100))
         (ToolFacts.or_default "customer_request" None)
         (ToolFacts.or_default true None) = Returns refund
    /\ json_field "amount_refunded"
         (JObj [("success", JBool true);
                ("refund_id", JStr "refund_a1b2c3");
                ("order_id", JStr "1001");
                ("amount_refunded", JNum (inject_Z 100));
                ("original_order_total", JNum RefundOrder.mock_total);
                ("reason", JStr "customer_request");
                ("notification_sent", JBool true);
                ("processed_at", JStr "2025-01-01T00:00:00Z")])
       = Some (JNum (RefundOrder.amount refund))
    /\ json_field "original_order_total"
         (JObj [("success", JBool true);
                ("refund_id", JStr "refund_a1b2c3");
                ("order_id", JStr "1001");
                ("amount_refunded", JNum (inject_Z 100));
                ("original_order_total", JNum RefundOrder.mock_total);
                ("reason", JStr "customer_request");
                ("notification_sent", JBool true);
                ("processed_at", JStr "2025-01-01T00:00:00Z")])
       = Some (JNum (RefundOrder.total o))
    /\ json_field "order_id"
         (JObj [("success", JBool true);
                ("refund_id", JStr "refund_a1b2c3");
                ("order_id", JStr "1001");
                ("amount_refunded", JNum (inject_Z 100));
                ("original_order_total", JNum RefundOrder.mock_total);
                ("reason", JStr "customer_request");
                ("notification_sent", JBool true);
                ("processed_at", JStr "2025-01-01T00:00:00Z")])
       = Some (JStr "1001").
Proof.
  apply (refund_is_validated ToolFacts.clock0 (RefundOrder.mock ToolFacts.clock0 "a1b2c3")
           "1001" (Some (inject_Z 100)) None None); reflexivity.
Defined.

(** The response of a refund that went through. *)
Definition success_response (c : clock) (refund_id order_id : string)
           (amount_refunded total : Q) (reason : string) (notify_customer : bool) : json :=
  JObj [("success", JBool true);
        ("refund_id", JStr refund_id);
        ("order_id", JStr order_id);
        ("amount_refunded", JNum amount_refunded);
        ("original_order_total", JNum total);
        ("reason", JStr reason);
        ("notification_sent", JBool notify_customer);
        ("processed_at", JStr (iso8601 c (current c)))].

(** X8: the tool on the stand-ins the source ships for the two Shopify
    calls.  Every order id is found, paid and ten days old, so, provided
    the clock reads the printed creation time back as a time within the
    refund window, a request without amount refunds the full 125.99, a
    request for an amount up to 125.99 refunds that amount, and a request
    for more is refused; [Order not found] cannot occur. *)
Theorem refund_on_the_stand_ins
        (c : clock) (hex order_id : string) (amount : option Q)
        (reason : option string) (notify_customer : option bool) (created : Q) :
  parse c (iso8601 c (current c - inject_Z 10 * day)%Q) = Returns created ->
  ((current c - created) / day <= inject_Z 30)%Q ->
  (forall a, amount = Some a -> (a <= RefundOrder.mock_total)%Q ->
     RefundOrder.call c (RefundOrder.mock c hex) order_id amount reason notify_customer
     = Returns (success_response c ("refund_" ++ hex) order_id a RefundOrder.mock_total
                  (ToolFacts.or_default "customer_request" reason)
                  (ToolFacts.or_default true notify_customer)))
  /\ (amount = None ->
      RefundOrder.call c (RefundOrder.mock c hex) order_id amount reason notify_customer
      = Returns (success_response c ("refund_" ++ hex) order_id RefundOrder.mock_total
                   RefundOrder.mock_total
                   (ToolFacts.or_default "customer_request" reason)
                   (ToolFacts.or_default true notify_customer)))
  /\ (forall a, amount = Some a -> ~ (a <= RefundOrder.mock_total)%Q ->
        RefundOrder.call c (RefundOrder.mock c hex) order_id amount reason notify_customer
        = Returns (RefundOrder.error_response c
                     ("Refund amount ($" ++ show_number c a
                      ++ ") exceeds order total ($"
                      ++ show_number c RefundOrder.mock_total ++ ")")))
  /\ RefundOrder.call c (RefundOrder.mock c hex) order_id amount reason notify_customer
     <> Returns (RefundOrder.error_response c "Order not found").
Proof.
  intros Hparse Hage. apply gt_false in Hage.
  assert (Hcall : RefundOrder.call c (RefundOrder.mock c hex) order_id amount reason
                                   notify_customer
                  = match amount with
                    | Some a =>
                        if gt a RefundOrder.mock_total
                        then Returns (RefundOrder.error_response c
                                        ("Refund amount ($" ++ show_number c a
                                         ++ ") exceeds order total ($"
                                         ++ show_number c RefundOrder.mock_total ++ ")"))
                        else Returns (success_response c ("refund_" ++ hex) order_id a
                                        RefundOrder.mock_total
                                        (ToolFacts.or_default "customer_request" reason)
                                        (ToolFacts.or_default true notify_customer))
                    | None =>
                        Returns (success_response c ("refund_" ++ hex) order_id
                                   RefundOrder.mock_total RefundOrder.mock_total
                                   (ToolFacts.or_default "customer_request" reason)
                                   (ToolFacts.or_default true notify_customer))
                    end).
  { unfold RefundOrder.call, RefundOrder.call_body, RefundOrder.mock,
      RefundOrder.fetch_order_mock, RefundOrder.validate_refund_eligibility. simpl.
    rewrite Hparse. simpl. rewrite Hage.
    destruct amount as [a|]; [destruct (gt a RefundOrder.mock_total) eqn:Ha|];
      destruct reason, notify_customer; reflexivity. }
  rewrite Hcall. split; [|split; [|split]].
  - intros a -> Ha. apply gt_false in Ha. now rewrite Ha.
  - intros ->. reflexivity.
  - intros a -> Ha.
    destruct (gt a RefundOrder.mock_total) eqn:E; [reflexivity|].
    apply gt_false in E. contradiction.
  - destruct amount as [a|]; [destruct (gt a RefundOrder.mock_total)|];
      unfold success_response, RefundOrder.error_response; intro H; inversion H.
Qed.

Lemma refund_on_the_stand_ins_witness :
  RefundOrder.call ToolFacts.clock0 (RefundOrder.mock ToolFacts.clock0 "a1b2c3") "1001"
                   None None (Some false)
  = Returns (success_response ToolFacts.clock0 "refund_a1b2c3" "1001"
               RefundOrder.mock_total RefundOrder.mock_total "customer_request" false).
Proof.
  apply (refund_on_the_stand_ins ToolFacts.clock0 "a1b2c3" "1001" None None (Some false)
           (inject_Z 1735689600 - inject_Z 10 * day)%Q).
  - reflexivity.
  - vm_compute. discriminate.
  - reflexivity.
Defined.

End RefundFacts.

(* ===================================================================== *)
(** * More on the connection manager: retry and shutdown *)
(* ===================================================================== *)

Module ConnectionFacts.
Import McpClient McpClientFacts.

(** No client and no attempt in flight. *)
Definition idle (s : state) : Prop :=
  mcpClient s = None /\ connectionPromise s = None.

(** The state a call of [getMcpClient] leaves behind when it had to start
    attempt [started s] itself. *)
Definition after_attempt (w : sdk) (s : state) : state :=
  let p := started s in
  match initializeMcpClient w p with
  | Returns c =>
      {| mcpClient := Some c; connectionPromise := Some p; started := S p;
         settled := p :: settled s; resumed := p :: resumed s; closed := closed s |}
  | Fails _ =>
      {| mcpClient := None; connectionPromise := None; started := S p;
         settled := p :: settled s; resumed := p :: resumed s; closed := closed s |}
  end.

Lemma getMcpClient_idle w s :
  consistent s -> idle s ->
  getMcpClient w s = (after_attempt w s, initializeMcpClient w (started s)).
Proof.
  intros (H1 & H2 & _ & _) [Hc Hp].
  unfold getMcpClient, call. rewrite Hc, Hp.
  assert (Hns : mem (started s) (settled s) = false).
  { apply mem_false. intro Hin. apply H1 in Hin. lia. }
  assert (Hnr : mem (started s) (resumed s) = false).
  { apply mem_false. intro Hin. apply H2, H1 in Hin. lia. }
  unfold settle. simpl.
  assert (Hlt : Nat.ltb (started s) (S (started s)) = true) by (apply Nat.ltb_lt; lia).
  rewrite Hlt, Hns. simpl.
  unfold resume. simpl. rewrite Nat.eqb_refl. simpl. rewrite Hnr. simpl.
  unfold after_attempt.
  destruct (initializeMcpClient w (started s)); reflexivity.
Qed.

(** What [initializeMcpClient] throws: the missing-key [Error], or an
    [Error] whose message is the fixed prefix followed by the cause as the
    template renders it. *)
Lemma initializeMcpClient_message w p e :
  initializeMcpClient w p = Fails e ->
  (attempts w p = ApiKeyMissing
   /\ e = Js.new_Error "MCP_API_KEY environment variable is required")
  \/ exists cause,
       (attempts w p = ConnectFails cause \/ attempts w p = ListToolsFails cause)
       /\ e = Js.new_Error ("Failed to connect to MCP server: " ++ Js.to_string cause).
Proof.
  unfold initializeMcpClient, Js.throw.
  destruct (attempts w p) as [|cause|cause|tools]; intro H; inversion H.
  - left. split; reflexivity.
  - right. exists cause. split; [now left|reflexivity].
  - right. exists cause. split; [now right|reflexivity].
Qed.

(** X9: a failed connection attempt is not remembered.  When
    [getMcpClient] is called with no client and no attempt in flight and
    the attempt it starts fails, the call throws that attempt's error, and
    leaves the module with no client and no promise; the next call
    therefore starts a new attempt, and returns its client when that one
    succeeds.  The error thrown is an [Error]: the missing-key one, or,
    when [connect] or the first [listTools] rejected, one whose message is
    [Failed to connect to MCP server: ] followed by the cause as the
    template renders it, which for a cause with a name and a message is
    [name: message] ([TypeError: fetch failed], [McpError: ...]). *)
Theorem failed_attempt_is_retried (w : sdk) (s : state) :
  consistent s -> idle s -> fails w (started s) ->
  exists e s1,
    getMcpClient w s = (s1, Fails e)
    /\ idle s1
    /\ started s1 = S (started s)
    /\ Js.name e = "Error"
    /\ ((attempts w (started s) = ApiKeyMissing
         /\ Js.message e = "MCP_API_KEY environment variable is required")
        \/ exists cause,
             (attempts w (started s) = ConnectFails cause
              \/ attempts w (started s) = ListToolsFails cause)
             /\ Js.message e
                = "Failed to connect to MCP server: " ++ Js.to_string cause
             /\ (Js.name cause <> EmptyString -> Js.message cause <> EmptyString ->
                 Js.message e
                 = "Failed to connect to MCP server: "
                   ++ Js.name cause ++ ": " ++ Js.message cause))
    /\ (succeeds w (S (started s)) ->
        exists s2, getMcpClient w s1 = (s2, Returns (S (started s)))
                   /\ mcpClient s2 = Some (S (started s))).
Proof.
  intros Hcons Hidle [e He].
  exists e, (after_attempt w s).
  assert (Hs1 : after_attempt w s
                = {| mcpClient := None; connectionPromise := None;
                     started := S (started s); settled := started s :: settled s;
                     resumed := started s :: resumed s; closed := closed s |}).
  { unfold after_attempt. now rewrite He. }
  split; [rewrite (getMcpClient_idle w s Hcons Hidle); now rewrite He|].
  split; [rewrite Hs1; now split|].
  split; [rewrite Hs1; reflexivity|].
  split; [|split].
  - destruct (initializeMcpClient_message w _ e He) as [[_ ->]|(cause & _ & ->)];
      reflexivity.
  - destruct (initializeMcpClient_message w _ e He) as [[Ha ->]|(cause & Ha & ->)].
    + left. split; [exact Ha|reflexivity].
    + right. exists cause. split; [exact Ha|]. split; [reflexivity|].
      intros Hn Hm. simpl. now rewrite (@to_string_named cause Hn Hm).
  - intro Hok.
    assert (Hcons1 : consistent (after_attempt w s)).
    { pose proof (@consistent_getMcpClient w s Hcons) as Hc.
      rewrite (getMcpClient_idle w s Hcons Hidle) in Hc. exact Hc. }
    assert (Hidle1 : idle (after_attempt w s)) by (rewrite Hs1; now split).
    exists (after_attempt w (after_attempt w s)).
    rewrite (getMcpClient_idle w _ Hcons1 Hidle1).
    assert (Hst : started (after_attempt w s) = S (started s)) by now rewrite Hs1.
    rewrite Hst. unfold succeeds in Hok. rewrite Hok. split; [reflexivity|].
    unfold after_attempt at 1. rewrite Hst, Hok. reflexivity.
Qed.

(** The server cannot be reached on the first attempt ([fetch] rejects
    with a [TypeError]); the second attempt goes through. *)
Definition unreachable_at_first : sdk :=
  {| attempts := fun p => match p with
                          | 0 => ConnectFails {| Js.name := "TypeError";
                                                 Js.message := "fetch failed" |}
                          | _ => Connects []
                          end;
     listTools := fun _ => Returns [];
     close := fun _ => Returns tt |}.

Lemma failed_attempt_is_retried_witness :
  exists s1 s2,
    getMcpClient unreachable_at_first initial
    = (s1, Fails (Js.new_Error
                    "Failed to connect to MCP server: TypeError: fetch failed"))
    /\ idle s1
    /\ getMcpClient unreachable_at_first s1 = (s2, Returns 1)
    /\ mcpClient s2 = Some 1.
Proof.
  destruct (failed_attempt_is_retried unreachable_at_first initial)
    as (e & s1 & Hget & Hidle & _ & Hname & Hmsg & Hnext).
  - apply consistent_initial.
  - split; reflexivity.
  - eexists. reflexivity.
  - destruct (Hnext eq_refl) as (s2 & H2 & Hc).
    exists s1, s2. split; [|split; [exact Hidle|split; [exact H2|exact Hc]]].
    rewrite Hget. vm_compute in Hget. inversion Hget. reflexivity.
Defined.

(** The state after a [closeMcpClient] that went through on client [c]. *)
Definition after_close (c : Client) (s : state) : state :=
  {| mcpClient := None; connectionPromise := None; started := started s;
     settled := settled s; resumed := resumed s; closed := c :: closed s |}.

(** X10: shutdown.  [closeMcpClient] resets both module variables only
    after [mcpClient.close()] has come back, so the next [getMcpClient]
    starts a fresh attempt.  When [close()] throws, the throw leaves
    [closeMcpClient] and neither variable is reset: the module keeps handing
    out the very client on which [close()] was called, and a second
    [closeMcpClient] calls [close()] on it again. *)
Theorem close_resets_unless_it_throws (w : sdk) (s : state) (c : Client) :
  mcpClient s = Some c ->
  (close w c = Returns tt ->
   closeMcpClient w s = (after_close c s, Returns tt)
   /\ (consistent s ->
       getMcpClient w (after_close c s)
       = (after_attempt w (after_close c s), initializeMcpClient w (started s))))
  /\ (forall e, close w c = Fails e ->
        exists s1,
          closeMcpClient w s = (s1, Fails e)
          /\ mcpClient s1 = Some c
          /\ connectionPromise s1 = connectionPromise s
          /\ closed s1 = c :: closed s
          /\ getMcpClient w s1 = (s1, Returns c)
          /\ closed (fst (closeMcpClient w s1)) = c :: c :: closed s).
Proof.
  intro Hc. split.
  - intro Hclose. split.
    + unfold closeMcpClient. now rewrite Hc, Hclose.
    + intro Hcons.
      apply (getMcpClient_idle w (after_close c s)); [|split; reflexivity].
      destruct Hcons as (H1 & H2 & H3 & H4).
      repeat split; simpl; auto; discriminate.
  - intros e Hclose. eexists. split; [|split; [|split; [|split; [|split]]]].
    + unfold closeMcpClient. rewrite Hc, Hclose. reflexivity.
    + reflexivity.
    + reflexivity.
    + reflexivity.
    + apply (@getMcpClient_connected w _ c). reflexivity.
    + unfold closeMcpClient. simpl. rewrite Hclose. reflexivity.
Qed.

(** A server that goes away before the client is shut down: [close()]
    rejects. *)
Definition unresponsive : sdk :=
  {| attempts := fun _ => Connects [];
     listTools := fun _ => Returns [];
     close := fun _ => Fails (Js.new_Error "SSE connection lost") |}.

Definition connected0 : state := fst (getMcpClient unresponsive initial).

Lemma close_resets_unless_it_throws_witness :
  exists s1,
    closeMcpClient unresponsive connected0
    = (s1, Fails (Js.new_Error "SSE connection lost"))
    /\ mcpClient s1 = Some 0
    /\ connectionPromise s1 = connectionPromise connected0
    /\ closed s1 = 0 :: closed connected0
    /\ getMcpClient unresponsive s1 = (s1, Returns 0)
    /\ closed (fst (closeMcpClient unresponsive s1)) = 0 :: 0 :: closed connected0.
Proof.
  apply (close_resets_unless_it_throws unresponsive connected0 0); reflexivity.
Defined.

End ConnectionFacts.

(* ===================================================================== *)
(** * More on the agentic loop: what goes to the model, what comes back *)
(* ===================================================================== *)

Module ConversationFacts.
Import McpClient GeminiClient GeminiFacts.

(** The [Content] a message of the history becomes. *)
Definition content_of (msg : Message) : Content :=
  {| content_role := match role msg with
                     | assistant | model => "model"
                     | user => "user"
                     end;
     parts := [{| text := Some (content_text msg);
                  functionCall := None;
                  functionResponse := None |}] |}.

Definition request_of (messages : list Message) : ChatRequest :=
  {| messages := messages; systemPrompt := None; maxToolCalls := None |}.

Lemma last_map_Some {A} (l : list A) (a : A) :
  last (map Some (l ++ [a])) None = Some a.
Proof.
  induction l as [|x rest IH]; [reflexivity|].
  simpl. destruct (map Some (rest ++ [a])) eqn:E.
  - destruct rest; discriminate.
  - exact IH.
Qed.

Lemma latestMessage_snoc request h m :
  messages request = (h ++ [m])%list -> latestMessage request = Some m.
Proof. intro H. unfold latestMessage. rewrite H. apply last_map_Some. Qed.

Lemma chat_history_snoc request h m :
  messages request = (h ++ [m])%list -> chat_history request = map content_of h.
Proof.
  intro H. unfold chat_history. rewrite H, removelast_last. reflexivity.
Qed.

Lemma removelast_length {A} (l : list A) :
  List.length (removelast l) = List.length l - 1.
Proof.
  destruct l as [|x rest]; [reflexivity|].
  destruct (@exists_last A (x :: rest)) as (h & m & E); [discriminate|].
  rewrite E, removelast_last, length_app. simpl. lia.
Qed.

(** X11: the history handed to [startChat] is the conversation without
    its last message, one [Content] per message and in order, each with the
    message text as its single part; the only roles that reach Gemini are
    [user] and [model] ([assistant] is renamed).  The message sent first is
    the last one of the conversation. *)
Theorem history_is_all_but_the_latest (request : ChatRequest) :
  List.length (chat_history request) = List.length (messages request) - 1
  /\ (forall c, In c (chat_history request) ->
                (content_role c = "user" \/ content_role c = "model")
                /\ exists t, parts c = [{| text := Some t; functionCall := None;
                                           functionResponse := None |}])
  /\ (forall h m, messages request = (h ++ [m])%list ->
                  chat_history request = map content_of h
                  /\ latestMessage request = Some m)
  /\ (messages request = [] ->
      chat_history request = [] /\ latestMessage request = None).
Proof.
  split; [|split; [|split]].
  - unfold chat_history. rewrite length_map. apply removelast_length.
  - intros c Hin. unfold chat_history in Hin. apply in_map_iff in Hin.
    destruct Hin as (msg & <- & _). simpl. split.
    + destruct (role msg); auto.
    + eexists. reflexivity.
  - intros h m H. split; [now apply chat_history_snoc with m | now apply latestMessage_snoc with h].
  - intro H. unfold chat_history, latestMessage. rewrite H. split; reflexivity.
Qed.

(** X12: the function declarations handed to Gemini follow the tool
    listing of the MCP server: one per tool, in the order listed and under
    the same name, with an empty description, no properties and no required
    parameters where the listing leaves them out.  With an empty listing
    the model is configured with no [tools] at all, and the system
    instruction is the default prompt unless the request brings one. *)
Theorem declarations_follow_the_listing (w : world) (request : ChatRequest)
        (mcpTools : list McpTool) :
  map fd_name (convertMcpToolsToGeminiFunctions mcpTools) = map name mcpTools
  /\ List.length (convertMcpToolsToGeminiFunctions mcpTools) = List.length mcpTools
  /\ (forall i tool, nth_error mcpTools i = Some tool ->
        exists d, nth_error (convertMcpToolsToGeminiFunctions mcpTools) i = Some d
                  /\ fd_name d = name tool
                  /\ (description tool = None -> fd_description d = "")
                  /\ (properties (inputSchema tool) = None -> fd_properties d = JObj [])
                  /\ (required (inputSchema tool) = None -> fd_required d = []))
  /\ (tools (model_params w request mcpTools) = None <-> mcpTools = [])
  /\ (forall ds, tools (model_params w request mcpTools) = Some ds ->
                 ds = convertMcpToolsToGeminiFunctions mcpTools)
  /\ (systemPrompt request = None ->
      systemInstruction (model_params w request mcpTools) = DEFAULT_SYSTEM_PROMPT w).
Proof.
  split; [|split; [|split; [|split; [|split]]]].
  - unfold convertMcpToolsToGeminiFunctions. rewrite map_map. reflexivity.
  - apply length_map.
  - intros i tool Hi. unfold convertMcpToolsToGeminiFunctions.
    rewrite nth_error_map, Hi. simpl. eexists. split; [reflexivity|]. simpl.
    split; [reflexivity|].
    split; [intros ->; reflexivity|].
    split; intros ->; reflexivity.
  - unfold model_params. simpl.
    unfold convertMcpToolsToGeminiFunctions. rewrite length_map.
    destruct mcpTools as [|t rest]; simpl; split; intro H; try reflexivity; discriminate.
  - unfold model_params. simpl.
    destruct (Nat.ltb 0 _); intros ds H; inversion H; reflexivity.
  - intro H. unfold model_params. simpl. now rewrite H.
Qed.

(** ** The shape of every response *)

Lemma limit_message_not_empty : limit_message <> "".
Proof. discriminate. Qed.

Lemma final_text_not_empty candidate : final_text candidate <> "".
Proof.
  unfold final_text.
  destruct (String.eqb _ "") eqn:E.
  - discriminate.
  - now apply String.eqb_neq in E.
Qed.

Lemma loop_response_shape w params history max : forall st r,
  outcome_of (agentic_loop w params history max st) = Responded r ->
  r = respond (message r) (final (agentic_loop w params history max st))
  /\ message r <> "".
Proof.
  apply (agentic_loop_induction w params history max
           (fun st run => forall r, outcome_of run = Responded r ->
                                    r = respond (message r) (final run)
                                    /\ message r <> "")).
  - intros st _ r H. inversion H. simpl. split; [reflexivity|].
    apply limit_message_not_empty.
  - intros st st' r _ Eb r' H. inversion H. subst r'. simpl.
    destruct (loop_body_return w params history st st' r Eb)
      as (Hr & response & _ & [[_ Hm]|(candidate & _ & _ & Hm)]).
    + split; [exact Hr|]. rewrite Hm. discriminate.
    + split; [exact Hr|]. rewrite Hm. apply final_text_not_empty.
  - intros st st' e _ _ r H. discriminate.
  - intros st st' _ _ r H. discriminate.
  - intros st st' _ _ IH r H. now apply IH.
Qed.

(** X13: every response [sendMessageToGemini] returns, on whichever of
    its three return paths, has a message that is not the empty string, a
    [totalTokens] that is the sum of the two counters, and carries exactly
    the tool call records and the iteration count the run ended with. *)
Theorem every_response_is_well_formed (w : world) (conn : McpClient.state)
        (request : ChatRequest) (r : ChatResponse) :
  outcome_of (sendMessageToGemini w conn request) = Responded r ->
  message r <> ""
  /\ totalTokens (usage r) = (inputTokens (usage r) + outputTokens (usage r))%Z
  /\ toolCalls r = toolCallRecords (final (sendMessageToGemini w conn request))
  /\ iterations r = iteration_count (final (sendMessageToGemini w conn request))
  /\ inputTokens (usage r) = totalInputTokens (final (sendMessageToGemini w conn request))
  /\ outputTokens (usage r) = totalOutputTokens (final (sendMessageToGemini w conn request)).
Proof.
  unfold sendMessageToGemini.
  destruct (listMcpTools (mcp w) conn) as [conn1 [mcpTools|e]]; [|discriminate].
  destruct (latestMessage request) as [[[| |] latest]|]; try discriminate.
  destruct (startChat w _ _); [|discriminate].
  intro H.
  destruct (loop_response_shape w _ _ _ _ r H) as [Hr Hm].
  split; [exact Hm|]. rewrite Hr. simpl. repeat split.
Qed.

Lemma every_response_is_well_formed_witness :
  exists r,
    outcome_of (sendMessageToGemini insatiable McpClient.initial (ask "refund 1001" (Some 3%Z)))
    = Responded r
    /\ message r <> ""
    /\ totalTokens (usage r) = (inputTokens (usage r) + outputTokens (usage r))%Z.
Proof.
  eexists. split; [reflexivity|].
  destruct (every_response_is_well_formed insatiable McpClient.initial
              (ask "refund 1001" (Some 3%Z)) _ eq_refl) as (Hm & Ht & _).
  split; [exact Hm | exact Ht].
Defined.

(** ** Requests that never reach the model *)

Definition ends_with_user (request : ChatRequest) : bool :=
  match latestMessage request with
  | Some {| role := user |} => true
  | _ => false
  end.

(** X14: the conversation is checked only after the tools have been
    listed.  For a request whose conversation is empty or does not end with
    a user message, a failure to connect or to list the tools is what the
    caller sees; otherwise the call throws [Last message must be from user].
    Either way nothing is sent to the model, but the connection to the MCP
    server has been made by then. *)
Theorem conversation_is_checked_after_listing (w : world) (conn : McpClient.state)
        (request : ChatRequest) :
  ends_with_user request = false ->
  (forall conn1 e, listMcpTools (mcp w) conn = (conn1, Fails e) ->
     outcome_of (sendMessageToGemini w conn request) = Thrown e)
  /\ (forall conn1 mcpTools, listMcpTools (mcp w) conn = (conn1, Returns mcpTools) ->
        outcome_of (sendMessageToGemini w conn request)
        = Thrown (Js.new_Error "Last message must be from user")
        /\ connection (final (sendMessageToGemini w conn request)) = conn1
        /\ (McpClientFacts.consistent conn -> exists c, mcpClient conn1 = Some c))
  /\ sent (final (sendMessageToGemini w conn request)) = [].
Proof.
  intro Hbad. unfold ends_with_user in Hbad.
  split; [|split].
  - intros conn1 e Hl. unfold sendMessageToGemini. now rewrite Hl.
  - intros conn1 mcpTools Hl. unfold sendMessageToGemini. rewrite Hl.
    split; [|split].
    + destruct (latestMessage request) as [[[| |] latest]|]; try reflexivity; discriminate.
    + destruct (latestMessage request) as [[[| |] latest]|]; try reflexivity; discriminate.
    + intro Hcons. exact (listMcpTools_connects w conn conn1 mcpTools Hcons Hl).
  - unfold sendMessageToGemini.
    destruct (listMcpTools (mcp w) conn) as [conn1 [mcpTools|e]]; [|reflexivity].
    destruct (latestMessage request) as [[[| |] latest]|]; try reflexivity; discriminate.
Qed.

Lemma conversation_is_checked_after_listing_witness :
  outcome_of (sendMessageToGemini chatty McpClient.initial (request_of []))
  = Thrown (Js.new_Error "Last message must be from user")
  /\ sent (final (sendMessageToGemini chatty McpClient.initial (request_of []))) = [].
Proof.
  destruct (conversation_is_checked_after_listing chatty McpClient.initial (request_of [])
              eq_refl) as (_ & Hlisted & Hsent).
  split; [|exact Hsent].
  eapply Hlisted. reflexivity.
Defined.

(** X15: a ceiling of zero or less.  The loop guard fails at once: the
    tools are listed and the chat is started, but no message is sent to the
    model, and the caller gets the limit message with zero iterations, no
    tool calls and zero usage. *)
Theorem no_round_trip_under_a_zero_ceiling (w : world) (conn conn1 : McpClient.state)
        (request : ChatRequest) (mcpTools : list McpTool) (latest : string) :
  (ceiling request <= 0)%Z ->
  listMcpTools (mcp w) conn = (conn1, Returns mcpTools) ->
  latestMessage request = Some {| role := user; content_text := latest |} ->
  startChat w (model_params w request mcpTools) (chat_history request) = Returns tt ->
  sendMessageToGemini w conn request
  = {| final := entry conn1 latest;
       outcome_of := Responded {| message := limit_message;
                                  toolCalls := [];
                                  usage := {| inputTokens := 0; outputTokens := 0;
                                              totalTokens := 0 |};
                                  iterations := 0 |} |}.
Proof.
  intros Hceil Hl Hlatest Hstart.
  unfold sendMessageToGemini. rewrite Hl, Hlatest, Hstart.
  rewrite agentic_loop_unfold.
  destruct (Z_lt_dec (iteration_count (entry conn1 latest)) (ceiling request)) as [Hlt|_].
  - simpl in Hlt. lia.
  - reflexivity.
Qed.

Lemma no_round_trip_under_a_zero_ceiling_witness :
  outcome_of (sendMessageToGemini insatiable McpClient.initial (ask "refund 1001" (Some 0%Z)))
  = Responded {| message := limit_message;
                 toolCalls := [];
                 usage := {| inputTokens := 0; outputTokens := 0; totalTokens := 0 |};
                 iterations := 0 |}.
Proof.
  rewrite (no_round_trip_under_a_zero_ceiling insatiable McpClient.initial
             (fst (listMcpTools (mcp insatiable) McpClient.initial))
             (ask "refund 1001" (Some 0%Z)) [] "refund 1001").
  - reflexivity.
  - unfold ceiling. simpl. lia.
  - reflexivity.
  - reflexivity.
  - reflexivity.
Defined.

End ConversationFacts.

(* ===================================================================== *)
(** * Properties of the chat route *)
(* ===================================================================== *)

Module ChatRouteFacts.
Import McpClient GeminiClient GeminiFacts ChatRoute.

(** X16: what the chat action turns away, and how.  Any method other
    than POST is answered 405 without the body being read; a body that
    cannot be read is a 500, not a 400; a message that is missing, is not a
    string, is empty or trims to nothing is a 400.  None of these requests
    touches the MCP connection or the model, and the 400 does not depend on
    the conversation history sent along. *)
Theorem action_turns_away (rt : runtime) (w : world) (conn : McpClient.state)
        (request : Request) :
  (method request <> "POST" ->
   action rt w conn request
   = (conn, Fulfilled {| status := 405; payload := MethodNotAllowed |}))
  /\ (forall error, method request = "POST" -> parsed request = Fails error ->
        action rt w conn request
        = (conn, Fulfilled {| status := 500;
                              payload := Failure (Js.message error)
                                ("Sorry, I encountered an error processing your request. "
                                 ++ "Please try again.") |}))
  /\ (forall body, method request = "POST" -> parsed request = Returns body ->
        (body_message body = None
         \/ (exists v, body_message body = Some v /\ forall s, v <> JStr s)
         \/ body_message body = Some (JStr "")
         \/ (exists s, body_message body = Some (JStr s) /\ trim rt s = "")) ->
        action rt w conn request
        = (conn, Fulfilled {| status := 400; payload := Invalid "Message is required" |}))
  /\ (forall resp, snd (action rt w conn request) = Fulfilled resp ->
        status resp = 405 \/ status resp = 400 ->
        fst (action rt w conn request) = conn).
Proof.
  split; [|split; [|split]].
  - intro Hm. unfold action.
    destruct (String.eqb (method request) "POST") eqn:E; [|reflexivity].
    apply String.eqb_eq in E. contradiction.
  - intros error Hm Hp. unfold action. rewrite Hm, Hp. reflexivity.
  - intros body Hm Hp Hbad. unfold action. rewrite Hm, Hp. simpl.
    assert (Hv : valid_message rt (body_message body) = None).
    { destruct Hbad as [H|[(v & H & Hv)|[H|(s & H & Hs)]]]; rewrite H; simpl.
      - reflexivity.
      - destruct v; try reflexivity. elim (Hv s). reflexivity.
      - reflexivity.
      - destruct (String.eqb s ""); [reflexivity|]. rewrite Hs. reflexivity. }
    rewrite Hv. reflexivity.
  - intros resp. unfold action.
    destruct (negb (String.eqb (method request) "POST")); [reflexivity|].
    destruct (parsed request) as [body|error]; [|reflexivity].
    destruct (valid_message rt (body_message body)) as [message|]; [|reflexivity].
    simpl.
    destruct (outcome_of _) as [response|error|]; intro H; inversion H; subst; simpl;
      intros [Hs|Hs]; discriminate.
Qed.

(** A runtime whose [trim] strips the blanks of a string of blanks. *)
Definition runtime0 : runtime :=
  {| trim := fun s => if Ruby.blank s then "" else s;
     now := "2025-01-01T00:00:00.000Z" |}.

Lemma action_turns_away_witness :
  action runtime0 chatty McpClient.initial
         {| method := "GET"; parsed := Js.throw "Unexpected end of JSON input" |}
  = (McpClient.initial, Fulfilled {| status := 405; payload := MethodNotAllowed |})
  /\ action runtime0 chatty McpClient.initial
            {| method := "POST";
               parsed := Returns {| body_message := Some (JStr "   ");
                                    conversationHistory := None |} |}
     = (McpClient.initial,
        Fulfilled {| status := 400; payload := Invalid "Message is required" |}).
Proof.
  split.
  - apply (action_turns_away runtime0 chatty McpClient.initial
             {| method := "GET"; parsed := Js.throw "Unexpected end of JSON input" |}).
    discriminate.
  - apply (action_turns_away runtime0 chatty McpClient.initial
             {| method := "POST";
                parsed := Returns {| body_message := Some (JStr "   ");
                                     conversationHistory := None |} |})
      with (body := {| body_message := Some (JStr "   "); conversationHistory := None |}).
    + reflexivity.
    + reflexivity.
    + right. right. right. exists "   ". split; reflexivity.
Defined.

(** The conversation the action hands to [sendMessageToGemini]. *)
Definition conversation (history : option (list Message)) (message : string)
  : ChatRequest :=
  {| messages := ((match history with Some h => h | None => [] end)
                  ++ [{| role := user; content_text := message |}])%list;
     systemPrompt := None;
     maxToolCalls := None |}.

Lemma valid_message_string rt v message :
  valid_message rt v = Some message ->
  v = Some (JStr message) /\ message <> "" /\ trim rt message <> "".
Proof.
  unfold valid_message. destruct v as [[| | |s| |]|]; try discriminate.
  destruct (String.eqb s "") eqn:E1; [discriminate|].
  destruct (Nat.eqb (String.length (trim rt s)) 0) eqn:E2; [discriminate|].
  intro H. inversion H. subst. split; [reflexivity|]. split.
  - now apply String.eqb_neq in E1.
  - intro Ht. rewrite Ht in E2. discriminate.
Qed.

(** X17: a chat request that gets past the checks.  The action sends
    the conversation history followed by the new message as a user message,
    with no system prompt and no ceiling of its own, so the run uses the
    default prompt and the ceiling of ten: at most ten messages go to the
    model for one chat request.  The run cannot fail for a conversation
    that does not end with a user message.  What the run returns is answered
    200 with its message, tool calls and usage; whatever it throws is
    answered 500 with the error's message; the action itself never
    rejects. *)
Theorem chat_request_runs_the_loop (rt : runtime) (w : world) (conn : McpClient.state)
        (request : Request) (body : ChatActionRequest) (message : string) :
  method request = "POST" ->
  parsed request = Returns body ->
  valid_message rt (body_message body) = Some message ->
  let run := sendMessageToGemini w conn (conversation (conversationHistory body) message) in
  fst (action rt w conn request) = connection (final run)
  /\ (forall response, outcome_of run = Responded response ->
        snd (action rt w conn request)
        = Fulfilled {| status := 200;
                       payload := Success (GeminiClient.message response)
                                          (toolCalls response) (usage response) |})
  /\ (forall error, outcome_of run = Thrown error ->
        snd (action rt w conn request)
        = Fulfilled {| status := 500;
                       payload := Failure (Js.message error)
                         ("Sorry, I encountered an error processing your request. "
                          ++ "Please try again.") |})
  /\ (forall e, snd (action rt w conn request) <> Rejected e)
  /\ ceiling (conversation (conversationHistory body) message) = 10%Z
  /\ (Z.of_nat (List.length (sent (final run))) <= 10)%Z
  /\ latestMessage (conversation (conversationHistory body) message)
     = Some {| role := user; content_text := message |}
  /\ (forall conn1 mcpTools,
        listMcpTools (mcp w) conn = (conn1, Returns mcpTools) ->
        systemInstruction
          (model_params w (conversation (conversationHistory body) message) mcpTools)
        = DEFAULT_SYSTEM_PROMPT w
        /\ (startChat w (model_params w (conversation (conversationHistory body) message)
                                      mcpTools)
                      (map ConversationFacts.content_of
                           (match conversationHistory body with
                            | Some h => h
                            | None => []
                            end)) = Returns tt ->
            run = agentic_loop w
                    (model_params w (conversation (conversationHistory body) message)
                                  mcpTools)
                    (map ConversationFacts.content_of
                         (match conversationHistory body with
                          | Some h => h
                          | None => []
                          end))
                    10 (entry conn1 message))).
Proof.
  intros Hm Hp Hv run.
  assert (Hact : action rt w conn request
                 = (connection (final run),
                    match outcome_of run with
                    | Responded response =>
                        Fulfilled {| status := 200;
                                     payload := Success (GeminiClient.message response)
                                                        (toolCalls response)
                                                        (usage response) |}
                    | Thrown error => Fulfilled (error_response error)
                    | Suspended => Pending
                    end)).
  { unfold action. rewrite Hm, Hp. simpl. rewrite Hv. reflexivity. }
  assert (Hlatest : latestMessage (conversation (conversationHistory body) message)
                    = Some {| role := user; content_text := message |}).
  { apply ConversationFacts.latestMessage_snoc
      with (h := match conversationHistory body with Some h => h | None => [] end).
    reflexivity. }
  assert (Hhistory : chat_history (conversation (conversationHistory body) message)
                     = map ConversationFacts.content_of
                           (match conversationHistory body with
                            | Some h => h
                            | None => []
                            end)).
  { apply ConversationFacts.chat_history_snoc
      with (m := {| role := user; content_text := message |}).
    reflexivity. }
  rewrite Hact. simpl.
  split; [reflexivity|].
  split; [intros response ->; reflexivity|].
  split; [intros error ->; reflexivity|].
  split; [intros e; destruct (outcome_of run); discriminate|].
  split; [reflexivity|].
  split.
  { subst run. unfold sendMessageToGemini.
    destruct (listMcpTools (mcp w) conn) as [conn1 [mcpTools|e]]; [|simpl; lia].
    rewrite Hlatest.
    destruct (startChat w _ _); [|simpl; lia].
    destruct (loop_bounded w
                (model_params w (conversation (conversationHistory body) message) mcpTools)
                (chat_history (conversation (conversationHistory body) message))
                (ceiling (conversation (conversationHistory body) message))
                (entry conn1 message)) as (Hlen & Hle & _).
    - unfold ceiling. simpl. lia.
    - reflexivity.
    - rewrite Hlen. exact Hle. }
  split; [exact Hlatest|].
  intros conn1 mcpTools Hl. split; [reflexivity|].
  intro Hstart. subst run. unfold sendMessageToGemini.
  rewrite Hl, Hlatest, Hhistory, Hstart. reflexivity.
Qed.

Definition greeting : Request :=
  {| method := "POST";
     parsed := Returns {| body_message := Some (JStr "Who is jane@example.com?");
                          conversationHistory :=
                            Some [{| role := user; content_text := "Hello" |};
                                  {| role := assistant;
                                     content_text := "Hi! How can I help?" |}] |} |}.

Lemma chat_request_runs_the_loop_witness :
  snd (action runtime0 chatty McpClient.initial greeting)
  = Fulfilled {| status := 200;
                 payload := Success "Hello" []
                              {| inputTokens := 12; outputTokens := 7;
                                 totalTokens := 19 |} |}
  /\ snd (action runtime0 server_down McpClient.initial greeting)
     = Fulfilled {| status := 500;
                    payload := Failure
                      "Failed to connect to MCP server: Error: connect ECONNREFUSED"
                      ("Sorry, I encountered an error processing your request. "
                       ++ "Please try again.") |}.
Proof.
  split.
  - destruct (chat_request_runs_the_loop runtime0 chatty McpClient.initial greeting
                {| body_message := Some (JStr "Who is jane@example.com?");
                   conversationHistory :=
                     Some [{| role := user; content_text := "Hello" |};
                           {| role := assistant;
                              content_text := "Hi! How can I help?" |}] |}
                "Who is jane@example.com?" eq_refl eq_refl eq_refl)
      as (_ & Hok & _).
    apply (Hok {| GeminiClient.message := "Hello"; toolCalls := [];
                  usage := {| inputTokens := 12; outputTokens := 7; totalTokens := 19 |};
                  iterations := 1 |}).
    reflexivity.
  - destruct (chat_request_runs_the_loop runtime0 server_down McpClient.initial greeting
                {| body_message := Some (JStr "Who is jane@example.com?");
                   conversationHistory :=
                     Some [{| role := user; content_text := "Hello" |};
                           {| role := assistant;
                              content_text := "Hi! How can I help?" |}] |}
                "Who is jane@example.com?" eq_refl eq_refl eq_refl)
      as (_ & _ & Hthrown & _).
    apply (Hthrown (Js.new_Error "Failed to connect to MCP server: Error: connect ECONNREFUSED")).
    reflexivity.
Defined.

(** ** The connection under the requests *)

Lemma getMcpClient_started w s :
  started s <= started (fst (getMcpClient w s))
  /\ started (fst (getMcpClient w s)) <= S (started s).
Proof.
  unfold getMcpClient, call.
  assert (Hsettle : forall p x, started (settle p x) = started x).
  { intros p x. unfold settle. destruct (_ && _); reflexivity. }
  assert (Hresume : forall p x, started (resume w p x) = started x).
  { intros p x. unfold resume. destruct (_ && _); [|reflexivity].
    destruct (initializeMcpClient w p); reflexivity. }
  destruct (mcpClient s); [simpl; lia|].
  destruct (connectionPromise s); simpl; rewrite Hresume, Hsettle; simpl; lia.
Qed.

Lemma execute_tools_keeps_connection w k conn c parts records :
  mcpClient conn = Some c ->
  fst (fst (execute_tools w k conn (filter has_functionCall parts) records)) = conn.
Proof.
  intro Hc. unfold execute_tools.
  rewrite (start_calls_connected w conn c parts Hc).
  destruct (fan_in _ _ _ _) as [records' [values|]]; reflexivity.
Qed.

Lemma loop_body_keeps_connection w params history st c :
  mcpClient (connection st) = Some c ->
  connection (fst (loop_body w params history st)) = connection st.
Proof.
  intro Hc.
  destruct (loop_body_view w params history st)
    as [e|response|response candidate|response candidate conn' records' settled Hs Hcand Hne Hx];
    simpl; try (destruct (track_usage_fields response (begin_pass st))
                  as (_ & _ & _ & _ & Hconn)).
  - reflexivity.
  - now rewrite Hconn.
  - now rewrite Hconn.
  - pose proof (execute_tools_keeps_connection w (iteration_count st + 1) (connection st) c
                  (parts_of candidate) (toolCallRecords st) Hc) as Hk.
    unfold function_calls_of in Hx. rewrite Hx in Hk. simpl in Hk.
    destruct settled; simpl; exact Hk.
Qed.

Lemma agentic_loop_keeps_connection w params history max c : forall st,
  mcpClient (connection st) = Some c ->
  connection (final (agentic_loop w params history max st)) = connection st.
Proof.
  apply (agentic_loop_induction w params history max
           (fun st run => mcpClient (connection st) = Some c ->
                          connection (final run) = connection st)).
  - intros st _ _. reflexivity.
  - intros st st' r _ Eb Hc.
    pose proof (loop_body_keeps_connection w params history st c Hc) as H.
    now rewrite Eb in H.
  - intros st st' e _ Eb Hc.
    pose proof (loop_body_keeps_connection w params history st c Hc) as H.
    now rewrite Eb in H.
  - intros st st' _ Eb Hc.
    pose proof (loop_body_keeps_connection w params history st c Hc) as H.
    now rewrite Eb in H.
  - intros st st' _ Eb IH Hc.
    pose proof (loop_body_keeps_connection w params history st c Hc) as H.
    rewrite Eb in H. simpl in H. rewrite IH; [exact H|]. now rewrite H.
Qed.

Lemma sendMessageToGemini_connection w conn request :
  McpClientFacts.consistent conn ->
  connection (final (sendMessageToGemini w conn request))
  = fst (getMcpClient (mcp w) conn).
Proof.
  intro Hcons. unfold sendMessageToGemini.
  destruct (listMcpTools (mcp w) conn) as [conn1 listed] eqn:Hl.
  assert (Hconn1 : conn1 = fst (getMcpClient (mcp w) conn)).
  { unfold listMcpTools in Hl.
    destruct (getMcpClient (mcp w) conn) as [s1 r]. inversion Hl. reflexivity. }
  destruct listed as [mcpTools|e]; [|exact Hconn1].
  destruct (listMcpTools_connects w conn conn1 mcpTools Hcons Hl) as [c Hc].
  destruct (latestMessage request) as [[[| |] latest]|]; try exact Hconn1.
  destruct (startChat w _ _); [|exact Hconn1].
  rewrite (agentic_loop_keeps_connection w _ _ _ c (entry conn1 latest) Hc).
  exact Hconn1.
Qed.

(** X18: one connection serves everything.  A run of
    [sendMessageToGemini] leaves the connection manager in the state its
    first [getMcpClient] (the one of [listMcpTools]) left it, however many
    tool calls it dispatches: it starts at most one connection attempt, and
    none at all when a client is already stored, in which case the module
    state is unchanged by the whole run. *)
Theorem one_connection_per_run (w : world) (conn : McpClient.state)
        (request : ChatRequest) :
  McpClientFacts.consistent conn ->
  connection (final (sendMessageToGemini w conn request)) = fst (getMcpClient (mcp w) conn)
  /\ started (connection (final (sendMessageToGemini w conn request))) <= S (started conn)
  /\ (forall c, mcpClient conn = Some c ->
                connection (final (sendMessageToGemini w conn request)) = conn).
Proof.
  intro Hcons.
  pose proof (sendMessageToGemini_connection w conn request Hcons) as H.
  split; [exact H|]. split.
  - rewrite H. apply getMcpClient_started.
  - intros c Hc. rewrite H.
    now rewrite (@McpClientFacts.getMcpClient_connected (mcp w) conn c Hc).
Qed.

Lemma one_connection_per_run_witness :
  started (connection (final (sendMessageToGemini insatiable McpClient.initial
                                (ask "refund 1001" (Some 3%Z))))) <= 1.
Proof.
  apply (one_connection_per_run insatiable McpClient.initial (ask "refund 1001" (Some 3%Z))).
  apply McpClientFacts.consistent_initial.
Defined.

(** X19: the health check.  [loader] answers 200 exactly when the tools
    can be listed, with one name per tool in listing order and a
    [toolCount] equal to their number, and 503 with the error's message
    otherwise.  It goes through [getMcpClient] like a chat request: a 200
    leaves a client stored (so the chat request that follows starts no
    connection attempt), and the connection manager ends in the state
    [getMcpClient] leaves. *)
Theorem loader_reports_the_listing (rt : runtime) (w : sdk) (conn : McpClient.state) :
  fst (loader rt w conn) = fst (getMcpClient w conn)
  /\ (forall tools, snd (listMcpTools w conn) = Returns tools ->
        snd (loader rt w conn)
        = {| status := 200;
             payload := HealthOk (List.length tools) (map name tools) (now rt) |})
  /\ (forall error, snd (listMcpTools w conn) = Fails error ->
        snd (loader rt w conn)
        = {| status := 503; payload := HealthError (Js.message error) (now rt) |})
  /\ (forall n names t, payload (snd (loader rt w conn)) = HealthOk n names t ->
        n = List.length names
        /\ status (snd (loader rt w conn)) = 200
        /\ (McpClientFacts.consistent conn ->
            exists c, mcpClient (fst (loader rt w conn)) = Some c))
  /\ (status (snd (loader rt w conn)) = 200 \/ status (snd (loader rt w conn)) = 503).
Proof.
  unfold loader.
  destruct (listMcpTools w conn) as [conn1 listed] eqn:Hl.
  assert (Hconn1 : conn1 = fst (getMcpClient w conn)).
  { unfold listMcpTools in Hl.
    destruct (getMcpClient w conn) as [s1 r]. inversion Hl. reflexivity. }
  destruct listed as [tools|error]; simpl.
  - split; [exact Hconn1|]. split; [intros t H; inversion H; reflexivity|].
    split; [intros e H; discriminate|]. split; [|now left].
    intros n names t H. inversion H. subst.
    split; [now rewrite length_map|]. split; [reflexivity|].
    intro Hcons. unfold listMcpTools in Hl.
    destruct (getMcpClient w conn) as [s1 [client|e]] eqn:Eg; simpl in Hl;
      inversion Hl; subst.
    exists client. eapply McpClientFacts.getMcpClient_returns; eauto.
  - split; [exact Hconn1|]. split; [intros t H; discriminate|].
    split; [intros e H; inversion H; reflexivity|]. split; [|now right].
    intros n names t H. discriminate.
Qed.

Lemma loader_reports_the_listing_witness :
  snd (loader runtime0 server_up McpClient.initial)
  = {| status := 200; payload := HealthOk 0 [] "2025-01-01T00:00:00.000Z" |}
  /\ snd (loader runtime0 (mcp server_down) McpClient.initial)
     = {| status := 503;
          payload := HealthError
                       "Failed to connect to MCP server: Error: connect ECONNREFUSED"
                       "2025-01-01T00:00:00.000Z" |}.
Proof.
  split.
  - destruct (loader_reports_the_listing runtime0 server_up McpClient.initial)
      as (_ & Hok & _).
    apply (Hok []). reflexivity.
  - destruct (loader_reports_the_listing runtime0 (mcp server_down) McpClient.initial)
      as (_ & _ & Hdown & _).
    apply (Hdown (Js.new_Error "Failed to connect to MCP server: Error: connect ECONNREFUSED")).
    reflexivity.
Defined.

End ChatRouteFacts.

(* ===================================================================== *)
(** * Properties of the report builders *)
(* ===================================================================== *)

Module ContextFacts.
Import Tools CustomerContext.

(** ** Which sources a report lists *)

(** The names, and the statuses, of the entries of a [data_sources] array. *)
Definition listed (sources : json) : list (option json) :=
  match sources with
  | JArr entries => map (json_field "name") entries
  | _ => []
  end.

Definition statuses (sources : json) : list (option json) :=
  match sources with
  | JArr entries => map (json_field "status") entries
  | _ => []
  end.

Definition named (names : list string) : list (option json) :=
  map (fun n => Some (JStr n)) names.

Lemma is_nil_JNull v : is_nil v = true <-> v = JNull.
Proof. destruct v; simpl; split; intro H; try reflexivity; discriminate. Qed.

Lemma listed_sources shopify salesforce klaviyo cin7 :
  listed (build_data_sources_metadata shopify salesforce klaviyo cin7)
  = named (["shopify"; "salesforce"; "klaviyo"]
             ++ (if is_nil cin7 then [] else ["cin7"]))%list.
Proof.
  unfold build_data_sources_metadata. destruct (is_nil cin7); reflexivity.
Qed.

Lemma assoc_compact_other key k v rest :
  k <> key -> assoc key (compact ((k, v) :: rest)) = assoc key (compact rest).
Proof.
  intro Hne. unfold compact. simpl.
  destruct v; simpl; try reflexivity;
    destruct (String.eqb k key) eqn:E; try reflexivity;
    apply String.eqb_eq in E; contradiction.
Qed.

Lemma assoc_compact_last key v :
  assoc key (compact [(key, v)]) = if is_nil v then None else Some v.
Proof.
  unfold compact. destruct v; simpl; try reflexivity; now rewrite String.eqb_refl.
Qed.

Lemma skipped_means_false shopify salesforce klaviyo cin7 :
  In (Some (JStr "skipped"))
     (statuses (build_data_sources_metadata shopify salesforce klaviyo cin7)) ->
  cin7 = JBool false.
Proof.
  unfold build_data_sources_metadata. simpl.
  destruct (truthy shopify), (truthy salesforce), (truthy klaviyo);
    destruct cin7 as [|[|]| | | |]; simpl;
    intro Hin; repeat (destruct Hin as [Hin|Hin]; try discriminate Hin);
    try contradiction; reflexivity.
Qed.

(** X20: which sources a report lists.  [build_data_sources_metadata]
    always lists shopify, salesforce and klaviyo, in that order, and lists
    cin7 after them exactly when the value it is given for cin7 is not
    [nil]; the status [skipped] is given only for a cin7 value of [false].
    In [call], which passes [nil] for cin7 unless historical data was asked
    for, a report therefore never says that cin7 was skipped: without
    [include_historical] cin7 is absent from [data_sources] and from
    [platforms] alike, and in every report cin7 is listed as a source
    exactly when [platforms] carries its data. *)
Theorem sources_are_listed_by_presence
        (c : clock) (p : AggregateCustomerContext.platforms) (email : string)
        (include_historical : bool) (report : json) :
  (forall shopify salesforce klaviyo cin7,
      AggregateCustomerContext.build_data_sources_metadata p shopify salesforce klaviyo cin7
      = Returns (build_data_sources_metadata shopify salesforce klaviyo cin7)) ->
  AggregateCustomerContext.call_body c p email include_historical = Returns report ->
  exists sources platforms,
    json_field "data_sources" report = Some sources
    /\ json_field "platforms" report = Some (JObj platforms)
    /\ (include_historical = false ->
        listed sources = named ["shopify"; "salesforce"; "klaviyo"]
        /\ assoc "cin7" platforms = None)
    /\ (In (Some (JStr "cin7")) (listed sources) <-> assoc "cin7" platforms <> None)
    /\ (In (Some (JStr "skipped")) (statuses sources) ->
        include_historical = true
        /\ AggregateCustomerContext.fetch_cin7_data p email = Returns (JBool false)).
Proof.
  intros Hbuild. unfold AggregateCustomerContext.call_body, bind.
  destruct (AggregateCustomerContext.fetch_shopify_data p 0 email) as [sh|x];
    [|discriminate].
  destruct (AggregateCustomerContext.fetch_salesforce_data p 0 email) as [sf|x];
    [|discriminate].
  destruct (AggregateCustomerContext.fetch_klaviyo_data p 0 email) as [kl|x];
    [|discriminate].
  match goal with
  | |- context [match ?m with Returns _ => _ | Fails _ => _ end] =>
      destruct m as [cin7|x] eqn:Hcin7; [|discriminate]
  end.
  rewrite Hbuild.
  destruct (AggregateCustomerContext.generate_summary p sh sf kl cin7); [|discriminate].
  destruct (AggregateCustomerContext.extract_key_metrics p sh sf kl); [|discriminate].
  destruct (AggregateCustomerContext.generate_recommendations p sh sf kl); [|discriminate].
  destruct (AggregateCustomerContext.generate_alerts p sh sf); [|discriminate].
  intro H. inversion H. subst report. clear H.
  exists (build_data_sources_metadata sh sf kl cin7),
         (compact [("shopify", sh); ("salesforce", sf); ("klaviyo", kl); ("cin7", cin7)]).
  split; [reflexivity|]. split; [reflexivity|].
  assert (Hassoc : assoc "cin7" (compact [("shopify", sh); ("salesforce", sf);
                                          ("klaviyo", kl); ("cin7", cin7)])
                   = if is_nil cin7 then None else Some cin7).
  { rewrite !assoc_compact_other by discriminate. apply assoc_compact_last. }
  rewrite Hassoc, listed_sources.
  split; [|split].
  - intros ->. inversion Hcin7. subst cin7. split; reflexivity.
  - destruct (is_nil cin7); simpl; split.
    + intros [H|[H|[H|[]]]]; discriminate.
    + intro H. now elim H.
    + intros _. discriminate.
    + intros _. right. right. right. now left.
  - intro Hin. apply skipped_means_false in Hin. subst cin7.
    destruct include_historical; [|discriminate Hcin7].
    split; [reflexivity|exact Hcin7].
Qed.

(** Platforms on which the customer is known to Shopify only. *)
Definition shopify_only : AggregateCustomerContext.platforms :=
  {| AggregateCustomerContext.fetch_shopify_data := fun _ _ =>
       Returns (JObj [("full_name", JStr "Jane Doe")]);
     AggregateCustomerContext.fetch_salesforce_data := fun _ _ => Returns JNull;
     AggregateCustomerContext.fetch_klaviyo_data := fun _ _ => Returns JNull;
     AggregateCustomerContext.fetch_cin7_data := fun _ =>
       Returns (JObj [("total_invoices", JNum (inject_Z 8))]);
     AggregateCustomerContext.response_time_ms := inject_Z 12;
     AggregateCustomerContext.build_data_sources_metadata := fun a b d e =>
       Returns (build_data_sources_metadata a b d e);
     AggregateCustomerContext.generate_summary := fun _ _ _ _ => Returns (JStr "");
     AggregateCustomerContext.extract_key_metrics := fun _ _ _ => Returns (JObj []);
     AggregateCustomerContext.generate_recommendations := fun _ _ _ => Returns (JArr []);
     AggregateCustomerContext.generate_alerts := fun _ _ => Returns (JArr []) |}.

Lemma sources_are_listed_by_presence_witness :
  exists sources platforms,
    json_field "data_sources"
      (match AggregateCustomerContext.call_body ToolFacts.clock0 shopify_only
               "jane@example.com" false with
       | Returns report => report
       | Fails _ => JNull
       end) = Some sources
    /\ json_field "platforms"
         (match AggregateCustomerContext.call_body ToolFacts.clock0 shopify_only
                  "jane@example.com" false with
          | Returns report => report
          | Fails _ => JNull
          end) = Some (JObj platforms)
    /\ (false = false ->
        listed sources = named ["shopify"; "salesforce"; "klaviyo"]
        /\ assoc "cin7" platforms = None)
    /\ (In (Some (JStr "cin7")) (listed sources) <-> assoc "cin7" platforms <> None)
    /\ (In (Some (JStr "skipped")) (statuses sources) ->
        false = true
        /\ AggregateCustomerContext.fetch_cin7_data shopify_only "jane@example.com"
           = Returns (JBool false)).
Proof.
  apply (sources_are_listed_by_presence ToolFacts.clock0 shopify_only "jane@example.com"
           false).
  - reflexivity.
  - reflexivity.
Defined.

(** ** The age of the last order *)

(** X21: [calculate_days_since_last_order] gives [nil] for a customer
    without Shopify record, without last order or without order date, and,
    through its [rescue ArgumentError], for a date [Time.parse] cannot
    read; for a readable date it gives the whole days elapsed, rounded
    toward zero.  Nothing but an exception of [Time.parse] that is not an
    [ArgumentError] leaves it. *)
Theorem days_since_last_order_is_nil_safe (c : clock) (shopify : option Shopify) :
  (last_order_date shopify = None ->
   calculate_days_since_last_order c shopify = Returns None)
  /\ (forall d x, last_order_date shopify = Some d -> parse c d = Fails x ->
        Ruby.is_a x Ruby.ArgumentError = true ->
        calculate_days_since_last_order c shopify = Returns None)
  /\ (forall d t, last_order_date shopify = Some d -> parse c d = Returns t ->
        calculate_days_since_last_order c shopify
        = Returns (Some (to_i ((current c - t) / day)%Q)))
  /\ (forall x, calculate_days_since_last_order c shopify = Fails x ->
        Ruby.is_a x Ruby.ArgumentError = false
        /\ exists d, last_order_date shopify = Some d /\ parse c d = Fails x).
Proof.
  unfold calculate_days_since_last_order, rescue_argument_error, bind.
  split; [|split; [|split]].
  - intros ->. reflexivity.
  - intros d x -> -> ->. reflexivity.
  - intros d t -> ->. reflexivity.
  - intros x. destruct (last_order_date shopify) as [d|]; [|discriminate].
    destruct (parse c d) as [t|y] eqn:Hp; [discriminate|].
    destruct (Ruby.is_a y Ruby.ArgumentError) eqn:Ha; [discriminate|].
    intro H. inversion H. subst y. split; [exact Ha|]. now exists d.
Qed.

(** A customer whose last order carries the given date. *)
Definition customer (d : option string) : Shopify :=
  {| full_name := "Jane Doe";
     customer_since := "2023-01-01";
     tenure_days := 730;
     lifetime_value := (245050 # 100)%Q;
     total_orders := 12;
     average_order_value := (20421 # 100)%Q;
     last_order := Some {| date := d; order_total := (12599 # 100)%Q;
                           order_status := "fulfilled" |};
     tags := ["VIP"; "repeat_customer"] |}.

(** A clock that reads no date. *)
Definition illiterate : clock :=
  {| current := inject_Z 1735689600;
     iso8601 := fun _ => "2025-01-01T00:00:00Z";
     parse := fun d => Fails {| Ruby.class := Ruby.ArgumentError;
                                Ruby.message := "no time information in " ++ d;
                                Ruby.backtrace := [] |};
     show_number := fun _ => "0" |}.

Lemma days_since_last_order_is_nil_safe_witness :
  calculate_days_since_last_order illiterate (Some (customer (Some "yesterday")))
  = Returns None
  /\ calculate_days_since_last_order ToolFacts.clock0 (Some (customer (Some "2024-12-22")))
     = Returns (Some 10%Z).
Proof.
  split.
  - destruct (days_since_last_order_is_nil_safe illiterate
                (Some (customer (Some "yesterday")))) as (_ & Hbad & _).
    apply (Hbad "yesterday"
                {| Ruby.class := Ruby.ArgumentError;
                   Ruby.message := "no time information in yesterday";
                   Ruby.backtrace := [] |}); reflexivity.
  - destruct (days_since_last_order_is_nil_safe ToolFacts.clock0
                (Some (customer (Some "2024-12-22")))) as (_ & _ & Hgood & _).
    apply (Hgood "2024-12-22" (inject_Z 1735689600 - inject_Z 10 * day)%Q); reflexivity.
Defined.

(** ** Alerts *)

(** The test [generate_alerts] applies to a case, and the alert it
    raises for one. *)
Definition urgent (k : Case) : bool :=
  String.eqb (priority k) "High" || Z.ltb 7 (or_zero (days_open k)).

Definition alert_for (c : clock) (k : Case) : alert :=
  {| alert_type := "support";
     severity := "critical";
     alert_message := "Case " ++ case_number k ++ " is " ++ priority k
                      ++ " priority and " ++ show_opt_int c (days_open k)
                      ++ " days old." |}.

Lemma fold_alerts c cases : forall alerts,
  fold_left (fun alerts k => if urgent k then (alerts ++ [alert_for c k])%list else alerts)
            cases alerts
  = (alerts ++ map (alert_for c) (filter urgent cases))%list.
Proof.
  induction cases as [|k rest IH]; intro alerts; simpl.
  - now rewrite app_nil_r.
  - rewrite IH. destruct (urgent k); [|reflexivity].
    simpl. now rewrite <- app_assoc.
Qed.

(** X22: [generate_alerts] raises one alert, of type [support] and
    severity [critical], for every recent case that is of [High] priority or
    has been open for more than seven days (a case without [days_open]
    counts as zero days old), in the order of the cases; and it raises none
    at all for a customer without Salesforce record, without recent cases
    or whose count of open cases is missing, zero or negative, whatever the
    cases listed.  The Shopify record plays no part. *)
Theorem alerts_are_the_urgent_cases (c : clock) (shopify : option Shopify)
        (salesforce : option Salesforce) :
  (forall sf cases, salesforce = Some sf -> positive (open_cases sf) = true ->
     recent_cases sf = Some cases ->
     generate_alerts c shopify salesforce = map (alert_for c) (filter urgent cases)
     /\ List.length (generate_alerts c shopify salesforce) <= List.length cases)
  /\ (salesforce = None -> generate_alerts c shopify salesforce = [])
  /\ (forall sf, salesforce = Some sf ->
        positive (open_cases sf) = false \/ recent_cases sf = None ->
        generate_alerts c shopify salesforce = [])
  /\ (forall a, In a (generate_alerts c shopify salesforce) ->
        alert_type a = "support" /\ severity a = "critical"
        /\ exists sf cases k, salesforce = Some sf /\ recent_cases sf = Some cases
                              /\ In k cases /\ urgent k = true /\ a = alert_for c k)
  /\ generate_alerts c shopify salesforce = generate_alerts c None salesforce.
Proof.
  assert (Hsome : forall sf cases, salesforce = Some sf -> positive (open_cases sf) = true ->
            recent_cases sf = Some cases ->
            generate_alerts c shopify salesforce = map (alert_for c) (filter urgent cases)).
  { intros sf cases -> Hpos Hcases. unfold generate_alerts. rewrite Hpos, Hcases.
    apply (fold_alerts c cases []). }
  split; [|split; [|split; [|split]]].
  - intros sf cases Hsf Hpos Hcases. split; [now apply Hsome with sf|].
    rewrite (Hsome sf cases Hsf Hpos Hcases), length_map. apply filter_length_le.
  - intros ->. reflexivity.
  - intros sf -> [H|H]; unfold generate_alerts; rewrite H; [reflexivity|].
    destruct (positive (open_cases sf)); reflexivity.
  - intros a Hin.
    destruct salesforce as [sf|]; [|contradiction].
    destruct (positive (open_cases sf)) eqn:Hpos;
      [|unfold generate_alerts in Hin; rewrite Hpos in Hin; contradiction].
    destruct (recent_cases sf) as [cases|] eqn:Hcases;
      [|unfold generate_alerts in Hin; rewrite Hpos, Hcases in Hin; contradiction].
    rewrite (Hsome sf cases eq_refl Hpos Hcases) in Hin.
    apply in_map_iff in Hin. destruct Hin as (k & <- & Hk).
    apply filter_In in Hk. destruct Hk as [Hk Hu].
    split; [reflexivity|]. split; [reflexivity|].
    exists sf, cases, k. repeat split; assumption.
  - reflexivity.
Qed.

Definition stale_case : Case :=
  {| case_number := "CASE-001234"; case_status := "In Progress"; priority := "Medium";
     subject := "Product inquiry about bulk pricing"; days_open := Some 9%Z |}.

Definition high_case : Case :=
  {| case_number := "CASE-004321"; case_status := "New"; priority := "High";
     subject := "Order arrived damaged"; days_open := None |}.

Definition fresh_case : Case :=
  {| case_number := "CASE-005555"; case_status := "New"; priority := "Medium";
     subject := "Address change"; days_open := Some 3%Z |}.

Definition account (open : option Z) (cases : option (list Case)) : Salesforce :=
  {| crm_status := "Active Customer"; account_tier := "Gold"; open_cases := open;
     recent_cases := cases; account_manager := Some "Sarah Johnson" |}.

Lemma alerts_are_the_urgent_cases_witness :
  generate_alerts ToolFacts.clock0 None
    (Some (account (Some 2%Z) (Some [stale_case; fresh_case; high_case])))
  = [alert_for ToolFacts.clock0 stale_case; alert_for ToolFacts.clock0 high_case]
  /\ generate_alerts ToolFacts.clock0 None
       (Some (account (Some 0%Z) (Some [stale_case; fresh_case; high_case]))) = [].
Proof.
  split.
  - destruct (alerts_are_the_urgent_cases ToolFacts.clock0 None
                (Some (account (Some 2%Z) (Some [stale_case; fresh_case; high_case]))))
      as (Hurgent & _).
    destruct (Hurgent (account (Some 2%Z) (Some [stale_case; fresh_case; high_case]))
                      [stale_case; fresh_case; high_case] eq_refl eq_refl eq_refl)
      as [Halerts _].
    exact Halerts.
  - destruct (alerts_are_the_urgent_cases ToolFacts.clock0 None
                (Some (account (Some 0%Z) (Some [stale_case; fresh_case; high_case]))))
      as (_ & _ & Hnone & _).
    apply (Hnone (account (Some 0%Z) (Some [stale_case; fresh_case; high_case])) eq_refl).
    left. reflexivity.
Defined.

(** ** Recommendations *)

Lemma gt_true a b : gt a b = true <-> (b < a)%Q.
Proof.
  unfold gt. rewrite negb_true_iff. split.
  - intro H. apply Qnot_le_lt. intro Hle. apply Qle_bool_iff in Hle. congruence.
  - intro H. destruct (Qle_bool a b) eqn:E; [|reflexivity].
    apply Qle_bool_iff in E. elim (Qlt_not_le _ _ H E).
Qed.

(** The five rules of [generate_recommendations], as tests on its
    arguments. *)
Definition high_value (shopify : option Shopify) : bool :=
  match shopify with
  | Some sh => gt (lifetime_value sh) (inject_Z 2000)
  | None => false
  end.

Definition engaged (klaviyo : option Klaviyo) : bool :=
  match klaviyo with
  | Some kl => gt (engagement_score (email_engagement kl)) (inject_Z 7)
  | None => false
  end.

Definition has_open_case (salesforce : option Salesforce) : bool :=
  match salesforce with
  | Some sf => positive (open_cases sf)
  | None => false
  end.

Definition dormant (days : option Z) : bool :=
  match days with
  | Some d => Z.ltb 60 d
  | None => false
  end.

Definition at_risk (klaviyo : option Klaviyo) : bool :=
  match klaviyo with
  | Some kl => String.eqb (churn_risk kl) "high"
  | None => false
  end.

Definition when (b : bool) (name : string) : list string := if b then [name] else [].

Definition priority_of (type : string) : string :=
  if String.eqb type "upsell" || String.eqb type "support" || String.eqb type "retention"
  then "high" else "medium".

Lemma generate_recommendations_types c two_decimals shopify salesforce klaviyo recs :
  generate_recommendations c two_decimals shopify salesforce klaviyo = Returns recs ->
  exists days,
    calculate_days_since_last_order c shopify = Returns days
    /\ map rec_type recs
       = (when (high_value shopify) "upsell"
          ++ when (engaged klaviyo) "engagement"
          ++ when (has_open_case salesforce) "support"
          ++ when (dormant days) "reengagement"
          ++ when (at_risk klaviyo) "retention")%list
    /\ Forall (fun r => rec_priority r = priority_of (rec_type r)) recs.
Proof.
  unfold generate_recommendations, bind.
  destruct (calculate_days_since_last_order c shopify) as [days|x]; [|discriminate].
  intro H. inversion H. subst recs. clear H.
  exists days. split; [reflexivity|].
  unfold high_value, engaged, has_open_case, dormant, at_risk, when.
  destruct shopify as [sh|]; [destruct (gt (lifetime_value sh) (inject_Z 2000))|];
    (destruct klaviyo as [kl|];
     [destruct (gt (engagement_score (email_engagement kl)) (inject_Z 7));
      destruct (String.eqb (churn_risk kl) "high")|]);
    (destruct salesforce as [sf|]; [destruct (positive (open_cases sf))|]);
    (destruct days as [d|]; [destruct (Z.ltb 60 d)|]);
    simpl; (split; [reflexivity|]); repeat constructor.
Qed.

(** X23: [generate_recommendations] applies five rules in a fixed order
    and appends at most one recommendation per rule, so the types come out
    as a selection of upsell, engagement, support, reengagement, retention in
    that order (the list is not sorted by priority: a medium entry can
    precede a high one).  The thresholds are strict: a lifetime value above
    2000, an engagement score above 7, a positive count of open cases, more
    than 60 days since the last order, a churn risk of exactly [high].  The
    one exception that can leave it is the one
    [calculate_days_since_last_order] lets through. *)
Theorem recommendations_follow_the_rules
        (c : clock) (two_decimals : Q -> string) (shopify : option Shopify)
        (salesforce : option Salesforce) (klaviyo : option Klaviyo)
        (recs : list recommendation) :
  generate_recommendations c two_decimals shopify salesforce klaviyo = Returns recs ->
  exists upsell engagement support reengagement retention : bool,
    map rec_type recs
    = (when upsell "upsell" ++ when engagement "engagement" ++ when support "support"
       ++ when reengagement "reengagement" ++ when retention "retention")%list
    /\ (upsell = true <->
        exists sh, shopify = Some sh /\ (inject_Z 2000 < lifetime_value sh)%Q)
    /\ (engagement = true <->
        exists kl, klaviyo = Some kl
                   /\ (inject_Z 7 < engagement_score (email_engagement kl))%Q)
    /\ (support = true <->
        exists sf n, salesforce = Some sf /\ open_cases sf = Some n /\ (0 < n)%Z)
    /\ (reengagement = true <->
        exists days, calculate_days_since_last_order c shopify = Returns (Some days)
                     /\ (60 < days)%Z)
    /\ (retention = true <->
        exists kl, klaviyo = Some kl /\ churn_risk kl = "high")
    /\ List.length recs <= 5
    /\ Forall (fun r => rec_priority r = priority_of (rec_type r)) recs.
Proof.
  intro H.
  destruct (generate_recommendations_types c two_decimals shopify salesforce klaviyo recs H)
    as (days & Hdays & Htypes & Hprio).
  exists (high_value shopify), (engaged klaviyo), (has_open_case salesforce),
         (dormant days), (at_risk klaviyo).
  split; [exact Htypes|].
  split.
  { unfold high_value. destruct shopify as [sh|].
    - rewrite gt_true. split.
      + intro Hlt. now exists sh.
      + intros (sh' & E & Hlt). inversion E. now subst.
    - split; [discriminate|]. intros (sh' & E & _). discriminate. }
  split.
  { unfold engaged. destruct klaviyo as [kl|].
    - rewrite gt_true. split.
      + intro Hlt. now exists kl.
      + intros (kl' & E & Hlt). inversion E. now subst.
    - split; [discriminate|]. intros (kl' & E & _). discriminate. }
  split.
  { unfold has_open_case, positive. destruct salesforce as [sf|].
    - destruct (open_cases sf) as [n|] eqn:Hn.
      + rewrite Z.ltb_lt. split.
        * intro Hlt. exists sf, n. now repeat split.
        * intros (sf' & n' & E & En & Hlt). inversion E. subst sf'.
          rewrite Hn in En. inversion En. now subst.
      + split; [discriminate|]. intros (sf' & n' & E & En & _).
        inversion E. subst sf'. rewrite Hn in En. discriminate.
    - split; [discriminate|]. intros (sf' & n' & E & _). discriminate. }
  split.
  { unfold dormant. rewrite Hdays. destruct days as [d|].
    - rewrite Z.ltb_lt. split.
      + intro Hlt. now exists d.
      + intros (d' & E & Hlt). inversion E. now subst.
    - split; [discriminate|]. intros (d' & E & _). discriminate. }
  split.
  { unfold at_risk. destruct klaviyo as [kl|].
    - rewrite String.eqb_eq. split.
      + intro E. now exists kl.
      + intros (kl' & E & Hr). inversion E. now subst.
    - split; [discriminate|]. intros (kl' & E & _). discriminate. }
  split; [|exact Hprio].
  rewrite <- (length_map rec_type), Htypes. unfold when.
  destruct (high_value shopify), (engaged klaviyo), (has_open_case salesforce),
    (dormant days), (at_risk klaviyo); simpl; lia.
Qed.

(** An engaged subscriber at the two thresholds: a score of exactly 7
    and a lifetime value of exactly 2000. *)
Definition borderline : Klaviyo :=
  {| email_engagement := {| engagement_score := inject_Z 7;
                            avg_open_rate := (42 # 100)%Q |};
     predicted_next_order_date := "2025-01-13";
     predicted_clv := inject_Z 3200;
     churn_risk := "high" |}.

Definition at_threshold : Shopify :=
  {| full_name := "Jane Doe";
     customer_since := "2023-01-01";
     tenure_days := 730;
     lifetime_value := inject_Z 2000;
     total_orders := 12;
     average_order_value := (20421 # 100)%Q;
     last_order := None;
     tags := [] |}.

Lemma recommendations_follow_the_rules_witness :
  exists recs,
    generate_recommendations ToolFacts.clock0 (fun _ => "2000.00")
      (Some at_threshold) (Some (account (Some 1%Z) None)) (Some borderline) = Returns recs
    /\ map rec_type recs = ["support"; "retention"]
    /\ List.length recs <= 5
    /\ Forall (fun r => rec_priority r = priority_of (rec_type r)) recs.
Proof.
  eexists. split; [reflexivity|]. split; [reflexivity|].
  destruct (recommendations_follow_the_rules ToolFacts.clock0 (fun _ => "2000.00")
              (Some at_threshold) (Some (account (Some 1%Z) None)) (Some borderline)
              _ eq_refl)
    as (upsell & engagement & support & reengagement & retention & _ & _ & _ & _ & _ & _
        & Hlen & Hprio).
  split; [exact Hlen | exact Hprio].
Defined.

(** ** Key metrics *)

Lemma compact_holds_no_nil fields :
  Forall (fun kv : string * json => snd kv <> JNull) (compact fields).
Proof.
  unfold compact. apply Forall_forall. intros [k v] Hin.
  apply filter_In in Hin. destruct Hin as [_ Hv]. simpl in *.
  intro E. subst v. discriminate.
Qed.

(** X24: the key metrics hold no [nil]: every metric whose source is
    missing is left out rather than reported as [null], so a customer known
    to no platform gets the empty hash, [days_since_last_order] is present
    exactly when [calculate_days_since_last_order] gives a number, and
    [open_support_cases] is left out when Salesforce reports no count.  The
    one exception that can leave it is the one
    [calculate_days_since_last_order] lets through. *)
Theorem key_metrics_hold_no_nil
        (c : clock) (shopify : option Shopify) (salesforce : option Salesforce)
        (klaviyo : option Klaviyo) (metrics : list (string * json)) :
  extract_key_metrics c shopify salesforce klaviyo = Returns metrics ->
  Forall (fun kv => snd kv <> JNull) metrics
  /\ (shopify = None -> salesforce = None -> klaviyo = None -> metrics = [])
  /\ (forall days, calculate_days_since_last_order c shopify = Returns days ->
        assoc "days_since_last_order" metrics = option_map JInt days)
  /\ (forall sh, shopify = Some sh ->
        assoc "lifetime_value" metrics = Some (JNum (lifetime_value sh))
        /\ assoc "total_orders" metrics = Some (JInt (total_orders sh)))
  /\ (forall sf, salesforce = Some sf ->
        assoc "crm_tier" metrics = Some (JStr (account_tier sf))
        /\ assoc "open_support_cases" metrics = option_map JInt (open_cases sf))
  /\ (forall kl, klaviyo = Some kl ->
        assoc "email_engagement_score" metrics
        = Some (JNum (engagement_score (email_engagement kl)))
        /\ assoc "churn_risk" metrics = Some (JStr (churn_risk kl))
        /\ assoc "predicted_clv" metrics = Some (JNum (predicted_clv kl)))
  /\ List.length metrics <= 8.
Proof.
  unfold extract_key_metrics, bind.
  destruct (calculate_days_since_last_order c shopify) as [days|x] eqn:Hdays;
    [|discriminate].
  intro H.
  assert (Hm : metrics
               = compact
                   [("lifetime_value", on shopify (fun sh => JNum (lifetime_value sh)));
                    ("total_orders", on shopify (fun sh => JInt (total_orders sh)));
                    ("days_since_last_order", on days JInt);
                    ("crm_tier", on salesforce (fun sf => JStr (account_tier sf)));
                    ("open_support_cases",
                     on salesforce (fun sf => on (open_cases sf) JInt));
                    ("email_engagement_score",
                     on klaviyo (fun kl => JNum (engagement_score (email_engagement kl))));
                    ("churn_risk", on klaviyo (fun kl => JStr (churn_risk kl)));
                    ("predicted_clv", on klaviyo (fun kl => JNum (predicted_clv kl)))])
    by (inversion H; reflexivity).
  clear H. subst metrics.
  split; [apply compact_holds_no_nil|].
  split.
  { intros -> -> ->. simpl in Hdays. inversion Hdays. reflexivity. }
  split.
  { intros days' E. inversion E. subst days'.
    destruct shopify as [sh|], salesforce as [sf|], klaviyo as [kl|], days as [d|];
      unfold on; simpl; try destruct (open_cases sf); reflexivity. }
  split.
  { intros sh ->.
    destruct salesforce as [sf|], klaviyo as [kl|], days as [d|];
      unfold on; simpl; try destruct (open_cases sf); split; reflexivity. }
  split.
  { intros sf ->.
    destruct shopify as [sh|], klaviyo as [kl|], days as [d|];
      unfold on; simpl; destruct (open_cases sf); split; reflexivity. }
  split.
  { intros kl ->.
    destruct shopify as [sh|], salesforce as [sf|], days as [d|];
      unfold on; simpl; try destruct (open_cases sf); repeat split; reflexivity. }
  destruct shopify as [sh|], salesforce as [sf|], klaviyo as [kl|], days as [d|];
    unfold on; simpl; try destruct (open_cases sf); simpl; lia.
Qed.

Lemma key_metrics_hold_no_nil_witness :
  exists metrics,
    extract_key_metrics illiterate (Some (customer (Some "yesterday")))
                        (Some (account None None)) None = Returns metrics
    /\ Forall (fun kv => snd kv <> JNull) metrics
    /\ map fst metrics = ["lifetime_value"; "total_orders"; "crm_tier"].
Proof.
  eexists. split; [reflexivity|]. split; [|reflexivity].
  apply (key_metrics_hold_no_nil illiterate (Some (customer (Some "yesterday")))
           (Some (account None None)) None).
  reflexivity.
Defined.

(** ** The summary *)

Lemma append_not_empty a b : a <> "" -> (a ++ b) <> "".
Proof. destruct a; [contradiction|discriminate]. Qed.

Lemma concat_not_empty sep p rest : p <> "" -> String.concat sep (p :: rest) <> "".
Proof.
  intro Hp. destruct rest as [|q rest']; simpl; [exact Hp|].
  now apply append_not_empty.
Qed.

Lemma append_not_empty_r a b : b <> "" -> (a ++ b) <> "".
Proof. intro Hb. destruct a; simpl; [exact Hb|discriminate]. Qed.

Lemma Returns_inj {E A} (a b : A) : @Returns E A a = Returns b -> a = b.
Proof. intro H. now inversion H. Qed.

Lemma identity_paragraph_first c two_decimals sh :
  exists p, identity_paragraph c two_decimals (Some sh) = [p] /\ p <> "".
Proof.
  eexists. split; [reflexivity|].
  unfold join_present. simpl.
  apply append_not_empty, append_not_empty_r. discriminate.
Qed.

Lemma crm_paragraphs_first c sf :
  exists p rest, crm_paragraphs c (Some sf) = p :: rest /\ p <> "".
Proof.
  unfold crm_paragraphs.
  destruct (positive (open_cases sf)); eexists; eexists; (split; [reflexivity|]);
    destruct (account_manager sf); discriminate.
Qed.

(** X25: the summary.  It is the sentence [No customer data found
    across any platform.] exactly on the path where both the Shopify and the
    Salesforce record are missing, whatever Klaviyo returned; otherwise it
    is a non-empty text; the cin7 argument is never read.  Unlike
    [calculate_days_since_last_order], [generate_summary] parses the date of
    the last order without a [rescue]: whatever [Time.parse] raises for it,
    an [ArgumentError] included, leaves [generate_summary], for the same
    customer for whom the age of the last order is just reported as
    [nil]. *)
Theorem summary_needs_a_readable_date
        (c : clock) (two_decimals : Q -> string) (times : Q -> Q -> Q)
        (shopify : option Shopify)
        (salesforce : option Salesforce) (klaviyo : option Klaviyo) (cin7 : json) :
  (shopify = None -> salesforce = None ->
   generate_summary c two_decimals times shopify salesforce klaviyo cin7 = Returns no_data)
  /\ (forall text,
        generate_summary c two_decimals times shopify salesforce klaviyo cin7 = Returns text ->
        text <> "")
  /\ (forall cin7',
        generate_summary c two_decimals times shopify salesforce klaviyo cin7'
        = generate_summary c two_decimals times shopify salesforce klaviyo cin7)
  /\ (forall d x, last_order_date shopify = Some d -> parse c d = Fails x ->
        generate_summary c two_decimals times shopify salesforce klaviyo cin7 = Fails x
        /\ (Ruby.is_a x Ruby.ArgumentError = true ->
            calculate_days_since_last_order c shopify = Returns None))
  /\ (forall x, generate_summary c two_decimals times shopify salesforce klaviyo cin7 = Fails x ->
        exists d, last_order_date shopify = Some d /\ parse c d = Fails x).
Proof.
  split; [|split; [|split; [|split]]].
  - intros -> ->. reflexivity.
  - intros text. unfold generate_summary.
    destruct shopify as [sh|].
    + unfold bind. destruct (activity_paragraph c two_decimals (Some sh)); [|discriminate].
      intro H. apply Returns_inj in H. subst text.
      destruct (identity_paragraph_first c two_decimals sh) as (p & -> & Hp).
      now apply concat_not_empty.
    + destruct salesforce as [sf|]; [|intro H; apply Returns_inj in H; subst text;
                                       discriminate].
      unfold bind. simpl activity_paragraph. cbv iota.
      intro H. apply Returns_inj in H. subst text.
      destruct (crm_paragraphs_first c sf) as (p & rest & -> & Hp).
      now apply concat_not_empty.
  - intros cin7'. reflexivity.
  - intros d x Hd Hp. split.
    + unfold last_order_date in Hd.
      destruct shopify as [sh|]; [|discriminate].
      unfold generate_summary, activity_paragraph, bind.
      destruct (last_order sh) as [o|]; [|discriminate].
      rewrite Hd, Hp. reflexivity.
    + intro Ha. unfold calculate_days_since_last_order, rescue_argument_error, bind.
      now rewrite Hd, Hp, Ha.
  - intros x. unfold generate_summary.
    destruct shopify as [sh|].
    + unfold activity_paragraph, last_order_date, bind.
      destruct (last_order sh) as [o|]; [|discriminate].
      destruct (date o) as [d|]; [|discriminate].
      destruct (parse c d) as [t|y] eqn:Hp; [discriminate|].
      intro H. inversion H. subst y. now exists d.
    + destruct salesforce; discriminate.
Qed.

Lemma summary_needs_a_readable_date_witness :
  generate_summary illiterate (fun _ => "0.00") Qmult None None (Some borderline) JNull
  = Returns no_data
  /\ exists x,
       generate_summary illiterate (fun _ => "0.00") Qmult
                        (Some (customer (Some "yesterday")))
                        None None JNull = Fails x
       /\ calculate_days_since_last_order illiterate (Some (customer (Some "yesterday")))
          = Returns None.
Proof.
  split.
  - apply (summary_needs_a_readable_date illiterate (fun _ => "0.00") Qmult None None
             (Some borderline) JNull); reflexivity.
  - eexists.
    destruct (summary_needs_a_readable_date illiterate (fun _ => "0.00") Qmult
                (Some (customer (Some "yesterday"))) None None JNull)
      as (_ & _ & _ & Hdate & _).
    destruct (Hdate "yesterday"
                {| Ruby.class := Ruby.ArgumentError;
                   Ruby.message := "no time information in yesterday";
                   Ruby.backtrace := [] |} eq_refl eq_refl) as [Hs Hd].
    split; [exact Hs | now apply Hd].
Defined.

End ContextFacts.

(* ===================================================================== *)
(** * The order of the tool call records *)
(* ===================================================================== *)

Module BatchFacts.
Import McpClient GeminiClient GeminiFacts.

(** The record a completion pushes: the one of the call it settles. *)
Definition record_of (calls : list FunctionCall) (c : completion) : list ToolCallRecord :=
  match nth_error calls (index c) with
  | Some fc => [fst (finish_call fc c)]
  | None => []
  end.

(** Every call of the batch settles exactly once. *)
Definition settles_once (n : nat) (cs : list completion) : Prop :=
  NoDup (map index cs) /\ forall i, In i (map index cs) <-> i < n.

Lemma fan_in_records calls : forall cs slots records,
  List.length slots = List.length calls ->
  NoDup (map index cs) ->
  (forall i, In i (map index cs) -> nth_error slots i = Some None) ->
  fst (fan_in calls cs slots records)
  = (records ++ flat_map (record_of calls) cs)%list.
Proof.
  induction cs as [|c rest IH]; intros slots records Hlen Hnd Hopen.
  - simpl. rewrite app_nil_r. destruct (all_filled slots); reflexivity.
  - assert (Hc : nth_error slots (index c) = Some None) by (apply Hopen; now left).
    rewrite fan_in_cons by exact (all_filled_unsettled slots (index c) Hc).
    assert (Hlt : index c < List.length calls).
    { rewrite <- Hlen. apply nth_error_Some. congruence. }
    destruct (nth_error calls (index c)) as [fc|] eqn:Hfc;
      [|apply nth_error_None in Hfc; lia].
    rewrite Hc.
    destruct (finish_call fc c) as [record part] eqn:Hfin.
    inversion Hnd as [|x l Hnotin Hnd']. subst.
    rewrite IH.
    + simpl. unfold record_of at 2. rewrite Hfc, Hfin. simpl.
      now rewrite <- app_assoc.
    + now rewrite fill_length.
    + exact Hnd'.
    + intros i Hi. rewrite fill_other; [apply Hopen; now right|].
      intro E. subst i. contradiction.
Qed.

(** X26: the tool call records are kept in completion order.  While the
    function responses handed back to the model are in request order, the
    records are pushed as the calls complete: when every call of a batch
    settles once, the batch appends to [toolCallRecords] one record per
    completion, in the order in which the calls completed. *)
Theorem records_keep_completion_order
        (w : world) (k : Z) (conn : McpClient.state) (client : Client)
        (parts : list Part) (records : list ToolCallRecord) :
  mcpClient conn = Some client ->
  settles_once (List.length (calls_of (filter has_functionCall parts)))
               (completions w k (calls_of (filter has_functionCall parts))) ->
  execute_tools w k conn (filter has_functionCall parts) records
  = (conn,
     (records ++ flat_map (record_of (calls_of (filter has_functionCall parts)))
                          (completions w k (calls_of (filter has_functionCall parts))))%list,
     Fulfilled (in_request_order 0 (calls_of (filter has_functionCall parts))
                  (completions w k (calls_of (filter has_functionCall parts))))).
Proof.
  intros Hc [Hnd Hcover].
  set (calls := calls_of (filter has_functionCall parts)) in *.
  assert (Hall : every_call_settles (List.length calls) (completions w k calls)).
  { intros i Hi. now apply Hcover. }
  destruct (execute_tools_connected w k conn client parts records Hc Hall)
    as (new & Hx & _).
  fold calls in Hx. rewrite Hx. f_equal. f_equal. f_equal.
  pose proof (fan_in_records calls (completions w k calls)
                (map (fun _ => None) calls) records) as Hrec.
  unfold execute_tools in Hx.
  rewrite (start_calls_connected w conn client parts Hc) in Hx. fold calls in Hx.
  destruct (fan_in calls (completions w k calls) (map (fun _ => None) calls) records)
    as [records' values] eqn:Hf.
  simpl in Hrec.
  assert (Hrecords : records' = (records ++ new)%list).
  { destruct values; inversion Hx; reflexivity. }
  rewrite Hrecords in Hrec.
  apply (app_inv_head records). apply Hrec.
  - now rewrite length_map.
  - exact Hnd.
  - intros i Hi. rewrite nth_error_unsettled.
    apply Hcover in Hi. apply nth_error_Some in Hi.
    destruct (nth_error calls i); congruence.
Qed.

Lemma records_keep_completion_order_witness :
  map tool_name
      (snd (fst (execute_tools two_tools 1 (connection connected_entry)
                   (filter has_functionCall
                      [tool_part "aggregate_customer_context"; text_part "and then";
                       tool_part "refund_order"]) [])))
  = ["refund_order"; "aggregate_customer_context"].
Proof.
  rewrite (records_keep_completion_order two_tools 1 (connection connected_entry) 0
             [tool_part "aggregate_customer_context"; text_part "and then";
              tool_part "refund_order"] []).
  - reflexivity.
  - reflexivity.
  - split; [repeat constructor; simpl; intuition lia | intro i; simpl; lia].
Defined.

End BatchFacts.

(* ===================================================================== *)
(** * Properties of the tool name shown on the chat page *)
(* ===================================================================== *)

Module MerchantChatFacts.
Import MerchantChat.

Definition underscore : ascii := "_"%char.
Definition space : ascii := " "%char.

(** A string of ASCII characters. *)
Definition is_ascii (c : ascii) : bool := Nat.ltb (nat_of_ascii c) 128.

Definition ascii_only (s : string) : Prop :=
  Forall (fun c => is_ascii c = true) (list_ascii_of_string s).

(** The name left to right: an underscore becomes a space, and the
    character at the start of a word is put in upper case. *)
Fixpoint walk (start : bool) (s : string) : string :=
  match s with
  | EmptyString => ""
  | String c rest =>
      if Ascii.eqb c underscore then String space (walk true rest)
      else String (if start then toUpperCase c else c) (walk false rest)
  end.

Lemma split_not_nil sep s : split sep s <> [].
Proof.
  destruct s as [|c rest]; simpl; [discriminate|].
  destruct (Ascii.eqb c sep); [discriminate|].
  destruct (split sep rest); discriminate.
Qed.

Lemma concat_cons sep x y l :
  String.concat sep (x :: y :: l) = x ++ sep ++ String.concat sep (y :: l).
Proof. reflexivity. Qed.

Lemma walk_split s :
  match split underscore s with
  | w :: ws =>
      walk true s = String.concat " " (capitalize w :: map capitalize ws)
      /\ walk false s = String.concat " " (w :: map capitalize ws)
  | [] => False
  end.
Proof.
  induction s as [|c rest IH]; simpl.
  - split; reflexivity.
  - destruct (Ascii.eqb c underscore) eqn:E.
    + destruct (split underscore rest) as [|w ws] eqn:Hs; [contradiction|].
      destruct IH as [IHt _]. rewrite IHt. split; reflexivity.
    + destruct (split underscore rest) as [|w ws] eqn:Hs; [contradiction|].
      destruct IH as [_ IHf]. rewrite IHf.
      destruct ws as [|v vs]; split; reflexivity.
Qed.

Lemma formatToolName_walk name : formatToolName name = walk true name.
Proof.
  unfold formatToolName. pose proof (walk_split name) as H.
  fold underscore.
  destruct (split underscore name) as [|w ws]; [contradiction|].
  destruct H as [Ht _]. now rewrite Ht.
Qed.

Lemma toUpperCase_idempotent c : toUpperCase (toUpperCase c) = toUpperCase c.
Proof. destruct c as [[] [] [] [] [] [] [] []]; reflexivity. Qed.

Lemma toUpperCase_not_underscore c :
  Ascii.eqb c underscore = false -> Ascii.eqb (toUpperCase c) underscore = false.
Proof. destruct c as [[] [] [] [] [] [] [] []]; intro H; try reflexivity; discriminate. Qed.

Lemma toUpperCase_ascii c : is_ascii c = true -> is_ascii (toUpperCase c) = true.
Proof. destruct c as [[] [] [] [] [] [] [] []]; intro H; try reflexivity; discriminate. Qed.

Lemma walk_length start s : String.length (walk start s) = String.length s.
Proof.
  revert start. induction s as [|c rest IH]; intro start; simpl; [reflexivity|].
  destruct (Ascii.eqb c underscore); simpl; now rewrite IH.
Qed.

Definition has_underscore (s : string) : bool :=
  existsb (fun c => Ascii.eqb c underscore) (list_ascii_of_string s).

Lemma walk_no_underscore start s : has_underscore (walk start s) = false.
Proof.
  unfold has_underscore. revert start.
  induction s as [|c rest IH]; intro start; simpl; [reflexivity|].
  destruct (Ascii.eqb c underscore) eqn:E; simpl.
  - apply IH.
  - rewrite IH. destruct start.
    + now rewrite (toUpperCase_not_underscore c E).
    + now rewrite E.
Qed.

Lemma walk_false_fixed s : has_underscore s = false -> walk false s = s.
Proof.
  unfold has_underscore. induction s as [|c rest IH]; simpl; [reflexivity|].
  destruct (Ascii.eqb c underscore); simpl; [discriminate|].
  intro H. now rewrite IH.
Qed.

Lemma walk_walk start s : walk start (walk start s) = walk start s.
Proof.
  destruct s as [|c rest]; simpl; [reflexivity|].
  destruct (Ascii.eqb c underscore) eqn:E; simpl.
  - rewrite (walk_false_fixed (walk true rest) (walk_no_underscore true rest)).
    destruct start; reflexivity.
  - destruct start.
    + rewrite (toUpperCase_not_underscore c E), toUpperCase_idempotent.
      now rewrite (walk_false_fixed (walk false rest) (walk_no_underscore false rest)).
    + rewrite E.
      now rewrite (walk_false_fixed (walk false rest) (walk_no_underscore false rest)).
Qed.

Lemma walk_ascii start s : ascii_only s -> ascii_only (walk start s).
Proof.
  unfold ascii_only. revert start.
  induction s as [|c rest IH]; intros start Hascii; simpl; [constructor|].
  inversion Hascii as [|x l Hc Hrest]. subst.
  destruct (Ascii.eqb c underscore); simpl; constructor;
    try (apply IH; exact Hrest); try reflexivity.
  destruct start; [now apply toUpperCase_ascii | exact Hc].
Qed.

(** X27: the label shown for a tool.  For an ASCII tool name,
    [formatToolName] keeps the length of the name, leaves no underscore in
    it (each one has become a space), yields ASCII again, and is idempotent:
    formatting a label a second time changes nothing. *)
Theorem formatToolName_replaces_underscores (name : string) :
  ascii_only name ->
  String.length (formatToolName name) = String.length name
  /\ has_underscore (formatToolName name) = false
  /\ formatToolName (formatToolName name) = formatToolName name
  /\ ascii_only (formatToolName name)
  /\ (has_underscore name = false -> formatToolName name = capitalize name).
Proof.
  intro Hascii. rewrite !formatToolName_walk.
  split; [apply walk_length|].
  split; [apply walk_no_underscore|].
  split; [apply walk_walk|].
  split.
  - now apply walk_ascii.
  - intro Hno. destruct name as [|c rest]; [reflexivity|].
    unfold has_underscore in Hno. simpl in *.
    destruct (Ascii.eqb c underscore); [discriminate|]. simpl in Hno.
    now rewrite (walk_false_fixed rest Hno).
Qed.

Lemma formatToolName_replaces_underscores_witness :
  formatToolName "aggregate_customer_context" = "Aggregate Customer Context"
  /\ String.length (formatToolName "aggregate_customer_context")
     = String.length "aggregate_customer_context"
  /\ formatToolName (formatToolName "aggregate_customer_context")
     = formatToolName "aggregate_customer_context".
Proof.
  split; [reflexivity|].
  destruct (formatToolName_replaces_underscores "aggregate_customer_context")
    as (Hlen & _ & Hidem & _).
  - repeat constructor.
  - split; [exact Hlen | exact Hidem].
Defined.

End MerchantChatFacts.

(* ===================================================================== *)
(** * What a run adds up: usage, records and messages *)
(* ===================================================================== *)

Module AccountingFacts.
Import McpClient GeminiClient GeminiFacts.

(** The non-empty prefixes of the messages sent on the chat session, in
    order: what the session had been sent at each [chat.sendMessage]. *)
Definition prefixes {A} (l : list A) : list (list A) :=
  map (fun k => firstn k l) (seq 1 (List.length l)).

(** The responses the model gave in the course of a run (a call that
    threw gave none). *)
Definition replies (w : world) (params : ModelParams) (history : list Content)
           (sent : list Input) : list Response :=
  flat_map (fun inputs => match sendMessage w params history inputs with
                          | Returns response => [response]
                          | Fails _ => []
                          end)
           (prefixes sent).

Definition prompt_tokens (response : Response) : Z :=
  match usageMetadata response with
  | Some u => or_zero (promptTokenCount u)
  | None => 0%Z
  end.

Definition candidate_tokens (response : Response) : Z :=
  match usageMetadata response with
  | Some u => or_zero (candidatesTokenCount u)
  | None => 0%Z
  end.

(** The number of function calls a response asks for. *)
Definition requested (response : Response) : nat :=
  match first_candidate response with
  | Some candidate => List.length (function_calls_of candidate)
  | None => 0
  end.

Definition total (l : list Z) : Z := fold_right Z.add 0%Z l.

Definition count (l : list nat) : nat := fold_right Nat.add 0 l.

Lemma total_app a b : total (a ++ b) = (total a + total b)%Z.
Proof. induction a as [|x rest IH]; simpl; [reflexivity | rewrite IH; lia]. Qed.

Lemma count_app a b : count (a ++ b) = count a + count b.
Proof. induction a as [|x rest IH]; simpl; [reflexivity | rewrite IH; lia]. Qed.

Lemma prefixes_snoc {A} (l : list A) (m : A) :
  prefixes (l ++ [m]) = (prefixes l ++ [l ++ [m]])%list.
Proof.
  unfold prefixes. rewrite length_app. cbn [List.length].
  rewrite Nat.add_1_r, seq_S, map_app. cbn [map]. f_equal.
  - apply map_ext_in. intros k Hk. apply in_seq in Hk.
    rewrite firstn_app. replace (k - List.length l) with 0 by lia.
    cbn [firstn]. now rewrite app_nil_r.
  - f_equal. rewrite Nat.add_1_l, firstn_app, (firstn_all2 l) by lia.
    replace (S (List.length l) - List.length l) with 1 by lia. reflexivity.
Qed.

Lemma replies_snoc w params history sent m :
  replies w params history (sent ++ [m])
  = (replies w params history sent
     ++ match sendMessage w params history (sent ++ [m]) with
        | Returns response => [response]
        | Fails _ => []
        end)%list.
Proof.
  unfold replies. rewrite prefixes_snoc, flat_map_app. simpl.
  now rewrite app_nil_r.
Qed.

(** The counters agree with the responses received so far. *)
Definition accounted (w : world) (params : ModelParams) (history : list Content)
           (st : LoopState) : Prop :=
  totalInputTokens st
  = total (map prompt_tokens (replies w params history (sent st)))
  /\ totalOutputTokens st
     = total (map candidate_tokens (replies w params history (sent st))).

Lemma track_usage_totals response st :
  totalInputTokens (track_usage response st)
  = (totalInputTokens st + prompt_tokens response)%Z
  /\ totalOutputTokens (track_usage response st)
     = (totalOutputTokens st + candidate_tokens response)%Z.
Proof.
  unfold track_usage, prompt_tokens, candidate_tokens.
  destruct (usageMetadata response); simpl; split; lia.
Qed.

Lemma loop_body_accounted w params history st :
  accounted w params history st ->
  accounted w params history (fst (loop_body w params history st)).
Proof.
  intros [Hin Hout]. unfold accounted.
  destruct (loop_body_view w params history st)
    as [e Hs|response Hs Hc|response candidate Hs Hc Hn
        |response candidate conn' records' settled Hs Hc Hn Hx];
    simpl in Hs.
  - simpl. rewrite replies_snoc, Hs, app_nil_r. now split.
  - destruct (track_usage_fields response (begin_pass st)) as (_ & _ & _ & Hsent & _).
    destruct (track_usage_totals response (begin_pass st)) as [Ti To].
    simpl fst. rewrite Hsent, Ti, To. simpl.
    rewrite replies_snoc, Hs, !map_app, !total_app. simpl. split; lia.
  - destruct (track_usage_fields response (begin_pass st)) as (_ & _ & _ & Hsent & _).
    destruct (track_usage_totals response (begin_pass st)) as [Ti To].
    simpl fst. rewrite Hsent, Ti, To. simpl.
    rewrite replies_snoc, Hs, !map_app, !total_app. simpl. split; lia.
  - destruct (track_usage_fields response (begin_pass st)) as (_ & _ & _ & Hsent & _).
    destruct (track_usage_totals response (begin_pass st)) as [Ti To].
    destruct settled; simpl; rewrite Hsent, Ti, To; simpl;
      rewrite replies_snoc, Hs, !map_app, !total_app; simpl; split; lia.
Qed.

Lemma agentic_loop_accounted w params history max : forall st,
  accounted w params history st ->
  accounted w params history (final (agentic_loop w params history max st)).
Proof.
  apply (agentic_loop_induction w params history max
           (fun st run => accounted w params history st ->
                          accounted w params history (final run))).
  - intros st _ H. exact H.
  - intros st st' r _ Eb H.
    pose proof (loop_body_accounted w params history st H) as H'.
    now rewrite Eb in H'.
  - intros st st' e _ Eb H.
    pose proof (loop_body_accounted w params history st H) as H'.
    now rewrite Eb in H'.
  - intros st st' _ Eb H.
    pose proof (loop_body_accounted w params history st H) as H'.
    now rewrite Eb in H'.
  - intros st st' _ Eb IH H.
    pose proof (loop_body_accounted w params history st H) as H'.
    rewrite Eb in H'. now apply IH.
Qed.

(** The records agree with the calls requested so far. *)
Definition recorded (w : world) (params : ModelParams) (history : list Content)
           (st : LoopState) : Prop :=
  List.length (toolCallRecords st)
  = count (map requested (replies w params history (sent st))).

Lemma loop_body_recorded w params history st :
  all_calls_settle w -> connected st ->
  recorded w params history st ->
  recorded w params history (fst (loop_body w params history st))
  /\ connected (fst (loop_body w params history st)).
Proof.
  intros Hsettle [c Hc] Hrec. unfold recorded in *.
  assert (Hconn : connected (fst (loop_body w params history st))).
  { exists c. now rewrite (ChatRouteFacts.loop_body_keeps_connection w params history st c Hc). }
  split; [|exact Hconn]. clear Hconn.
  destruct (loop_body_view w params history st)
    as [e Hs|response Hs Hcand|response candidate Hs Hcand Hn
        |response candidate conn' records' settled Hs Hcand Hn Hx];
    simpl in Hs.
  - simpl. rewrite replies_snoc, Hs, app_nil_r. exact Hrec.
  - destruct (track_usage_fields response (begin_pass st)) as (Hr & _ & _ & Hsent & _).
    simpl fst. rewrite Hr, Hsent. simpl.
    assert (Hq : requested response = 0) by (unfold requested; now rewrite Hcand).
    rewrite replies_snoc, Hs, map_app, count_app. simpl. rewrite Hq. lia.
  - destruct (track_usage_fields response (begin_pass st)) as (Hr & _ & _ & Hsent & _).
    simpl fst. rewrite Hr, Hsent. simpl.
    assert (Hq : requested response = 0) by (unfold requested; now rewrite Hcand, Hn).
    rewrite replies_snoc, Hs, map_app, count_app. simpl. rewrite Hq. lia.
  - destruct (track_usage_fields response (begin_pass st)) as (_ & _ & _ & Hsent & _).
    destruct (execute_tools_connected w (iteration_count st + 1) (connection st) c
                (parts_of candidate) (toolCallRecords st) Hc (Hsettle _ _))
      as (new & Hex & Hnew & _).
    unfold function_calls_of in Hx. rewrite Hex in Hx. inversion Hx. subst.
    simpl. rewrite Hsent. simpl.
    assert (Hq : requested response = List.length (filter has_functionCall (parts_of candidate))).
    { unfold requested. now rewrite Hcand. }
    rewrite replies_snoc, Hs, map_app, count_app, length_app, Hnew. simpl.
    rewrite Hq, calls_of_filter_length. lia.
Qed.

Lemma agentic_loop_recorded w params history max :
  all_calls_settle w ->
  forall st, connected st -> recorded w params history st ->
             recorded w params history (final (agentic_loop w params history max st)).
Proof.
  intro Hsettle.
  apply (agentic_loop_induction w params history max
           (fun st run => connected st -> recorded w params history st ->
                          recorded w params history (final run))).
  - intros st _ _ H. exact H.
  - intros st st' r _ Eb Hc H.
    destruct (loop_body_recorded w params history st Hsettle Hc H) as [H' _].
    now rewrite Eb in H'.
  - intros st st' e _ Eb Hc H.
    destruct (loop_body_recorded w params history st Hsettle Hc H) as [H' _].
    now rewrite Eb in H'.
  - intros st st' _ Eb Hc H.
    destruct (loop_body_recorded w params history st Hsettle Hc H) as [H' _].
    now rewrite Eb in H'.
  - intros st st' _ Eb IH Hc H.
    destruct (loop_body_recorded w params history st Hsettle Hc H) as [H' Hc'].
    rewrite Eb in H', Hc'. now apply IH.
Qed.

(** X29: what a response adds up.  When [sendMessageToGemini] returns,
    [inputTokens] is the sum of the prompt token counts, and [outputTokens]
    the sum of the candidate token counts, of all the responses the model
    gave during the run (a response without usage metadata or without the
    count contributing zero), and [iterations] is the number of those
    responses.  When moreover every dispatched call settles, [toolCalls]
    holds one record for every function call the model asked for during the
    run, those of the last turn before the ceiling included. *)
Theorem a_response_adds_up (w : world) (conn conn1 : McpClient.state)
        (request : ChatRequest) (mcpTools : list McpTool) (r : ChatResponse) :
  listMcpTools (mcp w) conn = (conn1, Returns mcpTools) ->
  outcome_of (sendMessageToGemini w conn request) = Responded r ->
  inputTokens (usage r)
  = total (map prompt_tokens
               (replies w (model_params w request mcpTools) (chat_history request)
                        (sent (final (sendMessageToGemini w conn request)))))
  /\ outputTokens (usage r)
     = total (map candidate_tokens
                  (replies w (model_params w request mcpTools) (chat_history request)
                           (sent (final (sendMessageToGemini w conn request)))))
  /\ Z.of_nat (List.length (replies w (model_params w request mcpTools)
                                    (chat_history request)
                                    (sent (final (sendMessageToGemini w conn request)))))
     = iterations r
  /\ (McpClientFacts.consistent conn -> all_calls_settle w ->
      List.length (toolCalls r)
      = count (map requested
                   (replies w (model_params w request mcpTools) (chat_history request)
                            (sent (final (sendMessageToGemini w conn request)))))).
Proof.
  intros Hl. unfold sendMessageToGemini. rewrite Hl.
  destruct (latestMessage request) as [[[| |] latest]|]; try discriminate.
  destruct (startChat w _ _); [|discriminate].
  set (params := model_params w request mcpTools).
  set (history := chat_history request).
  intro H.
  destruct (ConversationFacts.loop_response_shape w params history (ceiling request)
              (entry conn1 latest) r H) as [Hr _].
  assert (Hacc : accounted w params history
                   (final (agentic_loop w params history (ceiling request)
                                        (entry conn1 latest)))).
  { apply agentic_loop_accounted. split; reflexivity. }
  destruct Hacc as [Hin Hout].
  rewrite Hr. simpl. split; [exact Hin|]. split; [exact Hout|].
  split.
  2:{ intros Hcons Hsettle.
      apply (agentic_loop_recorded w params history (ceiling request) Hsettle
               (entry conn1 latest)).
      - exact (listMcpTools_connects w conn conn1 mcpTools Hcons Hl).
      - reflexivity. }
  (* every message sent on a run that returns was answered *)
  clear Hr Hin Hout. revert r H.
  assert (Hgen : forall st,
             Z.of_nat (List.length (replies w params history (sent st)))
             = iteration_count st ->
             Z.of_nat (List.length (sent st)) = iteration_count st ->
             forall r, outcome_of (agentic_loop w params history (ceiling request) st)
                       = Responded r ->
                       Z.of_nat (List.length
                                   (replies w params history
                                      (sent (final (agentic_loop w params history
                                                      (ceiling request) st)))))
                       = iteration_count (final (agentic_loop w params history
                                                   (ceiling request) st))).
  { apply (agentic_loop_induction w params history (ceiling request)
             (fun st run =>
                Z.of_nat (List.length (replies w params history (sent st)))
                = iteration_count st ->
                Z.of_nat (List.length (sent st)) = iteration_count st ->
                forall r, outcome_of run = Responded r ->
                          Z.of_nat (List.length (replies w params history (sent (final run))))
                          = iteration_count (final run))).
    - intros st _ Hrep _ r _. exact Hrep.
    - intros st st' r _ Eb Hrep Hlen r' _. simpl.
      pose proof (loop_body_counts w params history st) as [Hi Hs].
      rewrite Eb in Hi, Hs. simpl in Hi, Hs.
      destruct (loop_body_return w params history st st' r Eb)
        as (_ & response & Hsend & _).
      rewrite Hs in Hsend |- *. rewrite replies_snoc, Hsend, length_app, Hi. simpl. lia.
    - intros st st' e _ _ _ _ r H. discriminate.
    - intros st st' _ _ _ _ r H. discriminate.
    - intros st st' _ Eb IH Hrep Hlen r H.
      pose proof (loop_body_counts w params history st) as [Hi Hs].
      rewrite Eb in Hi, Hs. simpl in Hi, Hs.
      apply (IH) with (r := r); [| |exact H].
      + pose proof (loop_body_view w params history st) as V. rewrite Eb in V.
        inversion V as [e He|response Hs' Hc|response candidate Hs' Hc Hn
                        |response candidate conn' records' settled Hs' Hc Hn Hx Hm];
          subst; try (destruct settled; discriminate).
        simpl in Hs'. rewrite Hs, replies_snoc, Hs', length_app, Hi. simpl. lia.
      + rewrite Hs, length_app, Hi. simpl. lia. }
  intros r H.
  rewrite (Hgen (entry conn1 latest) eq_refl eq_refl r H). reflexivity.
Qed.

Lemma a_response_adds_up_witness :
  exists r,
    outcome_of (sendMessageToGemini insatiable McpClient.initial
                  (ask "refund 1001" (Some 3%Z))) = Responded r
    /\ inputTokens (usage r) = 36%Z
    /\ outputTokens (usage r) = 21%Z
    /\ iterations r = 3%Z
    /\ List.length (toolCalls r) = 3.
Proof.
  eexists. split; [reflexivity|].
  destruct (a_response_adds_up insatiable McpClient.initial
              (fst (listMcpTools (mcp insatiable) McpClient.initial))
              (ask "refund 1001" (Some 3%Z)) [] _ eq_refl eq_refl)
    as (Hin & Hout & Hit & Hrec).
  rewrite Hin, Hout, <- Hit, Hrec.
  - repeat split.
  - exact McpClientFacts.consistent_initial.
  - intros k calls. apply settle_in_reverse_settles.
Defined.

(** ** What is sent to the model *)

Definition is_parts (m : Input) : Prop :=
  match m with
  | Parts _ => True
  | Text _ => False
  end.

(** The user's text has gone out first, and only function responses
    since. *)
Definition text_then_responses (latest : string) (st : LoopState) : Prop :=
  match sent st with
  | [] => currentMessage st = Text latest
  | first :: rest =>
      first = Text latest /\ Forall is_parts rest /\ is_parts (currentMessage st)
  end.

Definition well_sent (latest : string) (sent : list Input) : Prop :=
  sent = [] \/ exists rest, sent = Text latest :: rest /\ Forall is_parts rest.

Lemma text_then_responses_sent latest st :
  text_then_responses latest st ->
  well_sent latest (sent st ++ [currentMessage st]).
Proof.
  unfold text_then_responses, well_sent. destruct (sent st) as [|first rest].
  - intros ->. right. exists []. split; [reflexivity|constructor].
  - intros (-> & Hrest & Hcur). right. exists (rest ++ [currentMessage st])%list.
    split; [reflexivity|]. apply Forall_app. split; [exact Hrest|].
    constructor; [exact Hcur|constructor].
Qed.

Lemma loop_body_continues_with_parts w params history st st' :
  loop_body w params history st = (st', Continue) ->
  is_parts (currentMessage st').
Proof.
  intro Eb. pose proof (loop_body_view w params history st) as V. rewrite Eb in V.
  inversion V as [e He|response Hs Hc|response candidate Hs Hc Hn
                  |response candidate conn' records' settled Hs Hc Hn Hx Hm]; subst.
  destruct settled; inversion Hm. simpl. exact I.
Qed.

Lemma agentic_loop_sent w params history max latest : forall st,
  text_then_responses latest st ->
  sent (final (agentic_loop w params history max st)) = sent st
  \/ well_sent latest (sent (final (agentic_loop w params history max st))).
Proof.
  apply (agentic_loop_induction w params history max
           (fun st run => text_then_responses latest st ->
                          sent (final run) = sent st
                          \/ well_sent latest (sent (final run)))).
  - intros st _ _. now left.
  - intros st st' r _ Eb H. right. simpl.
    pose proof (loop_body_counts w params history st) as [_ Hs].
    rewrite Eb in Hs. simpl in Hs. rewrite Hs. now apply text_then_responses_sent.
  - intros st st' e _ Eb H. right. simpl.
    pose proof (loop_body_counts w params history st) as [_ Hs].
    rewrite Eb in Hs. simpl in Hs. rewrite Hs. now apply text_then_responses_sent.
  - intros st st' _ Eb H. right. simpl.
    pose proof (loop_body_counts w params history st) as [_ Hs].
    rewrite Eb in Hs. simpl in Hs. rewrite Hs. now apply text_then_responses_sent.
  - intros st st' _ Eb IH H. right.
    pose proof (loop_body_counts w params history st) as [_ Hs].
    rewrite Eb in Hs. simpl in Hs.
    pose proof (text_then_responses_sent latest st H) as Hw.
    rewrite <- Hs in Hw.
    assert (H' : text_then_responses latest st').
    { unfold text_then_responses.
      destruct Hw as [Hnil|(rest & Hrest & Hall)].
      - rewrite Hs in Hnil. destruct (sent st); discriminate.
      - rewrite Hrest. split; [reflexivity|]. split; [exact Hall|].
        exact (loop_body_continues_with_parts w params history st st' Eb). }
    destruct (IH H') as [Hsame|Hwell]; [|exact Hwell].
    rewrite Hsame. exact Hw.
Qed.

(** X30: what goes to the model in a run.  The user's latest message is
    sent as plain text, first and once; every later message of the run is a
    list of function responses.  (Nothing else of the request is sent on
    the session: the earlier conversation is the history of [startChat].) *)
Theorem user_text_is_sent_first (w : world) (conn : McpClient.state)
        (request : ChatRequest) (m : Input) (rest : list Input) :
  sent (final (sendMessageToGemini w conn request)) = m :: rest ->
  (exists latest,
      latestMessage request = Some {| role := user; content_text := latest |}
      /\ m = Text latest)
  /\ Forall is_parts rest.
Proof.
  unfold sendMessageToGemini.
  destruct (listMcpTools (mcp w) conn) as [conn1 [mcpTools|e]]; [|discriminate].
  destruct (latestMessage request) as [[[| |] latest]|]; try discriminate.
  destruct (startChat w _ _); [|discriminate].
  intro Hsent.
  destruct (agentic_loop_sent w (model_params w request mcpTools) (chat_history request)
              (ceiling request) latest (entry conn1 latest) eq_refl)
    as [Hsame|[Hnil|(rest' & Hrest & Hall)]].
  - rewrite Hsame in Hsent. discriminate.
  - rewrite Hnil in Hsent. discriminate.
  - rewrite Hrest in Hsent. inversion Hsent. subst. split; [|exact Hall].
    exists latest. now split.
Qed.

Lemma user_text_is_sent_first_witness :
  (exists latest,
      latestMessage (ask "refund 1001" (Some 3%Z))
      = Some {| role := user; content_text := latest |}
      /\ Text "refund 1001" = Text latest)
  /\ Forall is_parts
            (tl (sent (final (sendMessageToGemini insatiable McpClient.initial
                                (ask "refund 1001" (Some 3%Z)))))).
Proof.
  apply (user_text_is_sent_first insatiable McpClient.initial (ask "refund 1001" (Some 3%Z))).
  reflexivity.
Defined.

End AccountingFacts.
